(** * hops: broker client, sequence runner and worker loop

    A shallow embedding of the Go packages [nats] (broker client and
    sequence aggregator), [internal/runner] (sequence runner) and [worker]
    (worker loop) of the hops orchestrator, and the properties of its
    specification proved (or refuted) over that embedding.
    Further parts embed the constructors of the notify and the worker
    client, the rule decoder of the package [dsl] and its reader of rule
    directories, with properties read off the code.

    Conventions.
    - A Go [error] value is an [error]; a nilable [error] is an
      [option error] ([None] is [nil]).
    - Calls into the broker library, the clock and the loggers are effects:
      every call appends one [Event] to the trace, and the value the
      outside world answers with is given by an oracle that may depend on
      the whole trace so far.
    - A computation is a function from the trace to an [Outcome] and the
      extended trace; besides returning it may panic, or block for ever on
      a receive nobody serves. *)

From Stdlib Require Import ZArith String Ascii List Lia Permutation Sorted.
From stdpp Require Import gmap strings list sorting pretty.

Open Scope string_scope.
Open Scope list_scope.
Open Scope stdpp_scope.

Local Set Warnings "-register-all".

(** ** Go's [strings] package (byte strings) *)

(** [strings.Index]: position of the first occurrence of [substr] in [s]. *)
Fixpoint strings_Index (s substr : string) : option nat :=
  if String.prefix substr s then Some 0
  else match s with
       | EmptyString => None
       | String _ s' => S <$> strings_Index s' substr
       end.

(** [strings.Contains]. *)
Definition strings_Contains (s substr : string) : bool :=
  match strings_Index s substr with Some _ => true | None => false end.

(** [strings.Cut]: slice [s] around the first instance of [sep]. *)
Definition strings_Cut (s sep : string) : string * string * bool :=
  match strings_Index s sep with
  | Some i =>
      (substring 0 i s,
       substring (i + String.length sep) (String.length s - (i + String.length sep)) s,
       true)
  | None => (s, "", false)
  end.

(** [strings.Join]. *)
Definition strings_Join (elems : list string) (sep : string) : string :=
  String.concat sep elems.

Definition newline : string := String (ascii_of_nat 10) "".
Definition tab : string := String (ascii_of_nat 9) "".

(** ** Errors *)

(** The error values this program creates or receives.  [errorString] is
    what [errors.New], [fmt.Errorf] without [%w] and the broker library
    produce; [wrapError] is [fmt.Errorf] with [%w] (it keeps the formatted
    text and the wrapped error); [joinError] is the result of
    [errors.Join]; [multiError] is go-multierror's [*Error]. *)
Inductive error : Type :=
| errorString (s : string)
| wrapError (msg : string) (err : error)
| joinError (errs : list error)
| multiError (errs : list error).

(** go-multierror's [ListFormatFunc], on the texts of the errors. *)
Definition multierror_ListFormat (es : list string) : string :=
  match es with
  | [e] => "1 error occurred:" +:+ newline +:+ tab +:+ "* " +:+ e +:+ newline +:+ newline
  | _ =>
      pretty (N.of_nat (length es)) +:+ " errors occurred:" +:+ newline +:+ tab
        +:+ strings_Join (map (fun e => "* " +:+ e) es) (newline +:+ tab)
        +:+ newline +:+ newline
  end.

(** The [Error()] method. *)
Fixpoint Error (e : error) : string :=
  match e with
  | errorString s => s
  | wrapError msg _ => msg
  | joinError errs => strings_Join (map Error errs) newline
  | multiError errs => multierror_ListFormat (map Error errs)
  end.

(** [fmt.Errorf(prefix + "%w", err)]. *)
Definition fmt_Errorf_w (prefix : string) (err : error) : error :=
  wrapError (prefix +:+ Error err) err.

(** [errors.Join]: [nil] arguments are dropped; [nil] when none is left. *)
Definition errors_Join (errs : list (option error)) : option error :=
  match omap id errs with
  | [] => None
  | es => Some (joinError es)
  end.

(** [multierror.Append(err, e)] for a non-nil [e]: a [*multierror.Error] on
    either side is flattened; any other non-nil [err] becomes the first
    element. *)
Definition multierror_Append (err : option error) (e : error) : error :=
  let flat := match e with multiError es => es | _ => [e] end in
  match err with
  | None => multiError flat
  | Some (multiError es) => multiError (es ++ flat)
  | Some other => multiError (other :: flat)
  end.

(** ** Data of the broker library *)

Definition bytes : Type := list Byte.byte.

(** [time.Duration]: a count of nanoseconds (int64; no operation below
    leaves the range for an ack-wait that is in range). *)
Definition Duration : Type := Z.
Definition Second : Duration := 1000000000%Z.
Definition Minute : Duration := (60 * Second)%Z.

(** [time.Time]: the zero value, or an instant read from the clock. *)
Inductive Time : Type := ZeroTime | Instant (ns : Z).

(** A [jetstream.Msg] as delivered by a consumer: subject, payload and the
    stream sequence of its metadata.  Its acknowledgement methods are
    effects ([msgOp] below). *)
Record Msg : Type := {
  Subject : string;
  Data : bytes;
  StreamSeq : N;
}.

(** [jetstream.RawStreamMsg], as returned by [GetLastMsgForSubject]. *)
Record RawStreamMsg : Type := {
  raw_Subject : string;
  raw_Sequence : N;
  raw_Data : bytes;
}.

Record PubAck : Type := {
  ack_Stream : string;
  ack_Sequence : N;
}.

Inductive DeliverPolicy : Type :=
  DeliverAllPolicy | DeliverLastPolicy | DeliverNewPolicy.

Record OrderedConsumerConfig : Type := {
  oc_FilterSubjects : list string;
  oc_DeliverPolicy : DeliverPolicy;
}.

(** [jetstream.ConsumerConfig]; a field the code leaves out has Go's zero
    value (the empty string, [DeliverAllPolicy], 0). *)
Record ConsumerConfig : Type := {
  cc_Name : string;
  cc_Durable : string;
  cc_Description : string;
  cc_FilterSubject : string;
  cc_DeliverPolicy : DeliverPolicy;
  cc_AckWait : Duration;
}.

(** A consumer with an empty durable name is ephemeral. *)
Definition ephemeral (cfg : ConsumerConfig) : bool :=
  bool_decide (cc_Durable cfg = "").

(** The methods of [jetstream.Msg] that answer the broker. *)
Inductive MsgOp : Type :=
| OpAck
| OpDoubleAck
| OpNak
| OpNakWithDelay (d : Duration)
| OpTerm
| OpInProgress.

Inductive LogLevel : Type := LDebug | LInfo | LWarn | LError.

Inductive ConnOption : Type :=
| RetryOnFailedConnect (b : bool)
| MaxReconnects (n : Z)
| ReconnectWait (d : Duration).

(** ** Effects *)

Inductive Event : Type :=
| EvConnect (url : string) (opts : list ConnOption)
| EvJetStreamNew
| EvDrain
| EvPublish (subject : string) (data : bytes)
| EvOrderedConsumer (stream : string) (cfg : OrderedConsumerConfig)
| EvMessages
| EvNext
| EvStream (stream : string)
| EvGetLastMsgForSubject (subject : string)
| EvCreateConsumer (stream : string) (cfg : ConsumerConfig)
| EvUUID
| EvMsgOp (m : Msg) (op : MsgOp)
| EvLog (lvl : LogLevel) (err : option error) (text : string)
| EvSequenceCallback (sequenceId : string) (bundle : gmap string bytes)
| EvGoHandler (m : Msg)
| EvNewTicker (d : Duration)
| EvTickerStop
| EvNow
| EvConsume
| EvConsumeStop.

Definition Trace : Type := list Event.

Inductive Outcome (A : Type) : Type :=
| Ret (a : A)
| Panic (e : error)
| Blocked.
Arguments Ret {A} a.
Arguments Panic {A} e.
Arguments Blocked {A}.

Definition M (A : Type) : Type := Trace -> Outcome A * Trace.

Definition M_ret {A} (a : A) : M A := fun tr => (Ret a, tr).

Definition M_bind {A B} (m : M A) (k : A -> M B) : M B :=
  fun tr =>
    match m tr with
    | (Ret a, tr') => k a tr'
    | (Panic e, tr') => (Panic e, tr')
    | (Blocked, tr') => (Blocked, tr')
    end.

Global Instance M_MRet : MRet M := @M_ret.
Global Instance M_MBind : MBind M := fun A B k m => M_bind m k.

(** One call to the outside world: the oracle [answer] sees the trace so
    far, and the call is recorded. *)
Definition call {A} (ev : Event) (answer : Trace -> A) : M A :=
  fun tr => (Ret (answer tr), tr ++ [ev]).

(** A call whose answer the program does not use. *)
Definition emit (ev : Event) : M unit := call ev (fun _ => tt).

Definition panic {A} (e : error) : M A := fun tr => (Panic e, tr).

(** A receive that is never served. *)
Definition block {A} : M A := fun tr => (Blocked, tr).

(** The loggers ([Logger] of the packages [nats] and [worker], zerolog in
    the runner). *)
Definition Debugf (text : string) : M unit := emit (EvLog LDebug None text).
Definition Infof (text : string) : M unit := emit (EvLog LInfo None text).
Definition Warnf (text : string) : M unit := emit (EvLog LWarn None text).
Definition Errf (err : option error) (text : string) : M unit :=
  emit (EvLog LError err text).

(** A pair [(value, error)] on which the source branches at once. *)
Inductive result (A : Type) : Type :=
| Ok (a : A)
| Err (e : error).
Arguments Ok {A} a.
Arguments Err {A} e.

(** ** Package [nats]: the broker client *)

Module nats.

Definition ChannelNotify : string := "notify".
Definition ChannelRequest : string := "request".

(** Modelled from the spec: the struct [MsgMeta] that [Parse] returns is
    declared in a file that is not among the sources; its fields are the
    parsed message metadata of the data model (account id, channel,
    sequence id, message id, app and handler name for the request channel,
    stream sequence). *)
Record MsgMeta : Type := {
  AccountId : string;
  Channel : string;
  SequenceId : string;
  MessageId : string;
  AppName : string;
  HandlerName : string;
  StreamSequence : N;
}.

(** Modelled from the spec: [MsgMeta.SequenceFilter], the sequence history
    filter [{account}.notify.{sequence_id}.*] of the subject codec. *)
Definition SequenceFilter (m : MsgMeta) : string :=
  strings_Join [AccountId m; ChannelNotify; SequenceId m; "*"] ".".

(** Modelled from the spec: [SourceEventSubject], the source event subject
    [{account}.notify.{sequence_id}.event] of the subject codec. *)
Definition SourceEventSubject (accountId sequenceId : string) : string :=
  strings_Join [accountId; ChannelNotify; sequenceId; "event"] ".".

(** Modelled from the spec: [ReplayFilterSubject], the filter
    [{account}.notify.{replay_sequence_id}.*] of the replay consumer. *)
Definition ReplayFilterSubject (accountId replaySequenceId : string) : string :=
  strings_Join [accountId; ChannelNotify; replaySequenceId; "*"] ".".

(** *** Handles of the broker library

    A handle carries the answers its methods will give. *)

(** [jetstream.MessagesContext]: the results of the successive calls of
    [Next].  When they are used up, [Next] blocks. *)
Definition MessagesContext : Type := list (result Msg).

(** An ordered consumer: the result of its [Messages()]. *)
Record OrderedConsumer : Type := {
  Messages : result MessagesContext;
}.

(** [jetstream.Stream]: [GetLastMsgForSubject] returns a pair
    [(rawMsg, err)]. *)
Record Stream : Type := {
  GetLastMsgForSubject : Trace -> string -> option RawStreamMsg * option error;
}.

(** [jetstream.Consumer]: its cached configuration, and the error (if
    any) of registering a callback with [Consume]. *)
Record jetstream_Consumer : Type := {
  CachedInfo_Config : ConsumerConfig;
  Consume_err : Trace -> option error;
}.

(** The [jetstream.JetStream] interface, as far as the client uses it. *)
Record jetstream_JetStream : Type := {
  js_Publish : Trace -> string -> bytes -> option PubAck * option error;
  js_OrderedConsumer : Trace -> string -> OrderedConsumerConfig -> result OrderedConsumer;
  js_Stream : Trace -> string -> result Stream;
  js_CreateConsumer : Trace -> string -> ConsumerConfig -> result jetstream_Consumer;
}.

(** [*nats.Conn]: what [jetstream.New] makes of it. *)
Record Conn : Type := {
  jetstream_New : Trace -> result jetstream_JetStream;
}.

(** The answers of the outside world that do not belong to a handle:
    [nats.Connect], the answer of the broker to the acknowledgement
    methods of a message, the clock, and the 128 random bits of
    [uuid.NewString]. *)
Record World : Type := {
  nats_Connect : Trace -> string -> list ConnOption -> result Conn;
  msg_reply : Trace -> Msg -> MsgOp -> option error;
  time_Now : Trace -> Z;
  uuid_random : Trace -> N;
}.

(** The struct [Client].  The Go code allocates it with the account id and
    the logger and fills [NatsConn] and [JetStream] before any method that
    uses them runs; here the record is built once both exist.  [Consumer]
    is [nil] until one of the [init...Consumer] methods sets it. *)
Record Client : Type := {
  NatsConn : Conn;
  JetStream : jetstream_JetStream;
  Consumer : option jetstream_Consumer;
  accountId : string;
}.

(** [MessageBundle]: a map from message id to the data of that message. *)
Abbreviation MessageBundle := (gmap string bytes).

(** The interface [SequenceHandler]: its method [SequenceCallback]. *)
Definition SequenceHandler : Type := string -> MessageBundle -> M (option error).

(** A method of a delivered message. *)
Definition msgOp (W : World) (m : Msg) (op : MsgOp) : M (option error) :=
  call (EvMsgOp m op) (fun tr => msg_reply W tr m op).

(** *** [uuid.NewString] *)

Definition hexdigit (n : N) : ascii :=
  nth (N.to_nat (n mod 16))
      (list_ascii_of_string "0123456789abcdef") "0"%char.

Definition hexbyte (b : N) (rest : string) : string :=
  String (hexdigit (b / 16)) (String (hexdigit b) rest).

(** Byte [i] (0 to 15) of the 128 random bits, with the version and
    variant bits of a version 4 UUID set. *)
Definition uuid_byte (r : N) (i : N) : N :=
  let b := ((r / 2 ^ (8 * (15 - i))) mod 256)%N in
  if (i =? 6)%N then N.lor (N.land b 15) 64
  else if (i =? 8)%N then N.lor (N.land b 63) 128
  else b.

(** The form xxxxxxxx-xxxx-xxxx-xxxx-xxxxxxxxxxxx. *)
Definition uuid_String (r : N) : string :=
  let h i rest := hexbyte (uuid_byte r i) rest in
  h 0%N (h 1%N (h 2%N (h 3%N (String "-" (h 4%N (h 5%N (String "-"
  (h 6%N (h 7%N (String "-" (h 8%N (h 9%N (String "-"
  (h 10%N (h 11%N (h 12%N (h 13%N (h 14%N (h 15%N ""))))))))))))))))))).

Definition uuid_NewString (W : World) : M string :=
  call EvUUID (fun tr => uuid_String (uuid_random W tr)).

(** *** Publishing *)

(** The subject [Publish] builds from its tokens. *)
Definition publishSubject (c : Client) (subjTokens : list string) : string :=
  let isFullSubject :=
    match subjTokens with
    | [t] => strings_Contains t "."
    | _ => false
    end in
  (* If we have individual subject tokens, construct into string and
     prefix with accountId *)
  if negb isFullSubject
  then strings_Join (accountId c :: subjTokens) "."
  else hd "" subjTokens.

Definition Publish (c : Client) (data : bytes) (subjTokens : list string)
  : M (option PubAck * option error * bool) :=
  let subject := publishSubject c subjTokens in
  '(puback, err) ← call (EvPublish subject data)
                        (fun tr => js_Publish (JetStream c) tr subject data);
  match err with
  | Some e =>
      if strings_Contains (Error e) "maximum messages per subject exceeded"
      then Debugf ("Skipping duplicate message " +:+ subject);;
           mret (puback, None, false)
      else mret (puback, Some e, true)
  | None =>
      Debugf ("Message sent " +:+ subject);;
      mret (puback, None, true)
  end.

(** *** The sequence aggregator *)

Section Aggregator.

(** [Parse] is declared in a file that is not among the sources; the
    aggregator is modelled for any parser. *)
Variable Parse : Msg -> result MsgMeta.

(** The [for] loop of [FetchMessageBundle]. *)
Fixpoint readBack (msgCtx : MessagesContext) (newMsg : MsgMeta)
         (msgBundle : MessageBundle) : M (result MessageBundle) :=
  match msgCtx with
  | [] => emit EvNext;; block
  | next :: msgCtx' =>
      (* Get the next message in the sequence *)
      emit EvNext;;
      match next with
      | Err err => mret (Err err)
      | Ok m =>
          (* Parse the important bits for easy handling *)
          match Parse m with
          | Err err => mret (Err err)
          | Ok msg =>
              (* Ensure we've not surpassed the nats message sequence
                 we're reading up to *)
              if (StreamSequence newMsg <? StreamSequence msg)%N
              then mret (Err (errorString
                     ("Unable to find original message with NATS sequence of: "
                        +:+ pretty (StreamSequence newMsg))))
              else
                (* Add to the message bundle *)
                let msgBundle := <[MessageId msg := Data m]> msgBundle in
                (* If we're at the newMsg, we can stop *)
                if (StreamSequence msg =? StreamSequence newMsg)%N
                then mret (Ok msgBundle)
                else readBack msgCtx' newMsg msgBundle
          end
      end
  end.

Definition FetchMessageBundle (c : Client) (newMsg : MsgMeta)
  : M (result MessageBundle) :=
  let filter := SequenceFilter newMsg in
  let consumerConf :=
    {| oc_FilterSubjects := [filter];
       oc_DeliverPolicy := DeliverAllPolicy |} in
  cons ← call (EvOrderedConsumer (accountId c) consumerConf)
              (fun tr => js_OrderedConsumer (JetStream c) tr (accountId c) consumerConf);
  match cons with
  | Err err => mret (Err (fmt_Errorf_w "Unable to create ordered consumer: " err))
  | Ok consumer =>
      msgCtx ← call EvMessages (fun _ => Messages consumer);
      match msgCtx with
      | Err err => mret (Err (fmt_Errorf_w "Unable to read back messages: " err))
      | Ok msgCtx => readBack msgCtx newMsg ∅
      end
  end.

End Aggregator.

(** *** Consuming sequences *)

(** A nil pointer dereference. *)
Definition nil_dereference : error :=
  errorString "runtime error: invalid memory address or nil pointer dereference".

(** The goroutine in which the broker library calls the callback that was
    registered with [Consume], on the messages the consumer delivers: one
    call after the other, until the consumer is stopped.  [deliveries] are
    the messages handed to the callback before the context is cancelled,
    oldest first; [inflight] is the message whose callback is running at
    the moment the context is cancelled, if there is one, with the number
    of calls to the outside world this callback has made by then.  A
    callback that panics takes the process down.  A callback that does not
    return keeps the goroutine: no later message is handed over, and the
    context is cancelled while it waits. *)
Fixpoint deliver (callback : Msg -> M unit) (deliveries : list Msg)
         (inflight : option (Msg * nat)) : M unit :=
  match deliveries with
  | msg :: deliveries' =>
      fun tr =>
        match callback msg tr with
        | (Ret _, tr') => deliver callback deliveries' inflight tr'
        | (Panic e, tr') => (Panic e, tr')
        | (Blocked, tr') => (Ret tt, tr')
        end
  | [] =>
      match inflight with
      | None => mret tt
      | Some (msg, n) =>
          fun tr =>
            match callback msg tr with
            | (Panic e, tr') =>
                if (length tr' <=? length tr + n)%nat
                then (Panic e, tr')
                else (Ret tt, take (length tr + n) tr')
            | (_, tr') => (Ret tt, take (length tr + n) tr')
            end
      end
  end.

(** [Consume]: registers [callback] with the client's consumer, waits for
    the context to be cancelled and returns nil then, whatever the
    callback is doing at that moment; the consumer is stopped on the way
    out.  (The context is taken to be cancelled at some moment: the
    deliveries are those made until then.) *)
Definition Consume (c : Client) (callback : Msg -> M unit)
           (deliveries : list Msg) (inflight : option (Msg * nat))
  : M (option error) :=
  match Consumer c with
  | None => panic nil_dereference
  | Some consumer =>
      err ← call EvConsume (Consume_err consumer);
      match err with
      | Some err => mret (Some err)
      | None =>
          (* Run until context cancelled *)
          deliver callback deliveries inflight;;
          emit EvConsumeStop;;
          mret None
      end
  end.

Section Sequences.

Variable W : World.
Variable Parse : Msg -> result MsgMeta.

(** The callback [wrappedCB] that [ConsumeSequences] installs. *)
Definition wrappedCB (c : Client) (handler : SequenceHandler) (msg : Msg)
  : M unit :=
  match Parse msg with
  | Err err =>
      (* If parsing is failing, there's no point retrying the message *)
      msgOp W msg OpTerm;;
      Errf (Some err) "Unable to parse message"
  | Ok hopsMsg =>
      msgBundle ← FetchMessageBundle Parse c hopsMsg;
      match msgBundle with
      | Err err =>
          msgOp W msg (OpNakWithDelay (3 * Second)%Z);;
          Errf (Some err) "Unable to fetch message bundle";;
          (* TODO: Remove this panic, just for debugging *)
          panic err
          (* return *)
      | Ok msgBundle =>
          err ← handler (SequenceId hopsMsg) msgBundle;
          match err with
          | Some err =>
              Errf (Some err) "Failed to process message";;
              msgOp W msg (OpNakWithDelay (3 * Second)%Z);;
              mret tt
          | None =>
              msgOp W msg OpAck;;
              mret tt
          end
      end
  end.

Definition ConsumeSequences (c : Client) (handler : SequenceHandler)
           (deliveries : list Msg) (inflight : option (Msg * nat))
  : M (option error) :=
  Consume c (wrappedCB c handler) deliveries inflight.

End Sequences.

(** *** Results *)

(** Modelled from the spec: the struct [ResultMsg] is declared in a file
    that is not among the sources; its fields are those of the result
    message of the data model (started_at, finished_at, status, error,
    response). *)
Record ResultMsg : Type := {
  StartedAt : Time;
  FinishedAt : Time;
  Status : string;
  Error_ : option error;
  Response : option bytes;
}.

(** [PublishResult]: json encodes a [ResultMsg] and publishes it.
    [json_Marshal] is [json.Marshal] at the type [ResultMsg]. *)
Definition PublishResult (json_Marshal : ResultMsg -> result bytes)
           (c : Client) (result : ResultMsg) (subjTokens : list string)
  : M (option error * bool) :=
  match json_Marshal result with
  | Err err => mret (Some err, false)
  | Ok resultBytes =>
      '(_, err, sent) ← Publish c resultBytes subjTokens;
      mret (err, sent)
  end.

(** Modelled from the spec: [DoubleAck] is declared in a file that is not
    among the sources; it is the positive acknowledgement that the broker
    confirms (request-reply style). *)
Definition DoubleAck (W : World) (msg : Msg) : M (option error) :=
  msgOp W msg OpDoubleAck.

(** *** Construction of the replay client *)

Definition Close (c : Client) : M unit := emit EvDrain.

Definition connectOptions : list ConnOption :=
  [RetryOnFailedConnect true; MaxReconnects 5; ReconnectWait Second].

Section Replay.

Variable W : World.

Definition initReplayConsumer (c : Client) (accountId sequenceId : string)
  : M (Client * option error) :=
  (* Get the source message from the stream *)
  stream ← call (EvStream accountId)
                (fun tr => js_Stream (JetStream c) tr accountId);
  match stream with
  | Err err => mret (c, Some err)
  | Ok stream =>
      (* Get the source message to be replayed from the stream *)
      let sourceMsgSubject := SourceEventSubject accountId sequenceId in
      '(rawMsg, err) ← call (EvGetLastMsgForSubject sourceMsgSubject)
                            (fun tr => GetLastMsgForSubject stream tr sourceMsgSubject);
      match err, rawMsg with
      | Some err, _ =>
          mret (c, Some (fmt_Errorf_w "Failed to fetch source event: " err))
      | None, None =>
          mret (c, Some (errorString
                  ("No source event found for subject '" +:+ sourceMsgSubject +:+ "'")))
      | None, Some rawMsg =>
          (* Create a new, random replay sequence ID *)
          u ← uuid_NewString W;
          let replaySequenceId := "replay-" +:+ substring 0 20 u in
          (* Create ephemeral consumer filtered by replayed sequence ID *)
          let consumerCfg :=
            {| cc_Name := replaySequenceId;
               cc_Durable := "";
               cc_Description :=
                 "Replay request for sequence: '" +:+ sequenceId +:+ "'";
               cc_FilterSubject := ReplayFilterSubject accountId replaySequenceId;
               cc_DeliverPolicy := DeliverAllPolicy;
               cc_AckWait := 0%Z |} in
          consumer ← call (EvCreateConsumer accountId consumerCfg)
                          (fun tr => js_CreateConsumer (JetStream c) tr accountId consumerCfg);
          match consumer with
          | Err err => mret (c, Some err)
          | Ok consumer =>
              (* Publish the source message with replayed sequence ID so
                 it's picked up by ephemeral consumer *)
              Publish c (raw_Data rawMsg) [ChannelNotify; replaySequenceId; "event"];;
              (* Set the consumer on the client *)
              mret ({| NatsConn := NatsConn c;
                       JetStream := JetStream c;
                       Consumer := Some consumer;
                       accountId := nats.accountId c |}, None)
          end
      end
  end.

(** [NewReplayClient]: [initNatsConnection], [initJetStream] and
    [initReplayConsumer] in turn; the deferred [Close] runs when a step
    after the connection fails. *)
Definition NewReplayClient (natsUrl accountId sequenceId : string)
  : M (option Client * option error) :=
  nc ← call (EvConnect natsUrl connectOptions)
            (fun tr => nats_Connect W tr natsUrl connectOptions);
  match nc with
  | Err err => mret (None, Some err)
  | Ok nc =>
      js ← call EvJetStreamNew (jetstream_New nc);
      match js with
      | Err err => emit EvDrain;; mret (None, Some err)
      | Ok js =>
          let natsClient :=
            {| NatsConn := nc; JetStream := js; Consumer := None;
               accountId := accountId |} in
          '(natsClient, err) ← initReplayConsumer natsClient accountId sequenceId;
          match err with
          | Some err => Close natsClient;; mret (None, Some err)
          | None => mret (Some natsClient, None)
          end
      end
  end.

End Replay.

End nats.

(** The world's choices that leave no mark on the trace (the order in
    which the Go scheduler runs goroutines, the case a [select] takes). *)
Definition choose {A} (choice : Trace -> A) : M A :=
  fun tr => (Ret (choice tr), tr).

(** ** Package [dsl]: what the runner sees of the rule evaluator *)

Module dsl.

Record CallAST : Type := {
  call_TaskType : string;
  call_Name : string;
  call_Slug : string;
  call_IfClause : bool;
  call_Inputs : bytes;
}.

Record OnAST : Type := {
  on_EventType : string;
  on_Name : string;
  on_Slug : string;
  on_IfClause : bool;
  on_Calls : list CallAST;
}.

Record HopAST : Type := {
  Ons : list OnAST;
}.

End dsl.

(** An [hcl.Body], identified by the contents of the files it was parsed
    and merged from. *)
Record hcl_Body : Type := {
  body_files : list bytes;
}.

(** ** Package [internal/runner]: the sequence runner *)

Module runner.

Import dsl.

(** The interface [NatsClient]. *)
Record NatsClient : Type := {
  Publish : bytes -> list string -> M (option PubAck * option error * bool);
  ConsumeSequences :
    nats.SequenceHandler -> list Msg -> option (Msg * nat) -> M (option error);
}.

(** [*nats.Client] implements [NatsClient]. *)
Definition Client_NatsClient (W : nats.World) (Parse : Msg -> result nats.MsgMeta)
           (c : nats.Client) : NatsClient :=
  {| Publish := nats.Publish c;
     ConsumeSequences := nats.ConsumeSequences W Parse c |}.

Record Runner : Type := {
  hops : hcl_Body;
  natsClient : NatsClient;
}.

Definition NewRunner (natsClient : NatsClient) (hops : hcl_Body)
  : Runner * option error :=
  ({| hops := hops; natsClient := natsClient |}, None).

Definition sequenceHops (r : Runner) (msgBundle : nats.MessageBundle)
  : hcl_Body * option error :=
  match msgBundle !! "hops" with
  | None => (hops r, None)
  | Some _ => (hops r, None)
  end.

(** [dispatchCall] up to its send on [errorchan]: the value it sends. *)
Definition dispatchCall (r : Runner) (call : CallAST) (sequenceId : string)
  : M (option error) :=
  let '(app, handler, found) := strings_Cut (call_TaskType call) "_" in
  if negb found
  then mret (Some (errorString
               ("Unable to parse app/handler from call " +:+ call_Name call)))
  else
    '(_, err, _) ← Publish (natsClient r) (call_Inputs call)
                     [nats.ChannelRequest; sequenceId; call_Slug call; app; handler];
    (* At the time of writing, the go client does not contain an error
       matching the 'maximum massages per subject exceeded' error.
       We match on the code here instead *)
    match err with
    | Some e =>
        if negb (strings_Contains (Error e) "err_code=10077")
        then mret (Some e)
        else mret None
    | None =>
        Infof ("Dispatched call: " +:+ call_Slug call);;
        mret None
    end.

(** The stage a goroutine of [dispatchCalls] is at: it runs [dispatchCall]
    up to the send, then sends on [errorchan], and is done ([wg.Done])
    having sent. *)
Inductive stage : Type :=
| Running
| Sending (err : option error)
| Finished (sent : option error).

(** A goroutine [go r.dispatchCall(ctx, &wg, call, ...)]: the call it was
    started with, and its stage. *)
Record goroutine : Type := {
  g_call : CallAST;
  g_stage : stage;
}.

(** The goroutines of one [On] and the buffered channel [errorchan]
    (capacity: the number of calls, so that no send blocks). *)
Record tasks : Type := {
  goroutines : list goroutine;
  errorchan : list (option error);
}.

Section Dispatch.

(** The order in which the Go scheduler lets the goroutines of one [On]
    take their steps (indices into the calls of the [On]). *)
Variable scheduler : Trace -> list nat.

(** The rule evaluator [dsl.ParseHops]. *)
Variable ParseHops : hcl_Body -> nats.MessageBundle -> result HopAST.

(** Goroutine [i] takes its next step. *)
Definition step (r : Runner) (sequenceId : string) (i : nat) (t : tasks)
  : M tasks :=
  match goroutines t !! i with
  | Some {| g_call := call; g_stage := Running |} =>
      err ← dispatchCall r call sequenceId;
      mret {| goroutines :=
                <[i := {| g_call := call; g_stage := Sending err |}]> (goroutines t);
              errorchan := errorchan t |}
  | Some {| g_call := call; g_stage := Sending err |} =>
      mret {| goroutines :=
                <[i := {| g_call := call; g_stage := Finished err |}]> (goroutines t);
              errorchan := errorchan t ++ [err] |}
  | _ => mret t
  end.

Fixpoint run (r : Runner) (sequenceId : string) (sched : list nat) (t : tasks)
  : M tasks :=
  match sched with
  | [] => mret t
  | i :: sched' => t' ← step r sequenceId i t; run r sequenceId sched' t'
  end.

(** [for err := range errorchan { errs = errors.Join(errs, err) }] *)
Definition joinAll (errorchan : list (option error)) : option error :=
  foldl (fun errs err => errors_Join [errs; err]) None errorchan.

(** [dispatchCalls]: the goroutines take their steps in the order the
    scheduler chooses; [wg.Wait] returns when each of them has taken its
    (at most two) steps, so whatever the scheduler left undone is run
    to the end before the channel is closed and read. *)
Definition dispatchCalls (r : Runner) (sensor : OnAST) (sequenceId : string)
  : M (option error) :=
  Infof "Running on calls";;
  let numTasks := length (on_Calls sensor) in
  sched ← choose scheduler;
  t ← run r sequenceId (sched ++ seq 0 numTasks ++ seq 0 numTasks)
        {| goroutines :=
             (fun call => {| g_call := call; g_stage := Running |}) <$> on_Calls sensor;
           errorchan := [] |};
  mret (joinAll (errorchan t)).

(** The loop of [SequenceCallback] over [hop.Ons]. *)
Fixpoint dispatchOns (r : Runner) (sequenceId : string) (ons : list OnAST)
         (sensorErrors : option error) : M (option error) :=
  match ons with
  | [] => mret sensorErrors
  | sensor :: ons' =>
      err ← dispatchCalls r sensor sequenceId;
      match err with
      | Some err =>
          dispatchOns r sequenceId ons' (Some (multierror_Append sensorErrors err))
      | None => dispatchOns r sequenceId ons' sensorErrors
      end
  end.

Definition SequenceCallback (r : Runner) (sequenceId : string)
           (msgBundle : nats.MessageBundle) : M (option error) :=
  let '(hops, err) := sequenceHops r msgBundle in
  match err with
  | Some err => mret (Some err)
  | None =>
      match ParseHops hops msgBundle with
      | Err err => mret (Some err)
      | Ok hop =>
          Debugf "Successfully parsed hops file";;
          dispatchOns r sequenceId (Ons hop) None
      end
  end.

Definition Run (r : Runner) (deliveries : list Msg)
           (inflight : option (Msg * nat)) : M (option error) :=
  ConsumeSequences (natsClient r) (SequenceCallback r) deliveries inflight.

End Dispatch.

End runner.

(** ** Package [worker]: the worker loop *)

Module worker.

(** The type [Handler]: what the handler returns for a message.  (What a
    handler does besides is the app's business and leaves no mark here.) *)
Definition Handler : Type := Trace -> Msg -> option error.

Record App : Type := {
  Handlers : gmap string Handler;
}.

Record Worker : Type := {
  app : App;
  natsClient : nats.Client;
  handlers : gmap string Handler;
}.

Definition NewWorker (natsClient : nats.Client) (app : App) : Worker :=
  {| app := app; natsClient := natsClient; handlers := Handlers app |}.

(** The case a [select] of [runHandler] takes: the ticker's channel, or
    the channel on which the handler's goroutine reports ([doneChan] when
    the handler returned nil, [errChan] when it returned an error). *)
Inductive SelectCase : Type := CaseTicker | CaseHandler.

(** [time.NewTicker] panics for a non-positive period. *)
Definition time_NewTicker (d : Duration) : M unit :=
  if (d <=? 0)%Z
  then panic (errorString "non-positive interval for NewTicker")
  else emit (EvNewTicker d).

Section Worker.

Variable W : nats.World.
Variable Parse : Msg -> result nats.MsgMeta.

(** [MsgMeta.ResponseSubject] is declared in a file that is not among
    the sources. *)
Variable ResponseSubject : nats.MsgMeta -> string.

(** [json.Marshal] at the type [ResultMsg]. *)
Variable json_Marshal : nats.ResultMsg -> result bytes.

(** The cases the successive [select]s of one [runHandler] take, as far
    as the run is observed. *)
Variable selectOrder : Trace -> list SelectCase.

(** The [for]/[select] loop of [runHandler]; [res] is what the handler's
    goroutine reports. *)
Fixpoint supervise (msg : Msg) (res : option error) (cases : list SelectCase)
  : M (option error) :=
  match cases with
  | [] => block
  | CaseTicker :: cases' =>
      (* Periodically extend the ack deadline whilst we work *)
      err ← nats.msgOp W msg OpInProgress;
      match err with
      | Some err => mret (Some err)
      | None => supervise msg res cases'
      end
  | CaseHandler :: _ => mret res
  end.

(** [runHandler] runs a handler whilst automatically extending the ack
    deadline until completion. *)
Definition runHandler (msg : Msg) (handler : Handler) (deadline : Duration)
  : M (option error) :=
  (* We'll extend the deadline when there's a third of the duration left *)
  time_NewTicker (deadline - deadline `quot` 3)%Z;;
  res ← call (EvGoHandler msg) (fun tr => handler tr msg);
  (* Immediately extend redelivery window so we can start from a known
     duration *)
  nats.msgOp W msg OpInProgress;;
  cases ← choose selectOrder;
  err ← supervise msg res cases;
  emit EvTickerStop;;
  mret err.

(** The callback of [Run]. *)
Definition callback (w : Worker) (ackDeadline : Duration) (msg : Msg)
  : M unit :=
  let subject := Subject msg in
  Infof ("Received request " +:+ subject);;
  match Parse msg with
  | Err err =>
      Errf (Some err) ("Unable to handle request message: " +:+ subject);;
      nats.msgOp W msg OpNak;;
      mret tt
  | Ok parsedMsg =>
      now ← call EvNow (nats.time_Now W);
      let result :=
        {| nats.StartedAt := Instant now; nats.FinishedAt := ZeroTime;
           nats.Status := ""; nats.Error_ := None; nats.Response := None |} in
      (* Get the handler function if it exists. Terminate if not as
         there's nothing to be done. *)
      match handlers w !! nats.HandlerName parsedMsg with
      | None =>
          Warnf ("Unknown handler call '" +:+ nats.HandlerName parsedMsg
                   +:+ "' in msg '" +:+ subject +:+ "'");;
          nats.msgOp W msg OpTerm;;
          mret tt
      | Some handler =>
          (* Attempt to run the task's handler, immediately respond with
             failure if not *)
          err ← runHandler msg handler ackDeadline;
          replyErr ←
            match err with
            | Some e =>
                Errf err ("Failed to handle request " +:+ subject);;
                now ← call EvNow (nats.time_Now W);
                let result :=
                  {| nats.StartedAt := nats.StartedAt result;
                     nats.FinishedAt := Instant now;
                     nats.Status := "FAILURE";
                     nats.Error_ := Some e;
                     nats.Response := nats.Response result |} in
                '(err, _) ← nats.PublishResult json_Marshal (natsClient w) result
                               [ResponseSubject parsedMsg];
                mret err
            | None => mret None
            end;
          match replyErr with
          | Some _ =>
              Errf err ("Unable to send reply to request message: " +:+ subject);;
              nats.msgOp W msg OpNak;;
              mret tt
          | None =>
              err ← nats.DoubleAck W msg;
              match err with
              | Some _ =>
                  Errf err ("Unable to acknowledge request message: " +:+ subject)
                  (* TODO: Nack message *)
              | None => mret tt
              end;;
              Debugf ("Request message acknowledged (will not be re-sent) "
                        +:+ subject)
          end
      end
  end.

Definition Run (w : Worker) (deliveries : list Msg)
           (inflight : option (Msg * nat)) : M (option error) :=
  match nats.Consumer (natsClient w) with
  | None => panic nats.nil_dereference
  | Some consumer =>
      (* Get the ack deadline *)
      let ackDeadline := cc_AckWait (nats.CachedInfo_Config consumer) in
      Infof "Listening for requests";;
      (* Blocks until cancelled or errors *)
      nats.Consume (natsClient w) (callback w ackDeadline) deliveries inflight
  end.

End Worker.

End worker.

(** ** Vocabulary of the properties *)

(** The text by which [Publish] recognises the broker's refusal of a
    second message on a subject. *)
Definition fenceText : string := "maximum messages per subject exceeded".

(** The publishes recorded in a trace, oldest first. *)
Definition published (tr : Trace) : list (string * bytes) :=
  omap (fun ev => match ev with EvPublish s d => Some (s, d) | _ => None end) tr.

(** The methods called on message [m], oldest first. *)
Definition msgOps (m : Msg) (tr : Trace) : list MsgOp :=
  omap (fun ev => match ev with
                  | EvMsgOp m' op =>
                      if String.eqb (Subject m') (Subject m)
                         && (StreamSeq m' =? StreamSeq m)%N
                      then Some op else None
                  | _ => None
                  end) tr.

(** The replay sequence id minted when [uuid.NewString] is called at trace
    [tr]. *)
Definition replayId (W : nats.World) (tr : Trace) : string :=
  "replay-" +:+ substring 0 20 (nats.uuid_String (nats.uuid_random W tr)).

(** The configuration of a replay consumer: named after the replay
    sequence id, not durable, filtered on the notify subjects of the
    replay sequence, delivering all. *)
Definition replayConfig (acct sequenceId id : string) : ConsumerConfig :=
  {| cc_Name := id;
     cc_Durable := "";
     cc_Description := "Replay request for sequence: '" +:+ sequenceId +:+ "'";
     cc_FilterSubject := acct +:+ ".notify." +:+ id +:+ ".*";
     cc_DeliverPolicy := DeliverAllPolicy;
     cc_AckWait := 0%Z |}.

(** The client once its consumer is set. *)
Definition withConsumer (c : nats.Client) (consumer : nats.jetstream_Consumer)
  : nats.Client :=
  {| nats.NatsConn := nats.NatsConn c;
     nats.JetStream := nats.JetStream c;
     nats.Consumer := Some consumer;
     nats.accountId := nats.accountId c |}.

(** The request a call asks for, subject and payload: none when its task
    type has no ["_"]. *)
Definition requestOf (acct sequenceId : string) (call : dsl.CallAST)
  : option (string * bytes) :=
  let '(app, handler, found) := strings_Cut (dsl.call_TaskType call) "_" in
  if found
  then Some (acct +:+ ".request." +:+ sequenceId +:+ "." +:+ dsl.call_Slug call
               +:+ "." +:+ app +:+ "." +:+ handler,
             dsl.call_Inputs call)
  else None.

Definition requestsOf (acct sequenceId : string) (calls : list dsl.CallAST)
  : list (string * bytes) :=
  omap (requestOf acct sequenceId) calls.

(** The error of a call whose task type has no ["_"]. *)
Definition DispatchParseError (call : dsl.CallAST) : error :=
  errorString ("Unable to parse app/handler from call " +:+ dsl.call_Name call).

(** What a goroutine has put on [errorchan]. *)
Definition sent (g : runner.goroutine) : option (option error) :=
  match runner.g_stage g with
  | runner.Finished err => Some err
  | _ => None
  end.

(** The request a goroutine has made of the broker. *)
Definition asked (acct sequenceId : string) (g : runner.goroutine)
  : option (string * bytes) :=
  match runner.g_stage g with
  | runner.Running => None
  | _ => requestOf acct sequenceId (runner.g_call g)
  end.

(** How far a goroutine has come. *)
Definition rank (g : runner.goroutine) : nat :=
  match runner.g_stage g with
  | runner.Running => 0
  | runner.Sending _ => 1
  | runner.Finished _ => 2
  end.

Definition rankAt (t : runner.tasks) (i : nat) : nat :=
  match runner.goroutines t !! i with
  | Some g => rank g
  | None => 2
  end.

(** [err] is what [dispatchCall] returned for [call] at some point of the
    run that led from trace [tr0] to trace [tr]. *)
Definition dispatchedIn (r : runner.Runner) (sequenceId : string)
           (tr0 tr : Trace) (call : dsl.CallAST) (err : option error) : Prop :=
  exists pt,
    tr0 `prefix_of` pt
    /\ (runner.dispatchCall r call sequenceId pt).1 = Ret err
    /\ (runner.dispatchCall r call sequenceId pt).2 `prefix_of` tr.

(** What a goroutine past its first stage holds is what [dispatchCall]
    returned for its call. *)
Definition ranIn (r : runner.Runner) (sequenceId : string)
           (tr0 tr : Trace) (g : runner.goroutine) : Prop :=
  match runner.g_stage g with
  | runner.Running => True
  | runner.Sending err | runner.Finished err =>
      dispatchedIn r sequenceId tr0 tr (runner.g_call g) err
  end.

(** The invariant of the goroutines of one [On], started at trace [tr0]
    for the calls [calls], at trace [tr]. *)
Record dispatchInv (r : runner.Runner) (acct sequenceId : string)
       (calls : list dsl.CallAST) (tr0 : Trace)
       (t : runner.tasks) (tr : Trace) : Prop := {
  inv_calls : runner.g_call <$> runner.goroutines t = calls;
  inv_chan : runner.errorchan t ≡ₚ omap sent (runner.goroutines t);
  inv_published :
    published tr ≡ₚ published tr0 ++ omap (asked acct sequenceId) (runner.goroutines t);
  inv_ran : Forall (ranIn r sequenceId tr0 tr) (runner.goroutines t);
  inv_prefix : tr0 `prefix_of` tr;
}.

(** The body an [hops] entry of a bundle would be parsed to. *)
Definition bodyOf (entry : bytes) : hcl_Body :=
  {| body_files := [entry] |}.

(** The aggregation of the errors of the [On] blocks by
    [multierror.Append], from [acc]. *)
Definition appendAll (acc : option error) (perOn : list (option error))
  : option error :=
  foldl (fun acc err => match err with
                        | Some err => Some (multierror_Append acc err)
                        | None => acc
                        end) acc perOn.

(** The broker's answer to a publish lets the call succeed: no error, or
    the refusal of a second message on the subject (recognised by
    [Publish] from its text, by the runner from its code). *)
Definition accepted (answer : option PubAck * option error) : Prop :=
  match answer.2 with
  | None => True
  | Some e =>
      strings_Contains (Error e) fenceText = true
      \/ strings_Contains (Error e) "err_code=10077" = true
  end.

(** [e] holds [e']: [e'] is [e] itself, or an error that [e] wraps, at
    any depth (the tree that [errors.Is] walks). *)
Inductive wraps : error -> error -> Prop :=
| wraps_self (e : error) : wraps e e
| wraps_wrapError (msg : string) (e e' : error) :
    wraps e e' -> wraps (wrapError msg e) e'
| wraps_joinError (es : list error) (e e' : error) :
    e ∈ es -> wraps e e' -> wraps (joinError es) e'
| wraps_multiError (es : list error) (e e' : error) :
    e ∈ es -> wraps e e' -> wraps (multiError es) e'.

(** The errors [errs] of the calls of one block joined to [e]: nil when
    every one of them is nil; otherwise one error whose text lists the
    texts of the non-nil ones, one on a line, in the order given, and
    which holds each of them. *)
Definition joined (errs : list (option error)) (e : option error) : Prop :=
  match omap id errs with
  | [] => e = None
  | es =>
      exists err,
        e = Some err
        /\ Error err = strings_Join (Error <$> es) newline
        /\ Forall (wraps err) es
  end.

(** The errors [perOn] of the blocks aggregated to [res]: nil when every
    one of them is nil; otherwise the multierror of the non-nil ones, in
    the order of the blocks. *)
Definition aggregated (perOn : list (option error)) (res : option error) : Prop :=
  match omap id perOn with
  | [] => res = None
  | es => res = Some (multiError es)
  end.

(** The result [err] of [call] after the broker's answer to its request,
    made at trace [pt]: the error of a task type without ["_"], which
    asks nothing of the broker; nil when the broker took the request or
    refused it as a second message on its subject; the broker's error
    otherwise. *)
Definition answered (c : nats.Client) (sequenceId : string) (pt : Trace)
           (call : dsl.CallAST) (err : option error) : Prop :=
  match requestOf (nats.accountId c) sequenceId call with
  | None => err = Some (DispatchParseError call)
  | Some (subject, inputs) =>
      match (nats.js_Publish (nats.JetStream c) pt subject inputs).2 with
      | None => err = None
      | Some e =>
          if strings_Contains (Error e) fenceText
             || strings_Contains (Error e) "err_code=10077"
          then err = None
          else err = Some e
      end
  end.

(** [k] in-progress signals on message [m]. *)
Definition ticks (m : Msg) (k : nat) : Trace :=
  replicate k (EvMsgOp m OpInProgress).

(** In [block] the broker is told of the message [m] only.  (Messages
    are told apart by subject and stream sequence.) *)
Definition ownOnly (m : Msg) (block : Trace) : Prop :=
  forall m', (Subject m, StreamSeq m) <> (Subject m', StreamSeq m') ->
             msgOps m' block = [].

(** The methods called on [m] in [block] are any number of deadline
    extensions, followed by [fin]. *)
Definition extendedThen (m : Msg) (block : Trace) (fin : list MsgOp) : Prop :=
  exists k, msgOps m block = replicate k OpInProgress ++ fin.

Section History.

Variable Parse : Msg -> result nats.MsgMeta.

Definition parses (m : Msg) : Prop :=
  exists meta, Parse m = Ok meta.

(** Stream sequence and message id of a delivered message, as parsed. *)
Definition streamSeq (m : Msg) : N :=
  match Parse m with Ok meta => nats.StreamSequence meta | Err _ => 0%N end.

Definition messageId (m : Msg) : string :=
  match Parse m with Ok meta => nats.MessageId meta | Err _ => "" end.

(** The bundle of a list of messages: message id to data, a later
    message replacing an earlier one of the same id. *)
Definition insertMsg (b : nats.MessageBundle) (m : Msg) : nats.MessageBundle :=
  <[messageId m := Data m]> b.

Definition bundleOf (ms : list Msg) : nats.MessageBundle :=
  foldl insertMsg ∅ ms.

(** The messages whose stream sequence is at most [n]. *)
Definition upTo (n : N) (ms : list Msg) : list Msg :=
  List.filter (fun m => (streamSeq m <=? n)%N) ms.

(** An ordered consumer delivers in increasing stream sequence. *)
Definition inStreamOrder (ms : list Msg) : Prop :=
  StronglySorted (fun a b => (streamSeq a < streamSeq b)%N) ms.

(** The error of [FetchMessageBundle] when the read passes the
    triggering message. *)
Definition BundleOverrun (n : N) : error :=
  errorString ("Unable to find original message with NATS sequence of: "
                 +:+ pretty n).

End History.

(** ** A concrete deployment

    An account ["acct"] on a broker that holds a few messages and refuses
    a second publish on a subject; it serves to run the definitions. *)

Module demo.

(** [strings.Split] on a one-byte separator. *)
Fixpoint split (sep : ascii) (s : string) : list string :=
  match s with
  | EmptyString => [""]
  | String a s' =>
      if Ascii.eqb a sep then "" :: split sep s'
      else match split sep s' with
           | [] => [String a ""]
           | t :: ts => String a t :: ts
           end
  end.

(** Modelled from the spec: [Parse] is declared in a file that is not
    among the sources.  The subject has the form
    [{account}.notify.{sequence_id}.{message_id}] or
    [{account}.request.{sequence_id}.{call_slug}.{app}.{handler}]; a
    subject with an unrecognised channel or too few tokens is an invalid
    message. *)
Definition Parse (m : Msg) : result nats.MsgMeta :=
  match split "." (Subject m) with
  | [account; channel; sequenceId; messageId] =>
      if String.eqb channel nats.ChannelNotify
      then Ok {| nats.AccountId := account; nats.Channel := channel;
                 nats.SequenceId := sequenceId; nats.MessageId := messageId;
                 nats.AppName := ""; nats.HandlerName := "";
                 nats.StreamSequence := StreamSeq m |}
      else Err (errorString ("Invalid message subject: " +:+ Subject m))
  | [account; channel; sequenceId; messageId; appName; handlerName] =>
      if String.eqb channel nats.ChannelRequest
      then Ok {| nats.AccountId := account; nats.Channel := channel;
                 nats.SequenceId := sequenceId; nats.MessageId := messageId;
                 nats.AppName := appName; nats.HandlerName := handlerName;
                 nats.StreamSequence := StreamSeq m |}
      else Err (errorString ("Invalid message subject: " +:+ Subject m))
  | _ => Err (errorString ("Invalid message subject: " +:+ Subject m))
  end.

(** A subject filter matches token by token; [*] matches any token. *)
Fixpoint tokensMatch (filter subject : list string) : bool :=
  match filter, subject with
  | [], [] => true
  | f :: fs, t :: ts => (String.eqb f "*" || String.eqb f t) && tokensMatch fs ts
  | _, _ => false
  end.

Definition subjectMatches (filter subject : string) : bool :=
  tokensMatch (split "." filter) (split "." subject).

Definition msg (subject data : string) (seq : N) : Msg :=
  {| Subject := subject; Data := list_byte_of_string data; StreamSeq := seq |}.

(** The messages the stream holds. *)
Definition stored : list Msg :=
  [ msg "acct.notify.SEQ.event" "{}" 1;
    msg "acct.notify.SEQ.step1" "one" 2;
    msg "acct.notify.OTHER.event" "other" 3;
    msg "acct.notify.SEQ.step2" "two" 4;
    msg "acct.notify.SEQ.step3" "three" 5 ].

(** The messages of the sequence [SEQ], as an ordered consumer delivers
    them. *)
Definition history : list Msg :=
  [ msg "acct.notify.SEQ.event" "{}" 1;
    msg "acct.notify.SEQ.step1" "one" 2;
    msg "acct.notify.SEQ.step2" "two" 4;
    msg "acct.notify.SEQ.step3" "three" 5 ].

Definition notifyMeta (sequenceId messageId : string) (seq : N) : nats.MsgMeta :=
  {| nats.AccountId := "acct"; nats.Channel := "notify";
     nats.SequenceId := sequenceId; nats.MessageId := messageId;
     nats.AppName := ""; nats.HandlerName := "";
     nats.StreamSequence := seq |}.

Definition fenceError : error :=
  errorString
    "nats: API error: code=400 err_code=10077 description=maximum messages per subject exceeded".

Definition lastFor (subject : string) (ms : list Msg) : option RawStreamMsg :=
  (fun m => {| raw_Subject := Subject m; raw_Sequence := StreamSeq m;
               raw_Data := Data m |})
    <$> last (List.filter (fun m => String.eqb (Subject m) subject) ms).

(** The broker: a publish on a subject that a stored message or an earlier
    publish has taken is refused; [publishError] makes every other publish
    fail, [orderedError] every ordered consumer. *)
Definition js (publishError orderedError : option error) : nats.jetstream_JetStream :=
  {| nats.js_Publish := fun tr subject data =>
       if bool_decide (subject ∈ (Subject <$> stored) ++ (published tr).*1)
       then (None, Some fenceError)
       else match publishError with
            | Some e => (None, Some e)
            | None =>
                (Some {| ack_Stream := "acct";
                         ack_Sequence := N.of_nat (length stored + length (published tr) + 1) |},
                 None)
            end;
     nats.js_OrderedConsumer := fun tr stream cfg =>
       match orderedError with
       | Some e => Err e
       | None =>
           Ok {| nats.Messages :=
                   Ok (Ok <$> List.filter
                         (fun m => existsb (fun f => subjectMatches f (Subject m))
                                           (oc_FilterSubjects cfg))
                         stored) |}
       end;
     nats.js_Stream := fun tr stream =>
       Ok {| nats.GetLastMsgForSubject := fun tr subject =>
               match lastFor subject stored with
               | Some raw => (Some raw, None)
               | None => (None, Some (errorString "nats: message not found"))
               end |};
     nats.js_CreateConsumer := fun tr stream cfg =>
       Ok {| nats.CachedInfo_Config := cfg; nats.Consume_err := fun _ => None |} |}.

Definition conn (publishError orderedError : option error) : nats.Conn :=
  {| nats.jetstream_New := fun _ => Ok (js publishError orderedError) |}.

(** The rest of the world: the connection succeeds, the broker accepts
    every acknowledgement unless [ackError] says otherwise, the clock
    counts the events so far. *)
Definition world (publishError orderedError : option error)
           (ackError : Trace -> Msg -> MsgOp -> option error) : nats.World :=
  {| nats.nats_Connect := fun _ _ _ => Ok (conn publishError orderedError);
     nats.msg_reply := ackError;
     nats.time_Now := fun tr => Z.of_nat (length tr);
     nats.uuid_random := fun _ => 24197857203266734864793317670504947440%N |}.

Definition noAckError : Trace -> Msg -> MsgOp -> option error :=
  fun _ _ _ => None.

Definition workerConfig : ConsumerConfig :=
  {| cc_Name := "acct-request-github"; cc_Durable := "acct-request-github";
     cc_Description := ""; cc_FilterSubject := "acct.request.*.*.github.*";
     cc_DeliverPolicy := DeliverAllPolicy; cc_AckWait := Minute |}.

Definition client (publishError orderedError : option error) : nats.Client :=
  {| nats.NatsConn := conn publishError orderedError;
     nats.JetStream := js publishError orderedError;
     nats.Consumer :=
       Some {| nats.CachedInfo_Config := workerConfig;
               nats.Consume_err := fun _ => None |};
     nats.accountId := "acct" |}.

(** A sequence handler that records its call and succeeds. *)
Definition sequenceHandler : nats.SequenceHandler :=
  fun sequenceId bundle => call (EvSequenceCallback sequenceId bundle) (fun _ => None).

(** A broker that fails to confirm a double ack. *)
Definition doubleAckError : Trace -> Msg -> MsgOp -> option error :=
  fun _ _ op =>
    match op with
    | OpDoubleAck => Some (errorString "nats: timeout")
    | _ => None
    end.

(** A broker that accepts the first [k] in-progress signals of a trace and
    fails the next. *)
Definition inProgressError (k : nat) : Trace -> Msg -> MsgOp -> option error :=
  fun tr m op =>
    match op with
    | OpInProgress =>
        if (k <? length (msgOps m tr))%nat
        then Some (errorString "nats: connection closed") else None
    | _ => None
    end.

(** A stand-in for [encoding/json] that keeps status and error text. *)
Definition json_Marshal (r : nats.ResultMsg) : result bytes :=
  let q := String (ascii_of_nat 34) "" in
  Ok (list_byte_of_string
        ("{" +:+ q +:+ "status" +:+ q +:+ ":" +:+ q +:+ nats.Status r +:+ q +:+ ","
           +:+ q +:+ "error" +:+ q +:+ ":" +:+ q
           +:+ match nats.Error_ r with Some e => Error e | None => "" end
           +:+ q +:+ "}")).

(** The results of a request go to the notify subject of its sequence,
    under the id of the request. *)
Definition ResponseSubject (m : nats.MsgMeta) : string :=
  strings_Join [nats.AccountId m; nats.ChannelNotify; nats.SequenceId m;
                nats.MessageId m] ".".

(** The app [github]: [tag] succeeds, [release] fails. *)
Definition github : worker.App :=
  {| worker.Handlers :=
       {[ "tag" := (fun _ _ => None) : worker.Handler;
          "release" := (fun _ _ => Some (errorString "boom")) : worker.Handler ]} |}.

Definition request (handler : string) : Msg :=
  msg ("acct.request.SEQ.c1.github." +:+ handler) "{}" 7.

(** Two ticks of the ticker, then the handler's report. *)
Definition selectOrder : Trace -> list worker.SelectCase :=
  fun _ => [worker.CaseTicker; worker.CaseTicker; worker.CaseHandler].

(** A rule set that matched two [On] blocks: the first with a call to
    [github_tag], a call whose task type lacks the separator, and a call
    to [slack_post_message]; the second with one call. *)
Definition mkCall (taskType name slug inputs : string) : dsl.CallAST :=
  {| dsl.call_TaskType := taskType; dsl.call_Name := name; dsl.call_Slug := slug;
     dsl.call_IfClause := true; dsl.call_Inputs := list_byte_of_string inputs |}.

Definition hop : dsl.HopAST :=
  {| dsl.Ons :=
       [ {| dsl.on_EventType := "push"; dsl.on_Name := "push0";
            dsl.on_Slug := "push0"; dsl.on_IfClause := true;
            dsl.on_Calls :=
              [ mkCall "github_tag" "github_tag0" "push0-github_tag0" "one";
                mkCall "deploy" "deploy1" "push0-deploy1" "two";
                mkCall "slack_post_message" "slack2" "push0-slack2" "three" ] |};
         {| dsl.on_EventType := "push"; dsl.on_Name := "push1";
            dsl.on_Slug := "push1"; dsl.on_IfClause := true;
            dsl.on_Calls :=
              [ mkCall "github_release" "github_release0" "push1-github_release0" "four" ] |} ] |}.

Definition rules : hcl_Body :=
  {| body_files := [list_byte_of_string "on push {...} on push {...}"] |}.

(** The evaluator: [rules] match as [hop] whatever the bundle; no other
    body is known. *)
Definition ParseHops (body : hcl_Body) (bundle : nats.MessageBundle)
  : result dsl.HopAST :=
  match body_files body with
  | [_] => Ok hop
  | _ => Err (errorString "At least one resource must be defined")
  end.

(** A scheduler that starts with the last goroutines. *)
Definition scheduler : Trace -> list nat :=
  fun _ => [2; 0; 2; 1]%nat.

Definition theRunner : runner.Runner :=
  {| runner.hops := rules;
     runner.natsClient :=
       runner.Client_NatsClient (world None None noAckError) Parse (client None None) |}.

End demo.

(** ** Package [nats]: the clients of the notify and the worker role *)

Module client.

(** Modelled from the spec: [WorkerRequestSubject] is declared in a file
    that is not among the sources; with ["*"] for the handler it is the
    worker listen filter [{account}.request.*.*.{app}.*] of the subject
    codec. *)
Definition WorkerRequestSubject (accountId appName handler : string) : string :=
  strings_Join [accountId; nats.ChannelRequest; "*"; "*"; appName; handler] ".".

Section Roles.

Variable W : nats.World.

(** The two methods of [jetstream.JetStream] that only these roles use:
    [Consumer], which looks up an existing consumer of a stream by name,
    and [CreateOrUpdateConsumer].  Their answers are the world's; the
    calls themselves are not recorded. *)
Variable js_Consumer :
  nats.jetstream_JetStream -> Trace -> string -> string -> result nats.jetstream_Consumer.
Variable js_CreateOrUpdateConsumer :
  nats.jetstream_JetStream -> Trace -> string -> ConsumerConfig
  -> result nats.jetstream_Consumer.

Definition initConsumer (c : nats.Client) (accountId : string)
  : M (nats.Client * option error) :=
  let consumerName := accountId +:+ "-" +:+ nats.ChannelNotify in
  consumer ← choose (fun tr => js_Consumer (nats.JetStream c) tr accountId consumerName);
  match consumer with
  | Err err => mret (c, Some err)
  | Ok consumer =>
      mret ({| nats.NatsConn := nats.NatsConn c;
               nats.JetStream := nats.JetStream c;
               nats.Consumer := Some consumer;
               nats.accountId := nats.accountId c |}, None)
  end.

Definition initWorkerConsumer (c : nats.Client) (accountId appName : string)
  : M (nats.Client * option error) :=
  let name := accountId +:+ "-" +:+ nats.ChannelRequest +:+ "-" +:+ appName in
  (* Create or update the consumer, since these are created dynamically *)
  let consumerCfg :=
    {| cc_Name := name;
       cc_Durable := name;
       cc_Description := "";
       cc_FilterSubject := WorkerRequestSubject accountId appName "*";
       cc_DeliverPolicy := DeliverAllPolicy;
       cc_AckWait := (1 * Minute)%Z |} in
  consumer ← choose (fun tr => js_CreateOrUpdateConsumer (nats.JetStream c) tr
                                 accountId consumerCfg);
  match consumer with
  | Err err => mret (c, Some err)
  | Ok consumer =>
      mret ({| nats.NatsConn := nats.NatsConn c;
               nats.JetStream := nats.JetStream c;
               nats.Consumer := Some consumer;
               nats.accountId := nats.accountId c |}, None)
  end.

(** [NewClient] returns a client with an account prefixed consumer on the
    [notify] subject. *)
Definition NewClient (natsUrl accountId : string)
  : M (option nats.Client * option error) :=
  nc ← call (EvConnect natsUrl nats.connectOptions)
            (fun tr => nats.nats_Connect W tr natsUrl nats.connectOptions);
  match nc with
  | Err err => mret (None, Some err)
  | Ok nc =>
      js ← call EvJetStreamNew (nats.jetstream_New nc);
      match js with
      | Err err => emit EvDrain;; mret (None, Some err)
      | Ok js =>
          let natsClient :=
            {| nats.NatsConn := nc; nats.JetStream := js; nats.Consumer := None;
               nats.accountId := accountId |} in
          '(natsClient, err) ← initConsumer natsClient accountId;
          match err with
          | Some err => nats.Close natsClient;; mret (None, Some err)
          | None => mret (Some natsClient, None)
          end
      end
  end.

(** [NewWorkerClient] returns a client with a consumer on the
    account.request subject for the app [appName]. *)
Definition NewWorkerClient (natsUrl accountId appName : string)
  : M (option nats.Client * option error) :=
  nc ← call (EvConnect natsUrl nats.connectOptions)
            (fun tr => nats.nats_Connect W tr natsUrl nats.connectOptions);
  match nc with
  | Err err => mret (None, Some err)
  | Ok nc =>
      js ← call EvJetStreamNew (nats.jetstream_New nc);
      match js with
      | Err err => emit EvDrain;; mret (None, Some err)
      | Ok js =>
          let natsClient :=
            {| nats.NatsConn := nc; nats.JetStream := js; nats.Consumer := None;
               nats.accountId := accountId |} in
          '(natsClient, err) ← initWorkerConsumer natsClient accountId appName;
          match err with
          | Some err => nats.Close natsClient;; mret (None, Some err)
          | None => mret (Some natsClient, None)
          end
      end
  end.

End Roles.

End client.

(** The three ways to make a client. *)
Inductive Role : Type :=
| NotifyRole
| ReplayRole (sequenceId : string)
| WorkerRole (appName : string).

Definition construct (W : nats.World)
           (js_Consumer : nats.jetstream_JetStream -> Trace -> string -> string
                          -> result nats.jetstream_Consumer)
           (js_CreateOrUpdateConsumer : nats.jetstream_JetStream -> Trace -> string
                                        -> ConsumerConfig -> result nats.jetstream_Consumer)
           (role : Role) (natsUrl accountId : string)
  : M (option nats.Client * option error) :=
  match role with
  | NotifyRole => client.NewClient W js_Consumer natsUrl accountId
  | ReplayRole sequenceId => nats.NewReplayClient W natsUrl accountId sequenceId
  | WorkerRole appName =>
      client.NewWorkerClient W js_CreateOrUpdateConsumer natsUrl accountId appName
  end.

(** How often a trace drains the connection. *)
Definition drains (tr : Trace) : nat :=
  length (List.filter (fun ev => match ev with EvDrain => true | _ => false end) tr).

(** A broker for the roles: the consumer [acct-notify] exists on the
    stream [acct] and no other does; a consumer is created as asked. *)
Definition demo_Consumer (js : nats.jetstream_JetStream) (tr : Trace)
           (stream name : string) : result nats.jetstream_Consumer :=
  if String.eqb stream "acct" && String.eqb name "acct-notify"
  then Ok {| nats.CachedInfo_Config :=
               {| cc_Name := name; cc_Durable := name; cc_Description := "";
                  cc_FilterSubject := "acct.notify.>";
                  cc_DeliverPolicy := DeliverAllPolicy; cc_AckWait := (30 * Second)%Z |};
             nats.Consume_err := fun _ => None |}
  else Err (errorString "nats: consumer not found").

Definition demo_CreateOrUpdateConsumer (js : nats.jetstream_JetStream) (tr : Trace)
           (stream : string) (cfg : ConsumerConfig) : result nats.jetstream_Consumer :=
  if String.eqb stream "acct"
  then Ok {| nats.CachedInfo_Config := cfg; nats.Consume_err := fun _ => None |}
  else Err (errorString "nats: stream not found").

(** ** Package [dsl]: decoding the rules

    The decoder walks the body of the rule files with the HCL library and
    evaluates the attributes of its [on] and [call] blocks against the
    event bundle.  What the HCL and cty libraries do is taken as given:
    an expression is the function that evaluates it, a body carries the
    content the library finds in it. *)

Module decode.

(** [hcl.Diagnostics], as far as they are errors: the errors, in order. *)
Definition Diagnostics : Type := list error.

Definition HasErrors (d : Diagnostics) : bool :=
  match d with [] => false | _ => true end.

(** [Diagnostics.Error]. *)
Definition diags_Error (d : Diagnostics) : string :=
  match d with
  | [] => "no diagnostics"
  | [e] => Error e
  | e :: rest => Error e +:+ ", and " +:+ pretty (length rest) +:+ " other diagnostic(s)"
  end.

(** [block.Labels[0]]. *)
Definition index0 (labels : list string) : M string :=
  match labels with
  | [] => panic (errorString "runtime error: index out of range [0] with length 0")
  | l :: _ => mret l
  end.

(** [HopAST] with the slug register the decoder keeps in it (the runner
    reads [Ons] only). *)
Record HopAST : Type := {
  Ons : list dsl.OnAST;
  SlugRegister : gmap string bool;
}.

(** [hop.SlugRegister[slug]]: [false] for a slug that is not in the map. *)
Definition registered (hop : HopAST) (slug : string) : bool :=
  default false (SlugRegister hop !! slug).

Definition register (hop : HopAST) (slug : string) : HopAST :=
  {| Ons := Ons hop; SlugRegister := <[slug := true]> (SlugRegister hop) |}.

Section Decode.

(** [cty.Value]. *)
Variable cty_Value : Type.

(** [hcl.EvalContext]: its variables and the context it is a child of.
    (Its functions are [DefaultFunctions] throughout; they are part of
    how an expression evaluates.) *)
Inductive EvalContext : Type :=
| mkEvalContext (Variables : gmap string cty_Value) (parent : option EvalContext).

Definition Variables (ctx : EvalContext) : gmap string cty_Value :=
  match ctx with mkEvalContext vars _ => vars end.

(** [hcl.Attribute]: [attr.Expr.Value(ctx)] (with [None] for a [nil]
    context) and the text of [attr.NameRange]. *)
Record Attribute : Type := {
  Expr_Value : option EvalContext -> cty_Value * Diagnostics;
  NameRange : string;
}.

(** [hcl.Body] and [hcl.Block]: a body carries the result of [Content]
    for the schema it is decoded with (attributes, blocks and
    diagnostics); a block has a type, labels and a body. *)
Inductive Body : Type :=
| mkBody (Attributes : gmap string Attribute) (Blocks : list Block) (diags : Diagnostics)
with Block : Type :=
| mkBlock (Type_ : string) (Labels : list string) (Body_ : Body).

Definition Content (body : Body) : gmap string Attribute * list Block * Diagnostics :=
  match body with mkBody attrs blocks d => (attrs, blocks, d) end.

Definition Type_ (b : Block) : string := match b with mkBlock t _ _ => t end.
Definition Labels (b : Block) : list string := match b with mkBlock _ l _ => l end.
Definition Body_ (b : Block) : Body := match b with mkBlock _ _ body => body end.

(** [Blocks.OfType]. *)
Definition OfType (blocks : list Block) (typeName : string) : list Block :=
  List.filter (fun b => String.eqb (Type_ b) typeName) blocks.

(** The names of the schema ([OnID], [CallID], [NameAttr], [IfAttr]) are
    declared in a file that is not among the sources. *)
Variable OnID CallID NameAttr IfAttr : string.

(** [gocty.FromCtyValue] at the types [string] and [bool]. *)
Variable gocty_string : cty_Value -> result string.
Variable gocty_bool : cty_Value -> result bool.

(** [ctyjson.SimpleJSONValue.MarshalJSON]. *)
Variable ctyjson_Marshal : cty_Value -> result bytes.

(** [Value.AsValueMap]; it panics on a value that has no elements to
    iterate. *)
Variable AsValueMap : cty_Value -> result (gmap string cty_Value).

(** [slug.Make] of the package [gosimple/slug]. *)
Variable slug_Make : string -> string.

(** [ValidateLabels], [parseEventVar] (the type and the action of the
    event in the variables) and [eventBundleToCty] are declared in files
    that are not among the sources. *)
Variable ValidateLabels : list string -> option error.
Variable parseEventVar : gmap string cty_Value -> result (string * string).
Variable eventBundleToCty : gmap string bytes -> string -> result (gmap string cty_Value).

Definition DecodeNameAttr (attr : option Attribute) : result string :=
  match attr with
  | None =>
      (* Not an error, as the attribute is not required *)
      Ok ""
  | Some attr =>
      let '(val, diag) := Expr_Value attr None in
      if HasErrors diag then Err (errorString (diags_Error diag))
      else match gocty_string val with
           | Err err => Err (fmt_Errorf_w (NameRange attr +:+ " ") err)
           | Ok value => Ok value
           end
  end.

Definition DecodeConditionalAttr (attr : option Attribute) (ctx : EvalContext)
  : bool * option error :=
  match attr with
  | None => (true, None)
  | Some attr =>
      let '(v, diag) := Expr_Value attr (Some ctx) in
      if HasErrors diag then (false, Some (errorString (diags_Error diag)))
      else match gocty_bool v with
           | Err err => (false, Some (fmt_Errorf_w (NameRange attr +:+ " ") err))
           | Ok value => (value, None)
           end
  end.

Definition slugify (parts : list string) : string :=
  let joined := strings_Join parts "-" in
  slug_Make joined.

(** [scopedEvalContext] creates eval contexts that are relative to the
    current scope: the loop over the scope path, then the child context. *)
Fixpoint scopedVariables (scopedVars : gmap string cty_Value) (scopePath : list string)
  : M (gmap string cty_Value) :=
  match scopePath with
  | [] => mret scopedVars
  | scopeToken :: scopePath' =>
      match scopedVars !! scopeToken with
      | Some val =>
          match AsValueMap val with
          | Err e => panic e
          | Ok scopedVars' => scopedVariables scopedVars' scopePath'
          end
      | None => scopedVariables scopedVars scopePath'
      end
  end.

Definition scopedEvalContext (evalCtx : EvalContext) (scopePath : list string)
  : M EvalContext :=
  scopedVars ← scopedVariables (Variables evalCtx) scopePath;
  mret (mkEvalContext scopedVars (Some evalCtx)).

Definition DecodeCallBlock (hop : HopAST) (on : dsl.OnAST) (block : Block) (idx : nat)
           (evalctx : EvalContext) : M (HopAST * dsl.OnAST * option error) :=
  let '(attrs, _, d) := Content (Body_ block) in
  if HasErrors d then mret (hop, on, Some (errorString (diags_Error d)))
  else
    taskType ← index0 (Labels block);
    match DecodeNameAttr (attrs !! NameAttr) with
    | Err err => mret (hop, on, Some err)
    | Ok name =>
        let name := if String.eqb name "" then taskType +:+ pretty idx else name in
        let slug := slugify [dsl.on_Slug on; name] in
        match ValidateLabels [taskType; name] with
        | Some err => mret (hop, on, Some err)
        | None =>
            if registered hop slug
            then mret (hop, on, Some (errorString ("Duplicate call block found: " +:+ slug)))
            else
              let hop := register hop slug in
              let finish (ifClause : bool) : M (HopAST * dsl.OnAST * option error) :=
                Infof (slug +:+ " matches event");;
                let append (inputs : bytes) :=
                  (hop,
                   {| dsl.on_EventType := dsl.on_EventType on;
                      dsl.on_Name := dsl.on_Name on;
                      dsl.on_Slug := dsl.on_Slug on;
                      dsl.on_IfClause := dsl.on_IfClause on;
                      dsl.on_Calls :=
                        dsl.on_Calls on
                          ++ [{| dsl.call_TaskType := taskType;
                                 dsl.call_Name := name;
                                 dsl.call_Slug := slug;
                                 dsl.call_IfClause := ifClause;
                                 dsl.call_Inputs := inputs |}] |},
                   @None error) in
                match attrs !! "inputs" with
                | Some inputs =>
                    let '(val, d) := Expr_Value inputs (Some evalctx) in
                    if HasErrors d
                    then mret (hop, on, Some (errorString (diags_Error d)))
                    else match ctyjson_Marshal val with
                         | Err err => mret (hop, on, Some err)
                         | Ok inputs => mret (append inputs)
                         end
                | None => mret (append [])
                end in
              match attrs !! IfAttr with
              | Some ifClause =>
                  let '(val, err) := DecodeConditionalAttr (Some ifClause) evalctx in
                  match err with
                  | Some err =>
                      Debugf (slug +:+ " 'if' not ready for evaluation, defaulting to false: "
                                +:+ Error err)
                  | None => mret tt
                  end;;
                  if negb val
                  then Debugf (slug +:+ " 'if' not met");; mret (hop, on, None)
                  else finish val
              | None => finish true
              end
        end
    end.

(** The loop of [DecodeOnBlock] over the [call] blocks. *)
Fixpoint decodeCalls (hop : HopAST) (on : dsl.OnAST) (callBlocks : list Block) (idx : nat)
         (evalctx : EvalContext) : M (HopAST * dsl.OnAST * option error) :=
  match callBlocks with
  | [] => mret (hop, on, None)
  | callBlock :: callBlocks' =>
      '(hop, on, err) ← DecodeCallBlock hop on callBlock idx evalctx;
      match err with
      | Some err => mret (hop, on, Some err)
      | None => decodeCalls hop on callBlocks' (S idx) evalctx
      end
  end.

Definition DecodeOnBlock (hop : HopAST) (block : Block) (idx : nat)
           (evalctx : EvalContext) : M (HopAST * option error) :=
  let '(attrs, blocks, d) := Content (Body_ block) in
  if HasErrors d then mret (hop, Some (errorString (diags_Error d)))
  else
    eventType_ ← index0 (Labels block);
    match DecodeNameAttr (attrs !! NameAttr) with
    | Err err => mret (hop, Some err)
    | Ok name =>
        (* If no name is given, append stringified index of the block *)
        let name := if String.eqb name "" then eventType_ +:+ pretty idx else name in
        let slug := slugify [name] in
        match ValidateLabels [eventType_; name] with
        | Some err => mret (hop, Some err)
        | None =>
            if registered hop slug
            then mret (hop, Some (errorString ("Duplicate 'on' block found: " +:+ slug)))
            else
              let hop := register hop slug in
              match parseEventVar (Variables evalctx) with
              | Err err => mret (hop, Some err)
              | Ok (eventType, eventAction) =>
                  let '(blockEventType, blockAction, hasAction) :=
                    strings_Cut eventType_ "_" in
                  if negb (String.eqb blockEventType eventType)
                  then Debugf (slug +:+ " does not match event type " +:+ eventType);;
                       mret (hop, None)
                  else if hasAction && negb (String.eqb blockAction eventAction)
                  then Debugf (slug +:+ " does not match event action " +:+ eventAction);;
                       mret (hop, None)
                  else
                    evalctx ← scopedEvalContext evalctx [eventType_; name];
                    let calls (ifClause : bool) : M (HopAST * option error) :=
                      Infof (slug +:+ " matches event");;
                      let callBlocks := OfType blocks CallID in
                      '(hop, on, err) ← decodeCalls hop
                                          {| dsl.on_EventType := eventType_;
                                             dsl.on_Name := name;
                                             dsl.on_Slug := slug;
                                             dsl.on_IfClause := ifClause;
                                             dsl.on_Calls := [] |}
                                          callBlocks 0 evalctx;
                      match err with
                      | Some err => mret (hop, Some err)
                      | None =>
                          mret ({| Ons := Ons hop ++ [on];
                                   SlugRegister := SlugRegister hop |}, None)
                      end in
                    match attrs !! IfAttr with
                    | Some ifClause =>
                        let '(val, err) := DecodeConditionalAttr (Some ifClause) evalctx in
                        match err with
                        | Some err => mret (hop, Some err)
                        | None =>
                            (* If condition is not met. Omit the block and stop parsing. *)
                            if negb val
                            then Debugf (slug +:+ " 'if' not met");; mret (hop, None)
                            else calls val
                        end
                    | None => calls true
                    end
              end
        end
    end.

(** The loop of [DecodeHopsBody] over the [on] blocks. *)
Fixpoint decodeOns (hop : HopAST) (onBlocks : list Block) (idx : nat)
         (evalctx : EvalContext) : M (HopAST * option error) :=
  match onBlocks with
  | [] => mret (hop, None)
  | onBlock :: onBlocks' =>
      '(hop, err) ← DecodeOnBlock hop onBlock idx evalctx;
      match err with
      | Some err => mret (hop, Some err)
      | None => decodeOns hop onBlocks' (S idx) evalctx
      end
  end.

Definition DecodeHopsBody (hop : HopAST) (body : Body) (evalctx : EvalContext)
  : M (HopAST * option error) :=
  let '(_, blocks, d) := Content body in
  match d with
  | err0 :: _ => mret (hop, Some err0)
  | [] =>
      if Nat.eqb (length blocks) 0
      then mret (hop, Some (errorString "At least one resource must be defined"))
      else
        let onBlocks := OfType blocks OnID in
        decodeOns hop onBlocks 0 evalctx
  end.

Definition ParseHops (hopsBody : Body) (eventBundle : gmap string bytes)
  : M (option HopAST * option error) :=
  let hop := {| Ons := []; SlugRegister := ∅ |} in
  match eventBundleToCty eventBundle "-" with
  | Err err => mret (None, Some err)
  | Ok ctxVariables =>
      let evalctx := mkEvalContext ctxVariables None in
      '(hop, err) ← DecodeHopsBody hop hopsBody evalctx;
      match err with
      | Some err =>
          Errf (Some err) "Failed to decode hops file";;
          Debugf "Parse failed on source event";;
          mret (Some hop, Some err)
      | None => mret (Some hop, None)
      end
  end.

(** The slug an [on] block declares: that of its name, or of its label
    and its index among the [on] blocks when it has no name. *)
Definition declaredSlug (block : Block) (idx : nat) : option string :=
  let '(attrs, _, _) := Content (Body_ block) in
  match Labels block, DecodeNameAttr (attrs !! NameAttr) with
  | eventType_ :: _, Ok name =>
      Some (slugify [if String.eqb name "" then eventType_ +:+ pretty idx else name])
  | _, _ => None
  end.

End Decode.

Arguments mkEvalContext {cty_Value} Variables parent.
Arguments Variables {cty_Value} ctx.
Arguments Expr_Value {cty_Value} a ctx.
Arguments NameRange {cty_Value} a.
Arguments mkBody {cty_Value} Attributes Blocks diags.
Arguments mkBlock {cty_Value} Type_ Labels Body_.
Arguments Content {cty_Value} body.
Arguments Type_ {cty_Value} b.
Arguments Labels {cty_Value} b.
Arguments Body_ {cty_Value} b.
Arguments OfType {cty_Value} blocks typeName.

End decode.

(** The slugs of the blocks a hop holds: of each [on] block and of its
    calls. *)
Definition slugsOf (ons : list dsl.OnAST) : list string :=
  concat ((fun on => dsl.on_Slug on :: (dsl.call_Slug <$> dsl.on_Calls on)) <$> ons).

(** The label of an [on] block matches an event: the part before the
    first ["_"] is the type of the event and the part after it, when
    there is one, is its action. *)
Definition matchesEvent (eventType eventAction label : string) : Prop :=
  let '(blockEventType, blockAction, hasAction) := strings_Cut label "_" in
  blockEventType = eventType /\ (hasAction = true -> blockAction = eventAction).

(** Rules for the examples: values are strings and booleans; the bundle
    holds the type and the action of the event under [type] and
    [action]. *)
Module example.

Inductive value : Type :=
| vString (s : string)
| vBool (b : bool).

Definition gocty_string (v : value) : result string :=
  match v with
  | vString s => Ok s
  | vBool _ => Err (errorString "string required")
  end.

Definition gocty_bool (v : value) : result bool :=
  match v with
  | vBool b => Ok b
  | vString _ => Err (errorString "bool required")
  end.

Definition ctyjson_Marshal (v : value) : result bytes :=
  match v with
  | vString s => Ok (list_byte_of_string s)
  | vBool true => Ok (list_byte_of_string "true")
  | vBool false => Ok (list_byte_of_string "false")
  end.

Definition AsValueMap (v : value) : result (gmap string value) :=
  Err (errorString "value is not a collection").

(** A stand-in for [slug.Make] that keeps its argument. *)
Definition slug_Make (s : string) : string := s.

Definition ValidateLabels (labels : list string) : option error :=
  if forallb (fun l => negb (String.eqb l "")) labels then None
  else Some (errorString "label must not be empty").

Definition parseEventVar (vars : gmap string value) : result (string * string) :=
  match vars !! "type", vars !! "action" with
  | Some (vString t), Some (vString a) => Ok (t, a)
  | _, _ => Err (errorString "unknown event")
  end.

Definition eventBundleToCty (bundle : gmap string bytes) (sep : string)
  : result (gmap string value) :=
  Ok ((fun d => vString (string_of_list_byte d)) <$> bundle).

Definition const (v : value) : decode.Attribute value :=
  {| decode.Expr_Value := fun _ => (v, []); decode.NameRange := "rules.hops:1,1-5" |}.

Definition callBlock (taskType : string) (attrs : gmap string (decode.Attribute value))
  : decode.Block value :=
  decode.mkBlock "call" [taskType] (decode.mkBody attrs [] []).

Definition onBlock (label : string) (attrs : gmap string (decode.Attribute value))
           (calls : list (decode.Block value)) : decode.Block value :=
  decode.mkBlock "on" [label] (decode.mkBody attrs calls []).

(** [on push { call github_tag {} call slack_post { if = false } }
     on pullrequest_opened { call github_release {} }
     on push { name = "second"; call github_release {} }] *)
Definition body : decode.Body value :=
  decode.mkBody ∅
    [ onBlock "push" ∅
        [ callBlock "github_tag" ∅;
          callBlock "slack_post" {[ "if" := const (vBool false) ]} ];
      onBlock "pullrequest_opened" ∅ [ callBlock "github_release" ∅ ];
      onBlock "push" {[ "name" := const (vString "second") ]}
        [ callBlock "github_release" ∅ ] ]
    [].

(** The same rules with the name [push0] given to the last block, which
    is the name the first block gets. *)
Definition clash : decode.Body value :=
  decode.mkBody ∅
    [ onBlock "push" ∅ [ callBlock "github_tag" ∅ ];
      onBlock "pullrequest_opened" ∅ [ callBlock "github_release" ∅ ];
      onBlock "pullrequest" {[ "name" := const (vString "push0") ]} [] ]
    [].

(** A push event. *)
Definition push : gmap string bytes :=
  {[ "type" := list_byte_of_string "push"; "action" := list_byte_of_string "" ]}.

Definition ParseHops (hopsBody : decode.Body value) (eventBundle : gmap string bytes)
  : M (option decode.HopAST * option error) :=
  decode.ParseHops value "on" "call" "name" "if" gocty_string gocty_bool ctyjson_Marshal
    AsValueMap slug_Make ValidateLabels parseEventVar eventBundleToCty
    hopsBody eventBundle.

(** The evaluator of a runner whose rules are [body]. *)
Definition evaluate (hops : hcl_Body) (eventBundle : gmap string bytes)
  : result dsl.HopAST :=
  match (ParseHops body eventBundle []).1 with
  | Ret (Some hop, None) => Ok {| dsl.Ons := decode.Ons hop |}
  | Ret (_, Some err) => Err err
  | _ => Err (errorString "no rules")
  end.

End example.

(** ** Package [dsl]: reading the rule files of a directory *)

Module hopsdir.

(** What [os.Lstat] and [os.ReadDir] show of a file tree: the name of an
    entry, whether it is a directory, and for a directory the entries
    [ReadDir] returns and the error it returns with them, if any. *)
Inductive DirEntry : Type :=
| mkEntry (Name : string) (IsDir : bool) (entries : list DirEntry) (readErr : option error).

Definition Name (d : DirEntry) : string := match d with mkEntry n _ _ _ => n end.
Definition IsDir (d : DirEntry) : bool := match d with mkEntry _ i _ _ => i end.
Definition entries (d : DirEntry) : list DirEntry := match d with mkEntry _ _ es _ => es end.
Definition readErr (d : DirEntry) : option error := match d with mkEntry _ _ _ e => e end.

(** What a [fs.WalkDirFunc] returns besides [nil]: [filepath.SkipDir], or
    an error of its own. *)
Inductive walkErr : Type :=
| SkipDir
| walkError (e : error).

(** [fileContent]. *)
Record fileContent : Type := {
  file : string;
  content : bytes;
}.

(** [strings.HasPrefix]. *)
Definition strings_HasPrefix (s prefix : string) : bool := String.prefix prefix s.

(** The order of [sort.Strings]: byte by byte. *)
Definition string_le (a b : string) : Prop := String.leb a b = true.

Global Instance string_le_dec (a b : string) : Decision (string_le a b).
Proof. unfold string_le. apply _. Defined.

(** [sort.Strings]. *)
Definition sort_Strings (l : list string) : list string := merge_sort string_le l.

Section WalkDir.

(** [filepath.Join] and [filepath.Ext]. *)
Variable filepath_Join : string -> string -> string.
Variable filepath_Ext : string -> string.

(** [os.ReadFile]. *)
Variable os_ReadFile : string -> result bytes.

(** The loop of [walkDir] over the entries of a directory: [SkipDir]
    from an entry ends the loop. *)
Fixpoint walkEntries {S : Type} (walk : string -> DirEntry -> S -> S * option walkErr)
         (path : string) (ds : list DirEntry) (s : S) : S * option walkErr :=
  match ds with
  | [] => (s, None)
  | d1 :: ds' =>
      let path1 := filepath_Join path (Name d1) in
      match walk path1 d1 s with
      | (s, Some SkipDir) => (s, None)
      | (s, Some err) => (s, Some err)
      | (s, None) => walkEntries walk path ds' s
      end
  end.

(** [filepath.WalkDir] below the root, for a callback that keeps a state
    [S]: the callback is called on the entry; a directory it does not
    skip is read (and the callback called once more when reading fails),
    and its entries are walked in turn.  [SkipDir] skips a directory; from
    an entry that is not a directory it is handed on. *)
Fixpoint walkDir {S : Type} (fn : string -> DirEntry -> option error -> S -> S * option walkErr)
         (path : string) (d : DirEntry) (s : S) : S * option walkErr :=
  match d with
  | mkEntry name isDir ds rerr =>
      match fn path d None s with
      | (s, Some SkipDir) => (s, if isDir then None else Some SkipDir)
      | (s, Some err) => (s, Some err)
      | (s, None) =>
          if negb isDir then (s, None)
          else
            let '(s, err) :=
              match rerr with
              | Some e => fn path d (Some e) s
              | None => (s, None)
              end in
            match err with
            | Some SkipDir => (s, None)
            | Some err => (s, Some err)
            | None => walkEntries (walkDir fn) path ds s
            end
      end
  end.

(** [filepath.WalkDir]: [root] is what [os.Lstat] returns for the root. *)
Definition WalkDir {S : Type} (rootPath : string) (root : result DirEntry)
           (fn : string -> option DirEntry -> option error -> S -> S * option walkErr)
           (s : S) : S * option error :=
  let '(s, err) :=
    match root with
    | Err err => fn rootPath None (Some err) s
    | Ok d => walkDir (fun path d err => fn path (Some d) err) rootPath d s
    end in
  match err with
  | Some SkipDir => (s, None)
  | Some (walkError e) => (s, Some e)
  | None => (s, None)
  end.

(** The callback of [readHopsDir]. *)
Definition collect (path : string) (d : option DirEntry) (err : option error)
           (filePaths : list string) : list string * option walkErr :=
  match err with
  | Some err => (filePaths, Some (walkError err))
  | None =>
      match d with
      | None =>
          (* [WalkDir] passes no entry only along with an error *)
          (filePaths, Some (walkError nats.nil_dereference))
      | Some d =>
          (* Exclude directories whose name starts with '..' *)
          if IsDir d && strings_HasPrefix (Name d) ".."
          then (filePaths, Some SkipDir)
          else if negb (IsDir d) && String.eqb (filepath_Ext path) ".hops"
          then (filePaths ++ [path], None)
          else (filePaths, None)
      end
  end.

(** The loop of [readHopsDir] that reads the files. *)
Fixpoint readFiles (filePaths : list string) (files : list fileContent)
  : result (list fileContent) :=
  match filePaths with
  | [] => Ok files
  | filePath :: filePaths' =>
      match os_ReadFile filePath with
      | Err err => Err err
      | Ok content =>
          readFiles filePaths' (files ++ [{| file := filePath; content := content |}])
      end
  end.

(** [readHopsDir] retrieves the content of all .hops files in a
    directory, including sub directories. *)
Definition readHopsDir (dirPath : string) (root : result DirEntry)
  : result (list fileContent) :=
  let '(filePaths, err) := WalkDir dirPath root collect [] in
  match err with
  | Some err => Err err
  | None =>
      (* Sort the file paths to ensure consistent order *)
      let filePaths := sort_Strings filePaths in
      readFiles filePaths []
  end.

(** The paths that walking [d] at [path] comes by: that of [d] itself
    when it is a .hops file; and when [d] is a directory whose name does
    not start with [..], those of its entries. *)
Inductive listed : string -> DirEntry -> string -> Prop :=
| listed_file path d :
    IsDir d = false -> filepath_Ext path = ".hops" -> listed path d path
| listed_dir path d d1 p :
    IsDir d = true -> strings_HasPrefix (Name d) ".." = false ->
    d1 ∈ entries d -> listed (filepath_Join path (Name d1)) d1 p ->
    listed path d p.

End WalkDir.

End hopsdir.

(** A directory of rules as a Kubernetes config map lays it out. *)
Module exampledir.

(** [filepath.Join] on clean paths. *)
Definition Join (dir name : string) : string := dir +:+ "/" +:+ name.

(** [filepath.Ext]: the suffix beginning at the final dot in the final
    element of the path; empty when there is no dot. *)
Fixpoint extension (path : string) : option string :=
  match path with
  | EmptyString => None
  | String c path' =>
      match extension path' with
      | Some e => Some e
      | None =>
          if Ascii.eqb c "." && negb (strings_Contains path' "/")
          then Some path else None
      end
  end.

Definition Ext (path : string) : string := default "" (extension path).

Definition fileEntry (name : string) : hopsdir.DirEntry := hopsdir.mkEntry name false [] None.

Definition dirEntry (name : string) (entries : list hopsdir.DirEntry) : hopsdir.DirEntry :=
  hopsdir.mkEntry name true entries None.

(** [/rules] holds the mapped files as links into [..data], which is a
    link to a timestamped directory; besides there is a sub directory. *)
Definition root : hopsdir.DirEntry :=
  dirEntry "rules"
    [ dirEntry "..2023_10_19_12_34_56.789012345"
        [ fileEntry "main.hops"; fileEntry "extra.hops" ];
      fileEntry "..data";
      fileEntry "extra.hops";
      fileEntry "main.hops";
      fileEntry "notes.txt";
      dirEntry "team" [ fileEntry "alerts.hops" ] ].

Definition ReadFile (path : string) : result bytes :=
  Ok (list_byte_of_string ("# " +:+ path)).

End exampledir.

(** * Properties *)

(** Unfolding the monad. *)
Ltac run_M :=
  unfold Debugf, Infof, Warnf, Errf, emit, call, choose, panic, block,
    mbind, mret, M_MBind, M_MRet, M_bind, M_ret in *.

(** ** The publish contract *)

Lemma Publish_run (c : nats.Client) (data : bytes) (subjTokens : list string)
      (tr : Trace) :
  let subject := nats.publishSubject c subjTokens in
  nats.Publish c data subjTokens tr =
    match nats.js_Publish (nats.JetStream c) tr subject data with
    | (puback, Some e) =>
        if strings_Contains (Error e) fenceText
        then (Ret (puback, None, false),
              tr ++ [EvPublish subject data;
                     EvLog LDebug None ("Skipping duplicate message " +:+ subject)])
        else (Ret (puback, Some e, true), tr ++ [EvPublish subject data])
    | (puback, None) =>
        (Ret (puback, None, true),
         tr ++ [EvPublish subject data;
                EvLog LDebug None ("Message sent " +:+ subject)])
    end.
Proof.
  unfold nats.Publish, fenceText. run_M. cbn.
  destruct (nats.js_Publish _ _ _ _) as [puback [e|]]; cbn.
  - destruct (strings_Contains _ _); cbn; [rewrite <- app_assoc|]; reflexivity.
  - rewrite <- app_assoc. reflexivity.
Qed.

(** C2.  For every call of [Publish]: when the broker's publish returns an
    error whose text contains "maximum messages per subject exceeded",
    [Publish] returns a nil error and [sent = false]; when the broker
    returns any other error, that error is returned; when the broker's
    publish succeeds, [Publish] returns a nil error and [sent = true]. *)
Theorem Publish_contract (c : nats.Client) (data : bytes)
        (subjTokens : list string) (tr : Trace)
        (puback : option PubAck) (err : option error) :
  nats.js_Publish (nats.JetStream c) tr (nats.publishSubject c subjTokens) data
    = (puback, err) ->
  let out := (nats.Publish c data subjTokens tr).1 in
  (forall e, err = Some e ->
             strings_Contains (Error e) "maximum messages per subject exceeded" = true ->
             out = Ret (puback, None, false))
  /\ (forall e, err = Some e ->
                strings_Contains (Error e) "maximum messages per subject exceeded" = false ->
                out = Ret (puback, Some e, true))
  /\ (err = None -> out = Ret (puback, None, true)).
Proof.
  intros Hjs out. subst out. rewrite Publish_run. cbn zeta. rewrite Hjs.
  unfold fenceText.
  repeat split.
  - intros e -> ->. reflexivity.
  - intros e -> ->. reflexivity.
  - intros ->. reflexivity.
Qed.

(** The duplicate is swallowed, another error is handed on, a success is
    reported as sent. *)
Lemma Publish_contract_witness :
  (nats.Publish (demo.client None None) [] ["notify"; "SEQ"; "event"] []).1
    = Ret (None, None, false)
  /\ (nats.Publish (demo.client (Some (errorString "nats: timeout")) None) []
        ["notify"; "SEQ"; "M1"] []).1
     = Ret (None, Some (errorString "nats: timeout"), true)
  /\ (nats.Publish (demo.client None None) [] ["notify"; "SEQ"; "M1"] []).1
     = Ret (Some {| ack_Stream := "acct"; ack_Sequence := 6 |}, None, true).
Proof.
  split; [|split].
  - destruct (Publish_contract (demo.client None None) [] ["notify"; "SEQ"; "event"] []
                None (Some demo.fenceError) eq_refl) as (H & _ & _).
    apply (H demo.fenceError); reflexivity.
  - destruct (Publish_contract (demo.client (Some (errorString "nats: timeout")) None)
                [] ["notify"; "SEQ"; "M1"] [] None
                (Some (errorString "nats: timeout")) eq_refl) as (_ & H & _).
    apply (H (errorString "nats: timeout")); reflexivity.
  - destruct (Publish_contract (demo.client None None) [] ["notify"; "SEQ"; "M1"] []
                (Some {| ack_Stream := "acct"; ack_Sequence := 6 |}) None eq_refl)
      as (_ & _ & H).
    apply H; reflexivity.
Defined.

(** ** The sequence aggregator *)

Section AggregatorProps.

Variable Parse : Msg -> result nats.MsgMeta.

Let below (n : N) (m : Msg) : Prop := (streamSeq Parse m < n)%N.

(** The loop stops at the first message whose stream sequence is that of
    the triggering message, having inserted every message up to it. *)
Lemma readBack_stop (newMsg : nats.MsgMeta) (pre : list Msg) (m : Msg)
      (rest : nats.MessagesContext) (b : nats.MessageBundle) (tr : Trace) :
  Forall (parses Parse) pre -> Forall (below (nats.StreamSequence newMsg)) pre ->
  parses Parse m -> streamSeq Parse m = nats.StreamSequence newMsg ->
  (nats.readBack Parse ((Ok <$> pre) ++ Ok m :: rest) newMsg b tr).1
    = Ret (Ok (foldl (insertMsg Parse) b (pre ++ [m]))).
Proof.
  intros Hp Hlt [meta Hm] Hseq. revert b tr.
  induction pre as [|x pre IH]; intros b tr; cbn [fmap list_fmap app nats.readBack].
  - run_M. cbn. unfold streamSeq in Hseq. rewrite Hm in *. rewrite Hseq.
    rewrite N.ltb_irrefl, N.eqb_refl. cbn.
    unfold insertMsg, messageId. rewrite Hm. reflexivity.
  - apply Forall_cons in Hp as [[mx Hx] Hp]. apply Forall_cons in Hlt as [Hxlt Hlt].
    unfold below, streamSeq in Hxlt. rewrite Hx in Hxlt.
    run_M. cbn. rewrite Hx.
    destruct (N.ltb_spec (nats.StreamSequence newMsg) (nats.StreamSequence mx)); [lia|].
    destruct (N.eqb_spec (nats.StreamSequence mx) (nats.StreamSequence newMsg)); [lia|].
    specialize (IH Hp Hlt). run_M. rewrite IH.
    unfold insertMsg at 3, messageId. rewrite Hx. reflexivity.
Qed.

(** The loop fails as soon as a message beyond the triggering one is
    delivered first. *)
Lemma readBack_overrun (newMsg : nats.MsgMeta) (pre : list Msg) (m : Msg)
      (rest : nats.MessagesContext) (b : nats.MessageBundle) (tr : Trace) :
  Forall (parses Parse) pre -> Forall (below (nats.StreamSequence newMsg)) pre ->
  parses Parse m -> (nats.StreamSequence newMsg < streamSeq Parse m)%N ->
  (nats.readBack Parse ((Ok <$> pre) ++ Ok m :: rest) newMsg b tr).1
    = Ret (Err (BundleOverrun (nats.StreamSequence newMsg))).
Proof.
  intros Hp Hlt [meta Hm] Hseq. revert b tr.
  induction pre as [|x pre IH]; intros b tr; cbn [fmap list_fmap app nats.readBack].
  - run_M. cbn. unfold streamSeq in Hseq. rewrite Hm in *.
    destruct (N.ltb_spec (nats.StreamSequence newMsg) (nats.StreamSequence meta)); [|lia].
    reflexivity.
  - apply Forall_cons in Hp as [[mx Hx] Hp]. apply Forall_cons in Hlt as [Hxlt Hlt].
    unfold below, streamSeq in Hxlt. rewrite Hx in Hxlt.
    run_M. cbn. rewrite Hx.
    destruct (N.ltb_spec (nats.StreamSequence newMsg) (nats.StreamSequence mx)); [lia|].
    destruct (N.eqb_spec (nats.StreamSequence mx) (nats.StreamSequence newMsg)); [lia|].
    specialize (IH Hp Hlt). run_M. rewrite IH. reflexivity.
Qed.

(** While every delivered message precedes the triggering one, the loop
    waits for the next. *)
Lemma readBack_blocked (newMsg : nats.MsgMeta) (ms : list Msg)
      (b : nats.MessageBundle) (tr : Trace) :
  Forall (parses Parse) ms -> Forall (below (nats.StreamSequence newMsg)) ms ->
  (nats.readBack Parse (Ok <$> ms) newMsg b tr).1 = Blocked.
Proof.
  intros Hp Hlt. revert b tr.
  induction ms as [|x ms IH]; intros b tr; cbn [fmap list_fmap nats.readBack].
  - reflexivity.
  - apply Forall_cons in Hp as [[mx Hx] Hp]. apply Forall_cons in Hlt as [Hxlt Hlt].
    unfold below, streamSeq in Hxlt. rewrite Hx in Hxlt.
    run_M. cbn. rewrite Hx.
    destruct (N.ltb_spec (nats.StreamSequence newMsg) (nats.StreamSequence mx)); [lia|].
    destruct (N.eqb_spec (nats.StreamSequence mx) (nats.StreamSequence newMsg)); [lia|].
    specialize (IH Hp Hlt). run_M. rewrite IH. reflexivity.
Qed.

(** A list of messages either stays below [n], or has a first message
    that does not. *)
Lemma first_not_below (n : N) (ms : list Msg) :
  Forall (below n) ms
  \/ exists pre m rest,
      ms = pre ++ m :: rest /\ Forall (below n) pre /\ (n <= streamSeq Parse m)%N.
Proof.
  induction ms as [|x ms [IH|(pre & m & rest & -> & Hpre & Hm)]].
  - left. constructor.
  - destruct (N.lt_ge_cases (streamSeq Parse x) n) as [Hx|Hx].
    + left. constructor; assumption.
    + right. exists [], x, ms. repeat split; [constructor|assumption].
  - destruct (N.lt_ge_cases (streamSeq Parse x) n) as [Hx|Hx].
    + right. exists (x :: pre), m, rest. repeat split; [constructor|]; assumption.
    + right. exists [], x, (pre ++ m :: rest). repeat split; [constructor|assumption].
Qed.

(** In a list in stream order, the messages up to the stream sequence of
    one of its members are the members up to and including it. *)
Lemma upTo_prefix (pre : list Msg) (m : Msg) (rest : list Msg) :
  inStreamOrder Parse (pre ++ m :: rest) ->
  upTo Parse (streamSeq Parse m) (pre ++ m :: rest) = pre ++ [m].
Proof.
  intros Hs. apply StronglySorted_app in Hs as (Hcross & _ & Hm).
  apply StronglySorted_cons in Hm as [Hrest _].
  unfold upTo. rewrite List.filter_app. cbn [List.filter].
  rewrite N.leb_refl. f_equal; [|f_equal].
  - apply forallb_filter_id. apply forallb_forall. intros x Hx.
    apply N.leb_le, N.lt_le_incl, Hcross; [apply list_elem_of_In, Hx|left].
  - clear Hcross. induction Hrest as [|y rest Hy _ IH]; [reflexivity|].
    cbn [List.filter]. destruct (N.leb_spec (streamSeq Parse y) (streamSeq Parse m)); [lia|].
    exact IH.
Qed.

Lemma bundleOf_last (pre : list Msg) (m : Msg) :
  bundleOf Parse (pre ++ [m]) !! messageId Parse m = Some (Data m).
Proof.
  unfold bundleOf. rewrite foldl_app. cbn. unfold insertMsg at 1.
  apply lookup_insert_eq.
Qed.

(** [FetchMessageBundle] when the ordered consumer and its message
    iterator are obtained. *)
Lemma FetchMessageBundle_run (c : nats.Client) (newMsg : nats.MsgMeta)
      (msgCtx : nats.MessagesContext) (tr : Trace) :
  let cfg := {| oc_FilterSubjects := [nats.SequenceFilter newMsg];
                oc_DeliverPolicy := DeliverAllPolicy |} in
  nats.js_OrderedConsumer (nats.JetStream c) tr (nats.accountId c) cfg
    = Ok {| nats.Messages := Ok msgCtx |} ->
  nats.FetchMessageBundle Parse c newMsg tr
    = nats.readBack Parse msgCtx newMsg ∅
        (tr ++ [EvOrderedConsumer (nats.accountId c) cfg; EvMessages]).
Proof.
  intros cfg H. unfold nats.FetchMessageBundle. run_M. cbv beta zeta.
  fold cfg. rewrite H. cbv beta iota zeta. cbn [nats.Messages].
  rewrite <- app_assoc. reflexivity.
Qed.

(** C1.  Let the ordered consumer on the sequence filter of the
    triggering message M (stream sequence N) deliver the messages [hist]
    of M's sequence, all of which parse.  When it delivers them in stream
    order, every bundle [FetchMessageBundle] returns maps message id to
    payload for exactly the messages of [hist] with stream sequence at
    most N (a later message replacing an earlier one of the same id),
    among them the message of stream sequence N; and when M is among the
    delivered messages the call does return that bundle, with M's payload
    under M's id.  Whatever the order, when a message beyond N is
    delivered before one of stream sequence N is seen, the call fails
    with the overrun error. *)
Theorem FetchMessageBundle_bundle (c : nats.Client) (newMsg : nats.MsgMeta)
        (hist : list Msg) (tr : Trace) :
  nats.js_OrderedConsumer (nats.JetStream c) tr (nats.accountId c)
      {| oc_FilterSubjects := [nats.SequenceFilter newMsg];
         oc_DeliverPolicy := DeliverAllPolicy |}
    = Ok {| nats.Messages := Ok (Ok <$> hist) |} ->
  Forall (parses Parse) hist ->
  let n := nats.StreamSequence newMsg in
  let out := (nats.FetchMessageBundle Parse c newMsg tr).1 in
  (inStreamOrder Parse hist ->
   forall b, out = Ret (Ok b) ->
     b = bundleOf Parse (upTo Parse n hist)
     /\ exists m, m ∈ hist /\ streamSeq Parse m = n
                  /\ b !! messageId Parse m = Some (Data m))
  /\ (inStreamOrder Parse hist ->
      forall trigger, Parse trigger = Ok newMsg -> trigger ∈ hist ->
        out = Ret (Ok (bundleOf Parse (upTo Parse n hist)))
        /\ bundleOf Parse (upTo Parse n hist) !! nats.MessageId newMsg
           = Some (Data trigger))
  /\ (forall pre m rest,
        hist = pre ++ m :: rest ->
        Forall (fun x => (streamSeq Parse x < n)%N) pre ->
        (n < streamSeq Parse m)%N ->
        out = Ret (Err (BundleOverrun n))).
Proof.
  intros Hoc Hparse n out. subst out.
  rewrite (FetchMessageBundle_run _ _ _ _ Hoc).
  set (tr' := tr ++ _). clearbody tr'. clear Hoc.
  split; [|split].
  - intros Hsorted b Hb.
    destruct (first_not_below n hist) as [Hall|(pre & m & rest & -> & Hpre & Hm)].
    + rewrite readBack_blocked in Hb by assumption. discriminate.
    + apply Forall_app in Hparse as [Hppre Hpm].
      apply Forall_cons in Hpm as [Hpm _].
      rewrite fmap_app, fmap_cons in Hb.
      destruct (N.eq_dec (streamSeq Parse m) n) as [Heq|Hne].
      * rewrite readBack_stop in Hb by assumption.
        injection Hb as <-. rewrite <- Heq, upTo_prefix by assumption.
        split; [reflexivity|].
        exists m. split; [apply elem_of_app; right; left|].
        split; [reflexivity|]. apply bundleOf_last.
      * rewrite readBack_overrun in Hb by (try assumption; lia). discriminate.
  - intros Hsorted trigger Htrig Hin.
    apply list_elem_of_split in Hin as (pre & rest & ->).
    assert (Hseq : streamSeq Parse trigger = n)
      by (unfold streamSeq; rewrite Htrig; reflexivity).
    assert (Hid : messageId Parse trigger = nats.MessageId newMsg)
      by (unfold messageId; rewrite Htrig; reflexivity).
    apply Forall_app in Hparse as [Hppre Hpm].
    apply Forall_cons in Hpm as [Hpm _].
    assert (Hpre : Forall (below n) pre).
    { apply Forall_forall. intros x Hx. unfold below. rewrite <- Hseq.
      apply StronglySorted_app in Hsorted as (Hcross & _ & _).
      apply Hcross; [exact Hx|left]. }
    rewrite fmap_app, fmap_cons, readBack_stop by assumption.
    rewrite <- Hseq, upTo_prefix by assumption.
    split; [reflexivity|]. rewrite <- Hid. apply bundleOf_last.
  - intros pre m rest -> Hpre Hm.
    apply Forall_app in Hparse as [Hppre Hpm].
    apply Forall_cons in Hpm as [Hpm _].
    rewrite fmap_app, fmap_cons. apply readBack_overrun; assumption.
Qed.

End AggregatorProps.

(** The delivery of [step2] (stream sequence 4) yields the bundle of
    [event], [step1] and [step2]; a trigger of stream sequence 3 that is
    no longer in its sequence makes the read overrun at [step2]. *)
Lemma FetchMessageBundle_bundle_witness :
  (nats.FetchMessageBundle demo.Parse (demo.client None None)
     (demo.notifyMeta "SEQ" "step2" 4) []).1
    = Ret (Ok (bundleOf demo.Parse (upTo demo.Parse 4 demo.history)))
  /\ bundleOf demo.Parse (upTo demo.Parse 4 demo.history) !! "step2"
     = Some (list_byte_of_string "two")
  /\ (nats.FetchMessageBundle demo.Parse (demo.client None None)
        (demo.notifyMeta "SEQ" "gone" 3) []).1
     = Ret (Err (BundleOverrun 3)).
Proof.
  assert (Hp : Forall (parses demo.Parse) demo.history)
    by (repeat constructor; eexists; reflexivity).
  assert (Hs : inStreamOrder demo.Parse demo.history)
    by (repeat constructor).
  destruct (FetchMessageBundle_bundle demo.Parse (demo.client None None)
              (demo.notifyMeta "SEQ" "step2" 4) demo.history [] eq_refl Hp)
    as (_ & H & _).
  destruct (H Hs (demo.msg "acct.notify.SEQ.step2" "two" 4) eq_refl) as [H1 H2].
  { do 2 right. left. }
  destruct (FetchMessageBundle_bundle demo.Parse (demo.client None None)
              (demo.notifyMeta "SEQ" "gone" 3) demo.history [] eq_refl Hp)
    as (_ & _ & H3).
  split; [exact H1|]. split; [exact H2|].
  apply (H3 [demo.msg "acct.notify.SEQ.event" "{}" 1;
             demo.msg "acct.notify.SEQ.step1" "one" 2]
            (demo.msg "acct.notify.SEQ.step2" "two" 4)
            [demo.msg "acct.notify.SEQ.step3" "three" 5]).
  - reflexivity.
  - repeat constructor.
  - reflexivity.
Defined.

(** ** Consuming sequences *)

Section SequencesProps.

Variable W : nats.World.
Variable Parse : Msg -> result nats.MsgMeta.

(** A message that does not parse is terminated; nothing else happens. *)
Lemma wrappedCB_parse_failure (c : nats.Client) (handler : nats.SequenceHandler)
      (msg : Msg) (err : error) (tr : Trace) :
  Parse msg = Err err ->
  nats.wrappedCB W Parse c handler msg tr
    = (Ret tt, tr ++ [EvMsgOp msg OpTerm;
                      EvLog LError (Some err) "Unable to parse message"]).
Proof.
  intros H. unfold nats.wrappedCB, nats.msgOp. rewrite H. run_M. cbn.
  rewrite <- app_assoc. reflexivity.
Qed.

(** When the bundle cannot be fetched the message is nak'd with a delay
    of 3 s and the handler is not called; the callback then panics. *)
Lemma wrappedCB_fetch_failure (c : nats.Client) (handler : nats.SequenceHandler)
      (msg : Msg) (hopsMsg : nats.MsgMeta) (err : error) (tr tr1 : Trace) :
  Parse msg = Ok hopsMsg ->
  nats.FetchMessageBundle Parse c hopsMsg tr = (Ret (Err err), tr1) ->
  nats.wrappedCB W Parse c handler msg tr
    = (Panic err,
       tr1 ++ [EvMsgOp msg (OpNakWithDelay (3 * Second)%Z);
               EvLog LError (Some err) "Unable to fetch message bundle"]).
Proof.
  intros H Hf. unfold nats.wrappedCB, nats.msgOp. rewrite H. run_M.
  rewrite Hf. cbn. rewrite <- app_assoc. reflexivity.
Qed.

(** When the handler fails the message is nak'd with a delay of 3 s. *)
Lemma wrappedCB_handler_failure (c : nats.Client) (handler : nats.SequenceHandler)
      (msg : Msg) (hopsMsg : nats.MsgMeta) (b : nats.MessageBundle)
      (err : error) (tr tr1 tr2 : Trace) :
  Parse msg = Ok hopsMsg ->
  nats.FetchMessageBundle Parse c hopsMsg tr = (Ret (Ok b), tr1) ->
  handler (nats.SequenceId hopsMsg) b tr1 = (Ret (Some err), tr2) ->
  nats.wrappedCB W Parse c handler msg tr
    = (Ret tt,
       tr2 ++ [EvLog LError (Some err) "Failed to process message";
               EvMsgOp msg (OpNakWithDelay (3 * Second)%Z)]).
Proof.
  intros H Hf Hh. unfold nats.wrappedCB, nats.msgOp. rewrite H. run_M.
  rewrite Hf, Hh. cbn. rewrite <- app_assoc. reflexivity.
Qed.

(** When parse, fetch and handler succeed the message is acked. *)
Lemma wrappedCB_success (c : nats.Client) (handler : nats.SequenceHandler)
      (msg : Msg) (hopsMsg : nats.MsgMeta) (b : nats.MessageBundle)
      (tr tr1 tr2 : Trace) :
  Parse msg = Ok hopsMsg ->
  nats.FetchMessageBundle Parse c hopsMsg tr = (Ret (Ok b), tr1) ->
  handler (nats.SequenceId hopsMsg) b tr1 = (Ret None, tr2) ->
  nats.wrappedCB W Parse c handler msg tr
    = (Ret tt, tr2 ++ [EvMsgOp msg OpAck]).
Proof.
  intros H Hf Hh. unfold nats.wrappedCB, nats.msgOp. rewrite H. run_M.
  rewrite Hf, Hh. reflexivity.
Qed.

End SequencesProps.

(** C3.  A message that parses but whose bundle cannot be fetched (here:
    the broker refuses the ordered consumer) is nak'd with a delay of 3 s
    and the handler is not called, but the callback does not return: it
    panics with the error of the fetch. *)
Theorem wrappedCB_fetch_failure_panics :
  let m := demo.msg "acct.notify.SEQ.step2" "two" 4 in
  let e := errorString "nats: timeout" in
  nats.wrappedCB (demo.world None (Some e) demo.noAckError) demo.Parse
      (demo.client None (Some e)) demo.sequenceHandler m []
    = (Panic (fmt_Errorf_w "Unable to create ordered consumer: " e),
       [EvOrderedConsumer "acct"
          {| oc_FilterSubjects := ["acct.notify.SEQ.*"];
             oc_DeliverPolicy := DeliverAllPolicy |};
        EvMsgOp m (OpNakWithDelay 3000000000%Z);
        EvLog LError (Some (fmt_Errorf_w "Unable to create ordered consumer: " e))
          "Unable to fetch message bundle"]).
Proof. reflexivity. Qed.

(** ** The worker loop *)

Section SupervisorProps.

Variable W : nats.World.
Variable selectOrder : Trace -> list worker.SelectCase.

Lemma ticks_S (m : Msg) (k : nat) (tr : Trace) :
  tr ++ ticks m (S k) = (tr ++ [EvMsgOp m OpInProgress]) ++ ticks m k.
Proof. unfold ticks. cbn. rewrite <- app_assoc. reflexivity. Qed.

(** The loop of the supervisor when the handler's report is taken after
    [k] ticks whose extensions the broker accepts. *)
Lemma supervise_handler (msg : Msg) (res : option error) (k : nat)
      (rest : list worker.SelectCase) (tr : Trace) :
  (forall j, (j < k)%nat ->
             nats.msg_reply W (tr ++ ticks msg j) msg OpInProgress = None) ->
  worker.supervise W msg res (replicate k worker.CaseTicker ++ worker.CaseHandler :: rest) tr
    = (Ret res, tr ++ ticks msg k).
Proof.
  revert tr. induction k as [|k IH]; intros tr H; cbn [replicate app worker.supervise].
  - unfold ticks. cbn. rewrite app_nil_r. reflexivity.
  - unfold nats.msgOp. run_M.
    pose proof (H 0%nat ltac:(lia)) as H0. unfold ticks in H0. cbn in H0.
    rewrite app_nil_r in H0. rewrite H0.
    rewrite ticks_S. apply IH. intros j Hj. rewrite <- ticks_S. apply H. lia.
Qed.

(** The loop of the supervisor when the extension of tick [k + 1] fails. *)
Lemma supervise_extension_error (msg : Msg) (res : option error) (k : nat)
      (rest : list worker.SelectCase) (e : error) (tr : Trace) :
  (forall j, (j < k)%nat ->
             nats.msg_reply W (tr ++ ticks msg j) msg OpInProgress = None) ->
  nats.msg_reply W (tr ++ ticks msg k) msg OpInProgress = Some e ->
  worker.supervise W msg res (replicate k worker.CaseTicker ++ worker.CaseTicker :: rest) tr
    = (Ret (Some e), tr ++ ticks msg (S k)).
Proof.
  revert tr. induction k as [|k IH]; intros tr H He; cbn [replicate app worker.supervise].
  - unfold nats.msgOp. run_M. unfold ticks in He. cbn in He.
    rewrite app_nil_r in He. rewrite He. reflexivity.
  - unfold nats.msgOp. run_M.
    pose proof (H 0%nat ltac:(lia)) as H0. unfold ticks in H0. cbn in H0.
    rewrite app_nil_r in H0. rewrite H0.
    rewrite (ticks_S msg (S k)). apply IH.
    + intros j Hj. rewrite <- ticks_S. apply H. lia.
    + rewrite <- ticks_S. exact He.
Qed.

(** The supervisor only adds to the trace. *)
Lemma supervise_extends (msg : Msg) (res : option error)
      (cases : list worker.SelectCase) (tr : Trace) :
  exists rest, (worker.supervise W msg res cases tr).2 = tr ++ rest.
Proof.
  revert tr. induction cases as [|[|] cases IH]; intros tr; cbn [worker.supervise].
  - exists []. run_M. cbn. rewrite app_nil_r. reflexivity.
  - unfold nats.msgOp. run_M.
    destruct (nats.msg_reply W tr msg OpInProgress) as [e|].
    + eexists. reflexivity.
    + destruct (IH (tr ++ [EvMsgOp msg OpInProgress])) as [rest Hrest].
      exists ([EvMsgOp msg OpInProgress] ++ rest). rewrite Hrest, app_assoc. reflexivity.
  - exists []. run_M. cbn. rewrite app_nil_r. reflexivity.
Qed.

(** [runHandler] for a positive ack-wait, in terms of its loop. *)
Lemma runHandler_run (msg : Msg) (handler : worker.Handler) (d : Duration)
      (tr : Trace) :
  (0 < d)%Z ->
  let period := (d - d `quot` 3)%Z in
  let res := handler (tr ++ [EvNewTicker period]) msg in
  let tr0 := tr ++ [EvNewTicker period; EvGoHandler msg; EvMsgOp msg OpInProgress] in
  worker.runHandler W selectOrder msg handler d tr
    = match worker.supervise W msg res (selectOrder tr0) tr0 with
      | (Ret err, tr') => (Ret err, tr' ++ [EvTickerStop])
      | (Panic e, tr') => (Panic e, tr')
      | (Blocked, tr') => (Blocked, tr')
      end.
Proof.
  intros Hd period res tr0.
  assert (Hp : (0 < period)%Z).
  { subst period. unfold Duration in *. Z.to_euclidean_division_equations. lia. }
  unfold worker.runHandler, worker.time_NewTicker, nats.msgOp. fold period.
  destruct (Z.leb_spec period 0) as [|_]; [lia|].
  run_M. cbv beta iota zeta.
  replace (((tr ++ [EvNewTicker period]) ++ [EvGoHandler msg])
             ++ [EvMsgOp msg OpInProgress]) with tr0
    by (subst tr0; rewrite <- !app_assoc; reflexivity).
  fold res.
  destruct (worker.supervise W msg res (selectOrder tr0) tr0) as [[err|e|] tr'];
    reflexivity.
Qed.

(** C8.  For a positive ack-wait [d], [runHandler] starts a ticker of
    period [d - d/3] (two thirds of [d], rounded up to the nanosecond),
    starts the handler and sends an in-progress signal at once; every
    later in-progress signal answers a tick of that ticker.  When the
    handler's report is taken after [k] ticks whose extensions succeeded,
    the supervisor returns what the handler returned (nil for nil, its
    error otherwise); when an extension on a tick fails first, it returns
    the error of that extension. *)
Theorem runHandler_supervision (msg : Msg) (handler : worker.Handler)
        (d : Duration) (tr : Trace) :
  (0 < d)%Z ->
  let period := (d - d `quot` 3)%Z in
  let res := handler (tr ++ [EvNewTicker period]) msg in
  let tr0 := tr ++ [EvNewTicker period; EvGoHandler msg; EvMsgOp msg OpInProgress] in
  let run := worker.runHandler W selectOrder msg handler d tr in
  (2 * d <= 3 * period <= 2 * d + 2)%Z
  /\ (exists rest, run.2 = tr0 ++ rest)
  /\ (forall k rest,
        selectOrder tr0 = replicate k worker.CaseTicker ++ worker.CaseHandler :: rest ->
        (forall j, (j < k)%nat ->
                   nats.msg_reply W (tr0 ++ ticks msg j) msg OpInProgress = None) ->
        run = (Ret res, tr0 ++ ticks msg k ++ [EvTickerStop]))
  /\ (forall k rest e,
        selectOrder tr0 = replicate k worker.CaseTicker ++ worker.CaseTicker :: rest ->
        (forall j, (j < k)%nat ->
                   nats.msg_reply W (tr0 ++ ticks msg j) msg OpInProgress = None) ->
        nats.msg_reply W (tr0 ++ ticks msg k) msg OpInProgress = Some e ->
        run = (Ret (Some e), tr0 ++ ticks msg (S k) ++ [EvTickerStop])).
Proof.
  intros Hd period res tr0 run. subst run.
  rewrite runHandler_run by assumption. fold period res tr0.
  split; [|split; [|split]].
  - subst period. unfold Duration in *. Z.to_euclidean_division_equations. lia.
  - destruct (supervise_extends msg res (selectOrder tr0) tr0) as [rest Hrest].
    destruct (worker.supervise W msg res (selectOrder tr0) tr0) as [[err|e|] tr'];
      cbn in Hrest |- *; subst tr'.
    + exists (rest ++ [EvTickerStop]). rewrite app_assoc. reflexivity.
    + exists rest. reflexivity.
    + exists rest. reflexivity.
  - intros k rest Hsel Hok. rewrite Hsel, supervise_handler by assumption.
    rewrite app_assoc. reflexivity.
  - intros k rest e Hsel Hok He.
    rewrite Hsel, supervise_extension_error with (e := e) by assumption.
    rewrite app_assoc. reflexivity.
Qed.

End SupervisorProps.

Section WorkerProps.

Variable W : nats.World.
Variable Parse : Msg -> result nats.MsgMeta.
Variable ResponseSubject : nats.MsgMeta -> string.
Variable json_Marshal : nats.ResultMsg -> result bytes.
Variable selectOrder : Trace -> list worker.SelectCase.

(** A message that does not parse is negatively acked. *)
Lemma callback_parse_failure (w : worker.Worker) (ackDeadline : Duration)
      (msg : Msg) (err : error) (tr : Trace) :
  Parse msg = Err err ->
  worker.callback W Parse ResponseSubject json_Marshal selectOrder w ackDeadline msg tr
    = (Ret tt,
       tr ++ [EvLog LInfo None ("Received request " +:+ Subject msg);
              EvLog LError (Some err)
                ("Unable to handle request message: " +:+ Subject msg);
              EvMsgOp msg OpNak]).
Proof.
  intros H. unfold worker.callback, nats.msgOp. rewrite H. run_M. cbn.
  rewrite <- !app_assoc. reflexivity.
Qed.

(** A message for a handler the worker does not have is terminated, and
    no handler is started. *)
Lemma callback_unknown_handler (w : worker.Worker) (ackDeadline : Duration)
      (msg : Msg) (parsedMsg : nats.MsgMeta) (tr : Trace) :
  Parse msg = Ok parsedMsg ->
  worker.handlers w !! nats.HandlerName parsedMsg = None ->
  worker.callback W Parse ResponseSubject json_Marshal selectOrder w ackDeadline msg tr
    = (Ret tt,
       tr ++ [EvLog LInfo None ("Received request " +:+ Subject msg);
              EvNow;
              EvLog LWarn None
                ("Unknown handler call '" +:+ nats.HandlerName parsedMsg
                   +:+ "' in msg '" +:+ Subject msg +:+ "'");
              EvMsgOp msg OpTerm]).
Proof.
  intros H Hh. unfold worker.callback, nats.msgOp. rewrite H. run_M.
  cbv beta iota zeta. rewrite Hh. cbn. rewrite <- !app_assoc. reflexivity.
Qed.

(** When the handler fails, a result with status FAILURE, the error, the
    start time and the finish time is published on the response subject. *)
Lemma callback_handler_error (w : worker.Worker) (ackDeadline : Duration)
      (msg : Msg) (parsedMsg : nats.MsgMeta) (handler : worker.Handler)
      (e : error) (data : bytes) (tr tr1 : Trace) :
  let tr0 := tr ++ [EvLog LInfo None ("Received request " +:+ Subject msg)] in
  let failed := EvLog LError (Some e) ("Failed to handle request " +:+ Subject msg) in
  let result :=
    {| nats.StartedAt := Instant (nats.time_Now W tr0);
       nats.FinishedAt := Instant (nats.time_Now W (tr1 ++ [failed]));
       nats.Status := "FAILURE";
       nats.Error_ := Some e;
       nats.Response := None |} in
  Parse msg = Ok parsedMsg ->
  worker.handlers w !! nats.HandlerName parsedMsg = Some handler ->
  worker.runHandler W selectOrder msg handler ackDeadline (tr0 ++ [EvNow])
    = (Ret (Some e), tr1) ->
  json_Marshal result = Ok data ->
  exists rest,
    (worker.callback W Parse ResponseSubject json_Marshal selectOrder w
       ackDeadline msg tr).2
      = tr1 ++ [failed; EvNow;
                EvPublish (nats.publishSubject (worker.natsClient w)
                             [ResponseSubject parsedMsg]) data] ++ rest.
Proof.
  intros tr0 failed result H Hh Hrun Hjson.
  unfold worker.callback, nats.PublishResult, nats.DoubleAck, nats.msgOp.
  rewrite H. run_M. cbv beta iota zeta. rewrite Hh. fold tr0.
  rewrite Hrun. cbv beta iota zeta. cbn [nats.StartedAt nats.Response].
  fold failed. fold result. rewrite Hjson.
  rewrite Publish_run. cbv beta iota zeta.
  rewrite <- (app_assoc tr1).
  destruct (nats.js_Publish _ _ _ _) as [puback [e'|]].
  - destruct (strings_Contains (Error e') fenceText).
    + destruct (nats.msg_reply _ _ _ _); eexists; cbn;
        rewrite <- !app_assoc; reflexivity.
    + eexists. cbn. rewrite <- !app_assoc. reflexivity.
  - destruct (nats.msg_reply _ _ _ _); eexists; cbn;
      rewrite <- !app_assoc; reflexivity.
Qed.

End WorkerProps.

(** With an ack-wait of one minute the ticker has a period of 40 s.  The
    handler [tag] reports after two ticks and the supervisor returns nil;
    on a broker that fails the extension of the second tick the
    supervisor returns that error. *)
Lemma runHandler_supervision_witness :
  let m := demo.request "tag" in
  worker.runHandler (demo.world None None demo.noAckError) demo.selectOrder
      m (fun _ _ => None) Minute []
    = (Ret None,
       [EvNewTicker (40 * Second)%Z; EvGoHandler m;
        EvMsgOp m OpInProgress; EvMsgOp m OpInProgress; EvMsgOp m OpInProgress;
        EvTickerStop])
  /\ worker.runHandler (demo.world None None (demo.inProgressError 1)) demo.selectOrder
        m (fun _ _ => None) Minute []
     = (Ret (Some (errorString "nats: connection closed")),
        [EvNewTicker (40 * Second)%Z; EvGoHandler m;
         EvMsgOp m OpInProgress; EvMsgOp m OpInProgress; EvMsgOp m OpInProgress;
         EvTickerStop]).
Proof.
  intros m. split.
  - destruct (runHandler_supervision (demo.world None None demo.noAckError)
                demo.selectOrder m (fun _ _ => None) Minute [])
      as (_ & _ & H & _); [reflexivity|].
    apply (H 2%nat []); [reflexivity|]. intros j Hj. reflexivity.
  - destruct (runHandler_supervision (demo.world None None (demo.inProgressError 1))
                demo.selectOrder m (fun _ _ => None) Minute [])
      as (_ & _ & _ & H); [reflexivity|].
    apply (H 1%nat [worker.CaseHandler] (errorString "nats: connection closed"));
      [reflexivity| |reflexivity].
    intros j Hj. assert (j = 0)%nat as -> by lia. reflexivity.
Defined.

(** C4.  A request whose handler succeeds but whose final acknowledgement
    the broker does not confirm is not negatively acked: the callback logs
    the error and reports the message as acknowledged. *)
Theorem callback_ack_failure_not_nakd :
  let m := demo.request "tag" in
  let out :=
    worker.callback (demo.world None None demo.doubleAckError) demo.Parse
      demo.ResponseSubject demo.json_Marshal demo.selectOrder
      (worker.NewWorker (demo.client None None) demo.github) Minute m [] in
  out.1 = Ret tt
  /\ msgOps m out.2 = [OpInProgress; OpInProgress; OpInProgress; OpDoubleAck]
  /\ drop 9 out.2
     = [EvLog LError (Some (errorString "nats: timeout"))
          "Unable to acknowledge request message: acct.request.SEQ.c1.github.tag";
        EvLog LDebug None
          "Request message acknowledged (will not be re-sent) acct.request.SEQ.c1.github.tag"].
Proof. repeat split. Qed.

(** A handler that fails: the failure is published on the response
    subject and the request is acked. *)
Example callback_failure_reply :
  let m := demo.request "release" in
  let out :=
    worker.callback (demo.world None None demo.noAckError) demo.Parse
      demo.ResponseSubject demo.json_Marshal demo.selectOrder
      (worker.NewWorker (demo.client None None) demo.github) Minute m [] in
  (published out.2).*1 = ["acct.notify.SEQ.c1"]
  /\ msgOps m out.2 = [OpInProgress; OpInProgress; OpInProgress; OpDoubleAck].
Proof. repeat split. Qed.

(** ** Construction of the replay client *)

Lemma uuid_String_length (r : N) : String.length (nats.uuid_String r) = 36%nat.
Proof. reflexivity. Qed.

(** The first 20 characters of a UUID are 20 characters. *)
Lemma uuid_prefix_length (r : N) :
  String.length (substring 0 20 (nats.uuid_String r)) = 20%nat.
Proof. reflexivity. Qed.

(** What [Publish] adds to the trace: the broker's publish, then at most a
    log line. *)
Lemma Publish_trace (c : nats.Client) (data : bytes) (subjTokens : list string)
      (tr : Trace) :
  exists rest,
    (nats.Publish c data subjTokens tr).2
      = tr ++ EvPublish (nats.publishSubject c subjTokens) data :: rest
    /\ published rest = [].
Proof.
  rewrite Publish_run. cbv zeta.
  destruct (nats.js_Publish _ _ _ _) as [puback [e|]].
  - destruct (strings_Contains _ _); eexists; split; reflexivity.
  - eexists; split; reflexivity.
Qed.

(** Whatever the broker answers, [Publish] returns. *)
Lemma Publish_returns (c : nats.Client) (data : bytes) (subjTokens : list string)
      (tr : Trace) :
  exists r, (nats.Publish c data subjTokens tr).1 = Ret r.
Proof.
  rewrite Publish_run. cbv zeta.
  destruct (nats.js_Publish _ _ _ _) as [puback [e|]].
  - destruct (strings_Contains _ _); eexists; reflexivity.
  - eexists; reflexivity.
Qed.

Section ReplayProps.

Variable W : nats.World.

(** [initReplayConsumer], answer by answer of the broker. *)
Lemma initReplayConsumer_run (c : nats.Client) (sequenceId : string) (tr : Trace) :
  let acct := nats.accountId c in
  let source := acct +:+ ".notify." +:+ sequenceId +:+ ".event" in
  let tr1 := tr ++ [EvStream acct] in
  let tr2 := tr1 ++ [EvGetLastMsgForSubject source] in
  let id := replayId W tr2 in
  let cfg := replayConfig acct sequenceId id in
  let tr3 := tr2 ++ [EvUUID; EvCreateConsumer acct cfg] in
  nats.initReplayConsumer W c acct sequenceId tr
    = match nats.js_Stream (nats.JetStream c) tr acct with
      | Err err => (Ret (c, Some err), tr1)
      | Ok stream =>
          match nats.GetLastMsgForSubject stream tr1 source with
          | (_, Some err) =>
              (Ret (c, Some (fmt_Errorf_w "Failed to fetch source event: " err)), tr2)
          | (None, None) =>
              (Ret (c, Some (errorString
                       ("No source event found for subject '" +:+ source +:+ "'"))),
               tr2)
          | (Some rawMsg, None) =>
              match nats.js_CreateConsumer (nats.JetStream c) (tr2 ++ [EvUUID]) acct cfg with
              | Err err => (Ret (c, Some err), tr3)
              | Ok consumer =>
                  (Ret (withConsumer c consumer, None),
                   (nats.Publish c (raw_Data rawMsg) ["notify"; id; "event"] tr3).2)
              end
          end
      end.
Proof.
  intros acct source tr1 tr2 id cfg tr3.
  unfold nats.initReplayConsumer, nats.uuid_NewString. run_M. cbv beta iota zeta.
  fold acct. fold tr1.
  destruct (nats.js_Stream _ _ _) as [stream|err]; [|reflexivity].
  change (nats.SourceEventSubject acct sequenceId) with source.
  fold tr2.
  destruct (nats.GetLastMsgForSubject stream tr1 source) as [[rawMsg|] [err|]];
    try reflexivity.
  cbv beta iota zeta.
  change ("replay-" +:+ substring 0 20 (nats.uuid_String (nats.uuid_random W tr2)))
    with id.
  change (nats.ReplayFilterSubject acct id) with (acct +:+ ".notify." +:+ id +:+ ".*").
  change {| cc_Name := id; cc_Durable := "";
            cc_Description := "Replay request for sequence: '" +:+ sequenceId +:+ "'";
            cc_FilterSubject := acct +:+ ".notify." +:+ id +:+ ".*";
            cc_DeliverPolicy := DeliverAllPolicy; cc_AckWait := 0%Z |} with cfg.
  replace ((tr2 ++ [EvUUID]) ++ [EvCreateConsumer acct cfg]) with tr3
    by (subst tr3; rewrite <- app_assoc; reflexivity).
  destruct (nats.js_CreateConsumer _ _ _ _) as [consumer|err]; [|reflexivity].
  change nats.ChannelNotify with "notify".
  destruct (Publish_returns c (raw_Data rawMsg) ["notify"; id; "event"] tr3) as [r Hr].
  destruct (nats.Publish c (raw_Data rawMsg) ["notify"; id; "event"] tr3) as [o t].
  cbn in Hr. subst o. reflexivity.
Qed.

(** [NewReplayClient] once the connection and the JetStream context are
    obtained. *)
Lemma NewReplayClient_run (natsUrl accountId sequenceId : string) (tr : Trace)
      (nc : nats.Conn) (js : nats.jetstream_JetStream) :
  let c := {| nats.NatsConn := nc; nats.JetStream := js; nats.Consumer := None;
              nats.accountId := accountId |} in
  let tr0 := tr ++ [EvConnect natsUrl nats.connectOptions; EvJetStreamNew] in
  nats.nats_Connect W tr natsUrl nats.connectOptions = Ok nc ->
  nats.jetstream_New nc (tr ++ [EvConnect natsUrl nats.connectOptions]) = Ok js ->
  nats.NewReplayClient W natsUrl accountId sequenceId tr
    = match nats.initReplayConsumer W c accountId sequenceId tr0 with
      | (Ret (c', None), t) => (Ret (Some c', None), t)
      | (Ret (_, Some err), t) => (Ret (None, Some err), t ++ [EvDrain])
      | (Panic e, t) => (Panic e, t)
      | (Blocked, t) => (Blocked, t)
      end.
Proof.
  intros c tr0 Hnc Hjs. unfold nats.NewReplayClient, nats.Close. run_M.
  rewrite Hnc. cbv beta iota zeta. rewrite Hjs. cbv beta iota zeta.
  fold c. replace ((tr ++ [EvConnect natsUrl nats.connectOptions]) ++ [EvJetStreamNew])
    with tr0 by (subst tr0; rewrite <- app_assoc; reflexivity).
  destruct (nats.initReplayConsumer W c accountId sequenceId tr0)
    as [[[c' [err|]]|e|] t]; reflexivity.
Qed.

(** C9.  Replay construction for the sequence [sequenceId], once the
    stream of the account is obtained.  When the stream returns no last
    message for [{account}.notify.{sequenceId}.event] (none, or an error)
    the construction fails and nothing is created or published.
    Otherwise it mints the id ["replay-"] followed by 20 characters and
    asks for a consumer named by that id, not durable, filtered on
    [{account}.notify.{id}.*], delivering all; and once that consumer is
    created it publishes the payload of the source message on
    [{account}.notify.{id}.event] (and nothing else) and returns nil with
    the consumer set. *)
Theorem initReplayConsumer_replay (c : nats.Client) (sequenceId : string)
        (tr : Trace) (stream : nats.Stream) :
  let acct := nats.accountId c in
  let source := acct +:+ ".notify." +:+ sequenceId +:+ ".event" in
  let tr1 := tr ++ [EvStream acct] in
  let tr2 := tr1 ++ [EvGetLastMsgForSubject source] in
  let id := "replay-" +:+ substring 0 20 (nats.uuid_String (nats.uuid_random W tr2)) in
  let cfg := {| cc_Name := id;
                cc_Durable := "";
                cc_Description := "Replay request for sequence: '" +:+ sequenceId +:+ "'";
                cc_FilterSubject := acct +:+ ".notify." +:+ id +:+ ".*";
                cc_DeliverPolicy := DeliverAllPolicy;
                cc_AckWait := 0%Z |} in
  let tr3 := tr2 ++ [EvUUID; EvCreateConsumer acct cfg] in
  let run := nats.initReplayConsumer W c acct sequenceId tr in
  nats.js_Stream (nats.JetStream c) tr acct = Ok stream ->
  (forall rawMsg err,
      nats.GetLastMsgForSubject stream tr1 source = (rawMsg, err) ->
      rawMsg = None \/ err <> None ->
      exists e, run = (Ret (c, Some e), tr2))
  /\ (forall rawMsg,
        nats.GetLastMsgForSubject stream tr1 source = (Some rawMsg, None) ->
        (exists suffix, id = "replay-" +:+ suffix /\ String.length suffix = 20%nat)
        /\ ephemeral cfg = true
        /\ (exists rest, run.2 = tr3 ++ rest)
        /\ (forall consumer,
              nats.js_CreateConsumer (nats.JetStream c) (tr2 ++ [EvUUID]) acct cfg
                = Ok consumer ->
              exists rest,
                run = (Ret (withConsumer c consumer, None),
                       tr3 ++ EvPublish (acct +:+ ".notify." +:+ id +:+ ".event")
                                        (raw_Data rawMsg) :: rest)
                /\ published rest = [])).
Proof.
  intros acct source tr1 tr2 id cfg tr3 run Hstream. subst run.
  rewrite initReplayConsumer_run. cbv zeta.
  fold acct. fold source. fold tr1. fold tr2.
  change (replayId W tr2) with id. change (replayConfig acct sequenceId id) with cfg.
  fold tr3. rewrite Hstream.
  split.
  - intros rawMsg err -> Hnone.
    destruct err as [err|]; [destruct rawMsg; eexists; reflexivity|].
    destruct Hnone as [->|Hne]; [eexists; reflexivity|congruence].
  - intros rawMsg ->.
    split; [exists (substring 0 20 (nats.uuid_String (nats.uuid_random W tr2)));
            split; [reflexivity|apply uuid_prefix_length]|].
    split; [reflexivity|].
    destruct (Publish_trace c (raw_Data rawMsg) ["notify"; id; "event"] tr3)
      as (rest & Hrest & Hpub).
    change (nats.publishSubject c ["notify"; id; "event"])
      with (acct +:+ ".notify." +:+ id +:+ ".event") in Hrest.
    split.
    + destruct (nats.js_CreateConsumer _ _ _ _) as [consumer|err].
      * eexists. cbn [snd]. rewrite Hrest. reflexivity.
      * exists []. cbn [snd]. rewrite app_nil_r. reflexivity.
    + intros consumer ->. exists rest. rewrite Hrest. split; [reflexivity|exact Hpub].
Qed.

(** C10.  The seed publish is unchecked.  When the source message is
    fetched and the replay consumer is created but the broker fails the
    publish of the source payload under the replay sequence id,
    [initReplayConsumer] still returns nil, and [NewReplayClient] hands
    back the client with that consumer; the failed publish is the only
    publish that was made. *)
Theorem NewReplayClient_seed_unchecked (natsUrl accountId sequenceId : string)
        (tr : Trace) (nc : nats.Conn) (js : nats.jetstream_JetStream)
        (stream : nats.Stream) (rawMsg : RawStreamMsg)
        (consumer : nats.jetstream_Consumer) (puback : option PubAck) (err : error) :
  let c := {| nats.NatsConn := nc; nats.JetStream := js; nats.Consumer := None;
              nats.accountId := accountId |} in
  let tr0 := tr ++ [EvConnect natsUrl nats.connectOptions; EvJetStreamNew] in
  let source := accountId +:+ ".notify." +:+ sequenceId +:+ ".event" in
  let tr1 := tr0 ++ [EvStream accountId] in
  let tr2 := tr1 ++ [EvGetLastMsgForSubject source] in
  let id := replayId W tr2 in
  let cfg := replayConfig accountId sequenceId id in
  let tr3 := tr2 ++ [EvUUID; EvCreateConsumer accountId cfg] in
  let seed := accountId +:+ ".notify." +:+ id +:+ ".event" in
  nats.nats_Connect W tr natsUrl nats.connectOptions = Ok nc ->
  nats.jetstream_New nc (tr ++ [EvConnect natsUrl nats.connectOptions]) = Ok js ->
  nats.js_Stream js tr0 accountId = Ok stream ->
  nats.GetLastMsgForSubject stream tr1 source = (Some rawMsg, None) ->
  nats.js_CreateConsumer js (tr2 ++ [EvUUID]) accountId cfg = Ok consumer ->
  nats.js_Publish js tr3 seed (raw_Data rawMsg) = (puback, Some err) ->
  (nats.initReplayConsumer W c accountId sequenceId tr0).1
    = Ret (withConsumer c consumer, None)
  /\ (nats.NewReplayClient W natsUrl accountId sequenceId tr).1
     = Ret (Some (withConsumer c consumer), None)
  /\ published (nats.NewReplayClient W natsUrl accountId sequenceId tr).2
     = published tr ++ [(seed, raw_Data rawMsg)].
Proof.
  intros c tr0 source tr1 tr2 id cfg tr3 seed Hnc Hjs Hstream Hlast Hcons Hpub.
  rewrite (NewReplayClient_run natsUrl accountId sequenceId tr nc js Hnc Hjs).
  fold c. fold tr0.
  pose proof (initReplayConsumer_run c sequenceId tr0) as Hrun.
  cbv zeta in Hrun. change (nats.accountId c) with accountId in Hrun.
  fold source in Hrun. fold tr1 in Hrun. fold tr2 in Hrun.
  change (replayId W tr2) with id in Hrun.
  change (replayConfig accountId sequenceId id) with cfg in Hrun. fold tr3 in Hrun.
  change (nats.JetStream c) with js in Hrun.
  rewrite Hstream, Hlast, Hcons in Hrun. rewrite Hrun. cbn [fst snd].
  split; [reflexivity|]. split; [reflexivity|].
  rewrite Publish_run. cbv zeta.
  change (nats.publishSubject c ["notify"; id; "event"]) with seed.
  change (nats.JetStream c) with js. rewrite Hpub.
  assert (Htr3 : published tr3 = published tr).
  { subst tr3 tr2 tr1 tr0. unfold published. rewrite !omap_app. cbn.
    rewrite !app_nil_r. reflexivity. }
  destruct (strings_Contains (Error err) fenceText); cbn [snd];
    unfold published in *; rewrite omap_app, Htr3; reflexivity.
Qed.

End ReplayProps.

(** The stored sequence [SEQ] is replayed under the id minted from the
    UUID; a sequence without a source event is not. *)
Lemma initReplayConsumer_replay_witness :
  let W := demo.world None None demo.noAckError in
  let c := demo.client None None in
  (exists e, (nats.initReplayConsumer W c (nats.accountId c) "NONE" []).1
             = Ret (c, Some e))
  /\ published (nats.initReplayConsumer W c (nats.accountId c) "SEQ" []).2
     = [("acct.notify.replay-12345678-9abc-4ef0-9.event", list_byte_of_string "{}")].
Proof.
  intros W c. split.
  - destruct (initReplayConsumer_replay W c "NONE" [] _ eq_refl) as [H _].
    destruct (H None (Some (errorString "nats: message not found")) eq_refl) as [e He];
      [left; reflexivity|].
    exists e. rewrite He. reflexivity.
  - destruct (initReplayConsumer_replay W c "SEQ" [] _ eq_refl) as [_ H].
    destruct (H {| raw_Subject := "acct.notify.SEQ.event"; raw_Sequence := 1;
                   raw_Data := list_byte_of_string "{}" |} eq_refl)
      as (_ & _ & _ & Hc).
    destruct (Hc _ eq_refl) as (rest & Hrun & Hrest).
    rewrite Hrun. cbn [snd]. unfold published in *.
    rewrite omap_app. cbn [omap list_omap]. rewrite Hrest. vm_compute. reflexivity.
Defined.

(** On a broker that times out on the seed publish, the replay client is
    handed back all the same. *)
Lemma NewReplayClient_seed_unchecked_witness :
  let e := errorString "nats: timeout" in
  let W := demo.world (Some e) None demo.noAckError in
  (exists c, (nats.NewReplayClient W "nats://localhost:4222" "acct" "SEQ" []).1
             = Ret (Some c, None))
  /\ published (nats.NewReplayClient W "nats://localhost:4222" "acct" "SEQ" []).2
     = [("acct.notify.replay-12345678-9abc-4ef0-9.event", list_byte_of_string "{}")].
Proof.
  intros e W.
  destruct (NewReplayClient_seed_unchecked W "nats://localhost:4222" "acct" "SEQ" []
              _ _ _
              {| raw_Subject := "acct.notify.SEQ.event"; raw_Sequence := 1;
                 raw_Data := list_byte_of_string "{}" |}
              _ None e eq_refl eq_refl eq_refl eq_refl eq_refl eq_refl)
    as (_ & H1 & H2).
  split; [eexists; exact H1|exact H2].
Defined.

(** ** Cutting a task type *)

Lemma substring_all (s : string) : substring 0 (String.length s) s = s.
Proof. induction s as [|a s IH]; [reflexivity|]. cbn. rewrite IH. reflexivity. Qed.

Lemma prefix_char (ch a : ascii) (s : string) :
  String.prefix (String ch "") (String a s) = bool_decide (ch = a).
Proof.
  cbn. destruct (ascii_dec ch a) as [->|Hne].
  - rewrite bool_decide_eq_true_2 by reflexivity. destruct s; reflexivity.
  - rewrite bool_decide_eq_false_2 by assumption. reflexivity.
Qed.

(** [strings.Cut] on a one-byte separator: when the separator occurs, the
    string is cut in the part before its first occurrence, which does not
    hold it, and the part after; when it does not occur nothing is cut. *)
Lemma strings_Cut_char (s : string) (ch : ascii) :
  match strings_Cut s (String ch "") with
  | (before, after, true) =>
      s = before +:+ String ch after
      /\ strings_Contains before (String ch "") = false
      /\ strings_Contains s (String ch "") = true
  | (before, after, false) =>
      before = s /\ after = "" /\ strings_Contains s (String ch "") = false
  end.
Proof.
  unfold strings_Cut, strings_Contains.
  induction s as [|a s IH].
  - cbn. repeat split.
  - cbn [strings_Index]. rewrite prefix_char.
    destruct (decide (ch = a)) as [->|Hne].
    + rewrite bool_decide_eq_true_2 by reflexivity.
      cbn. rewrite Nat.sub_0_r, substring_all. repeat split.
    + rewrite bool_decide_eq_false_2 by assumption.
      destruct (strings_Index s (String ch "")) as [i|]; cbn in IH |- *.
      * destruct IH as (Hs & Hb & _).
        destruct (ascii_dec ch a) as [|_]; [contradiction|].
        split; [exact (f_equal (String a) Hs)|]. split; [|reflexivity].
        destruct (strings_Index (substring 0 i s) (String ch "")); [discriminate|reflexivity].
      * repeat split.
Qed.

(** ** Lists updated in place *)

Lemma omap_insert_same {A B} (f : A -> option B) (l : list A) (i : nat) (x y : A) :
  l !! i = Some x -> f x = f y -> omap f (<[i := y]> l) = omap f l.
Proof.
  revert i. induction l as [|a l IH]; intros [|i] Hi Hf; try discriminate.
  - injection Hi as ->. cbn. rewrite Hf. reflexivity.
  - specialize (IH i Hi Hf).
    change (omap f (<[S i:=y]> (a :: l)))
      with (match f a with
            | Some b => b :: omap f (<[i:=y]> l)
            | None => omap f (<[i:=y]> l)
            end).
    rewrite IH. reflexivity.
Qed.

Lemma omap_insert_None {A B} (f : A -> option B) (l : list A) (i : nat) (x y : A) :
  l !! i = Some x -> f x = None ->
  omap f (<[i := y]> l) ≡ₚ option_list (f y) ++ omap f l.
Proof.
  revert i. induction l as [|a l IH]; intros [|i] Hi Hf; try discriminate.
  - injection Hi as ->. cbn. rewrite Hf. destruct (f y); reflexivity.
  - specialize (IH i Hi Hf).
    change (omap f (<[S i:=y]> (a :: l)))
      with (match f a with
            | Some b => b :: omap f (<[i:=y]> l)
            | None => omap f (<[i:=y]> l)
            end).
    cbn [omap list_omap].
    destruct (f a); rewrite IH; [|reflexivity].
    destruct (f y); cbn; [apply perm_swap|reflexivity].
Qed.

Lemma published_app (tr1 tr2 : Trace) :
  published (tr1 ++ tr2) = published tr1 ++ published tr2.
Proof. unfold published. apply omap_app. Qed.

(** ** Dispatching calls *)

(** A call whose task type has no separator fails, and does nothing else. *)
Lemma dispatchCall_malformed (r : runner.Runner) (call : dsl.CallAST)
      (sequenceId : string) (tr : Trace) :
  strings_Contains (dsl.call_TaskType call) "_" = false ->
  runner.dispatchCall r call sequenceId tr = (Ret (Some (DispatchParseError call)), tr).
Proof.
  intros H. unfold runner.dispatchCall.
  pose proof (strings_Cut_char (dsl.call_TaskType call) "_") as Hcut.
  destruct (strings_Cut _ _) as [[app handler] [|]].
  - destruct Hcut as (_ & _ & Hc). congruence.
  - reflexivity.
Qed.

Section RunnerProps.

Variable W : nats.World.
Variable Parse : Msg -> result nats.MsgMeta.
Variable c : nats.Client.
Variable body : hcl_Body.

Let r : runner.Runner :=
  {| runner.hops := body;
     runner.natsClient := runner.Client_NatsClient W Parse c |}.

Let acct : string := nats.accountId c.

(** [dispatchCall] of a runner on the broker client, answer by answer. *)
Lemma dispatchCall_run (call : dsl.CallAST) (sequenceId : string) (tr : Trace) :
  runner.dispatchCall r call sequenceId tr
    = match strings_Cut (dsl.call_TaskType call) "_" with
      | (app, handler, false) => (Ret (Some (DispatchParseError call)), tr)
      | (app, handler, true) =>
          let subject := acct +:+ ".request." +:+ sequenceId +:+ "."
                           +:+ dsl.call_Slug call +:+ "." +:+ app +:+ "." +:+ handler in
          let pub := EvPublish subject (dsl.call_Inputs call) in
          let dispatched := EvLog LInfo None ("Dispatched call: " +:+ dsl.call_Slug call) in
          match nats.js_Publish (nats.JetStream c) tr subject (dsl.call_Inputs call) with
          | (_, Some e) =>
              if strings_Contains (Error e) fenceText
              then (Ret None,
                    tr ++ [pub;
                           EvLog LDebug None ("Skipping duplicate message " +:+ subject);
                           dispatched])
              else if strings_Contains (Error e) "err_code=10077"
                   then (Ret None, tr ++ [pub])
                   else (Ret (Some e), tr ++ [pub])
          | (_, None) =>
              (Ret None,
               tr ++ [pub; EvLog LDebug None ("Message sent " +:+ subject); dispatched])
          end
      end.
Proof.
  unfold runner.dispatchCall.
  destruct (strings_Cut _ _) as [[app handler] [|]]; [|reflexivity].
  cbn [negb]. subst r. cbn [runner.natsClient runner.Publish runner.Client_NatsClient].
  run_M. rewrite Publish_run. cbv zeta.
  change (nats.publishSubject c
            [nats.ChannelRequest; sequenceId; dsl.call_Slug call; app; handler])
    with (acct +:+ ".request." +:+ sequenceId +:+ "."
            +:+ dsl.call_Slug call +:+ "." +:+ app +:+ "." +:+ handler).
  destruct (nats.js_Publish _ _ _ _) as [puback [e|]].
  - destruct (strings_Contains (Error e) fenceText).
    + cbn. rewrite <- app_assoc. reflexivity.
    + cbn. destruct (strings_Contains (Error e) "err_code=10077"); reflexivity.
  - cbn. rewrite <- app_assoc. reflexivity.
Qed.

(** [dispatchCall] returns, and what it adds to the trace holds the
    request of the call and no other publish. *)
Lemma dispatchCall_trace (call : dsl.CallAST) (sequenceId : string) (tr : Trace) :
  exists err rest,
    runner.dispatchCall r call sequenceId tr = (Ret err, tr ++ rest)
    /\ published rest = option_list (requestOf acct sequenceId call).
Proof.
  rewrite dispatchCall_run. unfold requestOf.
  destruct (strings_Cut _ _) as [[app handler] [|]].
  - cbv zeta. destruct (nats.js_Publish _ _ _ _) as [puback [e|]].
    + destruct (strings_Contains (Error e) fenceText);
        [|destruct (strings_Contains (Error e) "err_code=10077")];
        eexists _, _; split; reflexivity.
    + eexists _, _; split; reflexivity.
  - exists (Some (DispatchParseError call)), []. rewrite app_nil_r. split; reflexivity.
Qed.

(** A call succeeds exactly when its task type has a separator and the
    broker accepts the publish of its request. *)
Lemma dispatchCall_ok_iff (call : dsl.CallAST) (sequenceId : string) (tr : Trace) :
  (runner.dispatchCall r call sequenceId tr).1 = Ret None
  <-> exists subject,
        requestOf acct sequenceId call = Some (subject, dsl.call_Inputs call)
        /\ accepted (nats.js_Publish (nats.JetStream c) tr subject (dsl.call_Inputs call)).
Proof.
  rewrite dispatchCall_run. unfold requestOf, accepted.
  destruct (strings_Cut _ _) as [[app handler] [|]].
  - cbv zeta. split.
    + intros H. eexists. split; [reflexivity|].
      destruct (nats.js_Publish _ _ _ _) as [puback [e|]]; cbn [snd]; [|exact I].
      destruct (strings_Contains (Error e) fenceText); [left; reflexivity|].
      destruct (strings_Contains (Error e) "err_code=10077"); [right; reflexivity|].
      discriminate.
    + intros (subject & [= <-] & H).
      destruct (nats.js_Publish _ _ _ _) as [puback [e|]]; cbn [snd] in H; [|reflexivity].
      destruct (strings_Contains (Error e) fenceText); [reflexivity|].
      destruct (strings_Contains (Error e) "err_code=10077"); [reflexivity|].
      destruct H; discriminate.
  - split; [discriminate|]. intros (subject & [=] & _).
Qed.

Lemma dispatchedIn_mono (sequenceId : string) (tr0 tr0' tr tr' : Trace)
      (call : dsl.CallAST) (err : option error) :
  tr0' `prefix_of` tr0 -> tr `prefix_of` tr' ->
  dispatchedIn r sequenceId tr0 tr call err ->
  dispatchedIn r sequenceId tr0' tr' call err.
Proof.
  intros H0 H1 (pt & Hpt & Hret & Hend). exists pt.
  split; [etrans; eassumption|]. split; [exact Hret|etrans; eassumption].
Qed.

Lemma ranIn_mono (sequenceId : string) (tr0 tr tr' : Trace) (g : runner.goroutine) :
  tr `prefix_of` tr' ->
  ranIn r sequenceId tr0 tr g -> ranIn r sequenceId tr0 tr' g.
Proof.
  intros H. unfold ranIn. destruct (runner.g_stage g); [trivial| |];
    apply dispatchedIn_mono; (reflexivity || exact H).
Qed.

Lemma rankAt_insert (gs : list runner.goroutine) (chan chan' : list (option error))
      (i j : nat) (g g' : runner.goroutine) :
  gs !! i = Some g -> rank g <= rank g' ->
  rankAt {| runner.goroutines := gs; runner.errorchan := chan |} j
  <= rankAt {| runner.goroutines := <[i := g']> gs; runner.errorchan := chan' |} j.
Proof.
  intros Hi Hr. unfold rankAt. cbn [runner.goroutines].
  destruct (decide (i = j)) as [<-|Hne].
  - rewrite list_lookup_insert_eq by (eapply lookup_lt_Some; exact Hi).
    rewrite Hi. exact Hr.
  - rewrite list_lookup_insert_ne by assumption. reflexivity.
Qed.

(** One step of a goroutine keeps the invariant, lets no goroutine fall
    back, and brings the goroutine that steps one stage further. *)
Lemma step_inv (sequenceId : string) (calls : list dsl.CallAST) (tr0 : Trace)
      (i : nat) (t : runner.tasks) (tr : Trace) :
  dispatchInv r acct sequenceId calls tr0 t tr ->
  exists t' tr',
    runner.step r sequenceId i t tr = (Ret t', tr')
    /\ dispatchInv r acct sequenceId calls tr0 t' tr'
    /\ (forall j, rankAt t j <= rankAt t' j)
    /\ Nat.min 2 (S (rankAt t i)) <= rankAt t' i.
Proof.
  intros [Hcalls Hchan Hpub Hran Hpre].
  destruct t as [gs chan]. cbn [runner.goroutines runner.errorchan] in *.
  unfold runner.step. cbn [runner.goroutines runner.errorchan].
  destruct (gs !! i) as [[call [|err|err]]|] eqn:Hi.
  - destruct (dispatchCall_trace call sequenceId tr) as (err & rest & Hrun & Hrest).
    run_M. rewrite Hrun.
    eexists _, _. split; [reflexivity|].
    split; [constructor; cbn [runner.goroutines runner.errorchan]|split].
    + rewrite list_fmap_insert, list_insert_id; [exact Hcalls|].
      rewrite list_lookup_fmap, Hi. reflexivity.
    + rewrite (omap_insert_same sent _ _ _ _ Hi) by reflexivity. exact Hchan.
    + rewrite published_app, Hrest, Hpub.
      rewrite (omap_insert_None (asked acct sequenceId) _ _ _ _ Hi) by reflexivity.
      rewrite <- app_assoc. apply Permutation_app_head.
      apply Permutation_app_comm.
    + apply Forall_insert.
      * eapply Forall_impl; [exact Hran|]. intros g. apply ranIn_mono.
        apply prefix_app_r. reflexivity.
      * unfold ranIn. cbn [runner.g_stage runner.g_call].
        exists tr. rewrite Hrun. split; [exact Hpre|]. split; reflexivity.
    + apply prefix_app_r. exact Hpre.
    + intros j. apply (rankAt_insert _ _ _ _ _ _ _ Hi). cbn. lia.
    + unfold rankAt. cbn [runner.goroutines].
      rewrite Hi, list_lookup_insert_eq by (eapply lookup_lt_Some; exact Hi).
      cbn. lia.
  - run_M. eexists _, _. split; [reflexivity|].
    split; [constructor; cbn [runner.goroutines runner.errorchan]|split].
    + rewrite list_fmap_insert, list_insert_id; [exact Hcalls|].
      rewrite list_lookup_fmap, Hi. reflexivity.
    + rewrite (omap_insert_None sent _ _ _ _ Hi) by reflexivity.
      rewrite Hchan. cbn. symmetry. apply Permutation_cons_append.
    + rewrite (omap_insert_same (asked acct sequenceId) _ _ _ _ Hi) by reflexivity.
      exact Hpub.
    + apply Forall_insert; [exact Hran|].
      pose proof (proj1 (Forall_lookup _ _) Hran _ _ Hi) as Hg. exact Hg.
    + exact Hpre.
    + intros j. apply (rankAt_insert _ _ _ _ _ _ _ Hi). cbn. lia.
    + unfold rankAt. cbn [runner.goroutines].
      rewrite Hi, list_lookup_insert_eq by (eapply lookup_lt_Some; exact Hi).
      cbn. lia.
  - run_M. eexists _, _. split; [reflexivity|].
    split; [constructor; assumption|]. split; [reflexivity|].
    unfold rankAt. cbn [runner.goroutines]. rewrite Hi. cbn. lia.
  - run_M. eexists _, _. split; [reflexivity|].
    split; [constructor; assumption|]. split; [reflexivity|].
    unfold rankAt. cbn [runner.goroutines]. rewrite Hi. cbn. lia.
Qed.

(** A schedule keeps the invariant, lets no goroutine fall back, and
    brings every goroutine it names one stage further. *)
Lemma run_inv (sequenceId : string) (calls : list dsl.CallAST) (tr0 : Trace)
      (sched : list nat) (t : runner.tasks) (tr : Trace) :
  dispatchInv r acct sequenceId calls tr0 t tr ->
  exists t' tr',
    runner.run r sequenceId sched t tr = (Ret t', tr')
    /\ dispatchInv r acct sequenceId calls tr0 t' tr'
    /\ (forall j, rankAt t j <= rankAt t' j)
    /\ (forall j, j ∈ sched -> Nat.min 2 (S (rankAt t j)) <= rankAt t' j).
Proof.
  revert t tr. induction sched as [|i sched IH]; intros t tr Hinv.
  - exists t, tr. split; [reflexivity|]. split; [exact Hinv|].
    split; [reflexivity|]. intros j Hj. inversion Hj.
  - destruct (step_inv sequenceId calls tr0 i t tr Hinv)
      as (t1 & tr1 & Hstep & Hinv1 & Hmono1 & Hi).
    destruct (IH t1 tr1 Hinv1) as (t2 & tr2 & Hrun & Hinv2 & Hmono2 & Hsched).
    exists t2, tr2. split.
    { cbn [runner.run]. run_M. rewrite Hstep. exact Hrun. }
    split; [exact Hinv2|]. split.
    { intros j. etrans; [apply Hmono1|apply Hmono2]. }
    intros j Hj. apply elem_of_cons in Hj as [->|Hj].
    + etrans; [exact Hi|apply Hmono2].
    + specialize (Hsched j Hj). specialize (Hmono1 j). lia.
Qed.

Lemma run_app (sequenceId : string) (s1 s2 : list nat) (t : runner.tasks) (tr : Trace) :
  runner.run r sequenceId (s1 ++ s2) t tr
    = match runner.run r sequenceId s1 t tr with
      | (Ret t', tr') => runner.run r sequenceId s2 t' tr'
      | (Panic e, tr') => (Panic e, tr')
      | (Blocked, tr') => (Blocked, tr')
      end.
Proof.
  revert t tr. induction s1 as [|i s1 IH]; intros t tr; [reflexivity|].
  cbn [app runner.run]. run_M.
  destruct (runner.step r sequenceId i t tr) as [[t1|e|] tr1]; [apply IH|reflexivity..].
Qed.

(** When every goroutine is done, what they sent answers the calls one by
    one, and what they asked of the broker are the requests of the calls. *)
Lemma all_finished (sequenceId : string) (tr0 tr : Trace) (gs : list runner.goroutine) :
  Forall (fun g => rank g = 2) gs ->
  Forall (ranIn r sequenceId tr0 tr) gs ->
  Forall2 (dispatchedIn r sequenceId tr0 tr) (runner.g_call <$> gs) (omap sent gs)
  /\ omap (asked acct sequenceId) gs = requestsOf acct sequenceId (runner.g_call <$> gs).
Proof.
  induction 1 as [|[call [|err|err]] gs Hg Hall IH]; intros Hran;
    [| cbn in Hg; lia .. |].
  - split; [constructor|reflexivity].
  - apply Forall_cons in Hran as [Hr Hran]. destruct (IH Hran) as [IH1 IH2].
    split.
    + cbn. constructor; [exact Hr|exact IH1].
    + unfold requestsOf in *. cbn [fmap list_fmap omap list_omap runner.g_call].
      change (asked acct sequenceId
                {| runner.g_call := call; runner.g_stage := runner.Finished err |})
        with (requestOf acct sequenceId call).
      rewrite IH2. reflexivity.
Qed.

Variable scheduler : Trace -> list nat.

Lemma errors_Join_None (errs err : option error) :
  errors_Join [errs; err] = None <-> errs = None /\ err = None.
Proof. destruct errs, err; cbn; split; (intros [? ?] || intros ?); (discriminate || auto). Qed.

(** The errors read from the channel join to nil exactly when all are nil. *)
Lemma joinAll_None_iff (chan : list (option error)) :
  runner.joinAll chan = None <-> Forall (eq None) chan.
Proof.
  unfold runner.joinAll.
  assert (H : forall acc,
             foldl (fun errs err => errors_Join [errs; err]) acc chan = None
             <-> acc = None /\ Forall (eq None) chan).
  { induction chan as [|e chan IH]; intros acc; cbn [foldl].
    - split; [intros ->; split; constructor|intros [-> _]; reflexivity].
    - rewrite IH, errors_Join_None, Forall_cons. intuition congruence. }
  rewrite H. intuition.
Qed.

Lemma initial_goroutines (sequenceId : string) (calls : list dsl.CallAST) :
  let gs := (fun call => {| runner.g_call := call; runner.g_stage := runner.Running |})
              <$> calls in
  runner.g_call <$> gs = calls
  /\ omap sent gs = []
  /\ omap (asked acct sequenceId) gs = []
  /\ length gs = length calls.
Proof.
  induction calls as [|call calls (IH1 & IH2 & IH3 & IH4)]; cbn.
  - repeat split.
  - rewrite IH1. cbn in IH2, IH3, IH4. rewrite IH2, IH3, IH4. repeat split.
Qed.

(** [dispatchCalls]: whatever the scheduler does, every call of the [On]
    is dispatched, the channel holds what the calls returned in some
    order, and the requests of the calls are what is published. *)
Lemma dispatchCalls_run (sensor : dsl.OnAST) (sequenceId : string) (tr : Trace) :
  exists outs chan tr',
    runner.dispatchCalls scheduler r sensor sequenceId tr
      = (Ret (runner.joinAll chan), tr')
    /\ chan ≡ₚ outs
    /\ Forall2 (dispatchedIn r sequenceId tr tr') (dsl.on_Calls sensor) outs
    /\ published tr' ≡ₚ published tr ++ requestsOf acct sequenceId (dsl.on_Calls sensor)
    /\ tr `prefix_of` tr'.
Proof.
  set (calls := dsl.on_Calls sensor).
  set (tr0 := tr ++ [EvLog LInfo None "Running on calls"]).
  set (gs0 := (fun call => {| runner.g_call := call; runner.g_stage := runner.Running |})
                <$> calls).
  set (t0 := {| runner.goroutines := gs0; runner.errorchan := [] |}).
  destruct (initial_goroutines sequenceId calls) as (Hc0 & Hs0 & Ha0 & Hlen0).
  fold gs0 in Hc0, Hs0, Ha0, Hlen0.
  assert (Hinv0 : dispatchInv r acct sequenceId calls tr0 t0 tr0).
  { constructor; cbn [runner.goroutines runner.errorchan t0].
    - exact Hc0.
    - rewrite Hs0. reflexivity.
    - rewrite Ha0, app_nil_r. reflexivity.
    - subst gs0. apply Forall_fmap, Forall_forall. intros call _. exact I.
    - reflexivity. }
  set (n := length calls).
  destruct (run_inv sequenceId calls tr0 (scheduler tr0 ++ seq 0 n) t0 tr0 Hinv0)
    as (t1 & tr1 & Hrun1 & Hinv1 & _ & Hprog1).
  destruct (run_inv sequenceId calls tr0 (seq 0 n) t1 tr1 Hinv1)
    as (t2 & tr2 & Hrun2 & Hinv2 & Hmono2 & Hprog2).
  destruct Hinv2 as [Hcalls Hchan Hpub Hran Hpre].
  assert (Hdone : Forall (fun g => rank g = 2) (runner.goroutines t2)).
  { apply Forall_lookup. intros j g Hj.
    assert (Hlt : j < n).
    { apply lookup_lt_Some in Hj. subst n. rewrite <- Hcalls, length_fmap. exact Hj. }
    assert (Hin : j ∈ seq 0 n) by (apply elem_of_seq; lia).
    specialize (Hprog1 j ltac:(apply elem_of_app; right; exact Hin)).
    specialize (Hprog2 j Hin).
    unfold rankAt in Hprog2 at 2. rewrite Hj in Hprog2.
    assert (rank g <= 2) by (unfold rank; destruct (runner.g_stage g); lia).
    lia. }
  destruct (all_finished sequenceId tr0 tr2 _ Hdone Hran) as [Houts Hasked].
  rewrite Hcalls in Houts, Hasked.
  exists (omap sent (runner.goroutines t2)), (runner.errorchan t2), tr2.
  split.
  { unfold runner.dispatchCalls. run_M. fold calls. fold n. fold gs0. fold t0. fold tr0.
    rewrite app_assoc, run_app, Hrun1, Hrun2. reflexivity. }
  split; [exact Hchan|].
  assert (Htr0 : tr `prefix_of` tr0) by (apply prefix_app_r; reflexivity).
  split.
  { eapply Forall2_impl; [exact Houts|]. intros call err.
    apply dispatchedIn_mono; [exact Htr0|reflexivity]. }
  split.
  { rewrite Hpub, Hasked. subst tr0. rewrite published_app. cbn.
    rewrite app_nil_r. reflexivity. }
  etrans; eassumption.
Qed.

Lemma appendAll_None_iff (acc : option error) (perOn : list (option error)) :
  appendAll acc perOn = None <-> acc = None /\ Forall (eq None) perOn.
Proof.
  unfold appendAll. revert acc.
  induction perOn as [|[e|] perOn IH]; intros acc; cbn [foldl].
  - split; [intros ->; split; constructor|intros [-> _]; reflexivity].
  - rewrite IH, Forall_cons. split; [intros [[=] _]|intros [_ [[=] _]]].
  - rewrite IH, Forall_cons. intuition.
Qed.

(** The loop over the [On] blocks: each block is dispatched, whatever the
    blocks before it returned. *)
Lemma dispatchOns_run (sequenceId : string) (ons : list dsl.OnAST)
      (acc : option error) (tr : Trace) :
  exists outs perOn tr',
    runner.dispatchOns scheduler r sequenceId ons acc tr
      = (Ret (appendAll acc perOn), tr')
    /\ Forall2 (fun on o => Forall2 (dispatchedIn r sequenceId tr tr') (dsl.on_Calls on) o)
               ons outs
    /\ Forall2 (fun o e => exists chan, chan ≡ₚ o /\ e = runner.joinAll chan) outs perOn
    /\ published tr'
         ≡ₚ published tr
              ++ concat ((fun on => requestsOf acct sequenceId (dsl.on_Calls on)) <$> ons)
    /\ tr `prefix_of` tr'.
Proof.
  revert acc tr. induction ons as [|sensor ons IH]; intros acc tr.
  - exists [], [], tr. cbn. rewrite app_nil_r.
    split; [reflexivity|]. split; [constructor|]. split; [constructor|].
    split; reflexivity.
  - destruct (dispatchCalls_run sensor sequenceId tr)
      as (o & chan & tr1 & Hrun & Hchan & Ho & Hpub & Hpre).
    set (acc1 := match runner.joinAll chan with
                 | Some err => Some (multierror_Append acc err)
                 | None => acc
                 end).
    destruct (IH acc1 tr1) as (outs & perOn & tr2 & Hrun2 & Houts & Hper & Hpub2 & Hpre2).
    exists (o :: outs), (runner.joinAll chan :: perOn), tr2.
    split.
    { cbn [runner.dispatchOns]. run_M. rewrite Hrun.
      cbn [appendAll foldl]. fold acc1. unfold appendAll in Hrun2.
      destruct (runner.joinAll chan); exact Hrun2. }
    split.
    { constructor.
      - eapply Forall2_impl; [exact Ho|]. intros call err.
        apply dispatchedIn_mono; [reflexivity|exact Hpre2].
      - eapply Forall2_impl; [exact Houts|]. intros on o' Hon.
        eapply Forall2_impl; [exact Hon|].
        intros call err. apply dispatchedIn_mono; [exact Hpre|reflexivity]. }
    split; [constructor; [exists chan; split; [exact Hchan|reflexivity]|exact Hper]|].
    split; [|etrans; eassumption].
    rewrite Hpub2, Hpub. cbn [fmap list_fmap concat]. rewrite <- app_assoc. reflexivity.
Qed.

Lemma append_assoc (s1 s2 s3 : string) : (s1 +:+ s2) +:+ s3 = s1 +:+ (s2 +:+ s3).
Proof.
  induction s1 as [|ch s1 IH]; [reflexivity|].
  change (String ch ((s1 +:+ s2) +:+ s3) = String ch (s1 +:+ (s2 +:+ s3))).
  rewrite IH. reflexivity.
Qed.

Lemma strings_Join_snoc (ls : list string) (x sep : string) :
  ls <> [] -> strings_Join (ls ++ [x]) sep = strings_Join ls sep +:+ sep +:+ x.
Proof.
  unfold strings_Join. induction ls as [|a [|b ls] IH]; intros Hne.
  - contradiction.
  - reflexivity.
  - change (String.concat sep ((a :: b :: ls) ++ [x]))
      with (a +:+ sep +:+ String.concat sep ((b :: ls) ++ [x])).
    rewrite IH by discriminate.
    change (String.concat sep (a :: b :: ls))
      with (a +:+ sep +:+ String.concat sep (b :: ls)).
    rewrite !append_assoc. reflexivity.
Qed.

(** The loop over the channel joins the errors as the specification has
    it. *)
Lemma joinAll_joined (chan : list (option error)) : joined chan (runner.joinAll chan).
Proof.
  unfold joined, runner.joinAll.
  set (J := fun (es : list error) (e : option error) =>
              match es with
              | [] => e = None
              | _ => exists err, e = Some err
                                 /\ Error err = strings_Join (Error <$> es) newline
                                 /\ Forall (wraps err) es
              end).
  assert (H : forall pre acc,
             J pre acc ->
             J (pre ++ omap id chan)
               (foldl (fun errs err => errors_Join [errs; err]) acc chan)).
  { induction chan as [|x chan IH]; intros pre acc HJ; cbn [foldl omap list_omap].
    - rewrite app_nil_r. exact HJ.
    - destruct x as [e|]; cbn [id].
      + change (pre ++ e :: omap id chan) with (pre ++ [e] ++ omap id chan).
        rewrite app_assoc. apply IH.
        destruct pre as [|p pre]; cbn [J app] in HJ |- *.
        * subst acc. cbn. exists (joinError [e]). split; [reflexivity|].
          split; [reflexivity|]. constructor; [|constructor].
          eapply wraps_joinError; [apply list_elem_of_here|constructor].
        * destruct HJ as (a & -> & Htext & Hall). cbn [errors_Join omap list_omap id].
          exists (joinError [a; e]). split; [reflexivity|]. split.
          -- change (Error (joinError [a; e]))
               with (strings_Join [Error a; Error e] newline).
             rewrite Htext.
             change (Error <$> p :: pre ++ [e]) with (Error <$> ((p :: pre) ++ [e])).
             rewrite fmap_app. cbn [fmap list_fmap].
             rewrite strings_Join_snoc by discriminate. reflexivity.
          -- change (p :: pre ++ [e]) with ((p :: pre) ++ [e]).
             apply Forall_app. split.
             ++ eapply Forall_impl; [exact Hall|]. intros e' He'.
                eapply wraps_joinError; [apply list_elem_of_here|exact He'].
             ++ constructor; [|constructor].
                eapply wraps_joinError; [|constructor].
                apply list_elem_of_further, list_elem_of_here.
      + apply IH. destruct pre as [|p pre]; cbn [J] in HJ |- *.
        * subst acc. reflexivity.
        * destruct HJ as (a & -> & Htext & Hall). cbn [errors_Join omap list_omap id].
          exists (joinError [a]). split; [reflexivity|]. split.
          -- rewrite <- Htext. reflexivity.
          -- eapply Forall_impl; [exact Hall|]. intros e' He'.
             eapply wraps_joinError; [apply list_elem_of_here|exact He']. }
  pose proof (H [] None eq_refl) as H0. cbn [app] in H0. subst J. cbv beta in H0.
  destruct (omap id chan); exact H0.
Qed.

(** What the loop over the channel returns is nil or a joined error. *)
Lemma joinAll_joinError (chan : list (option error)) (err : error) :
  runner.joinAll chan = Some err -> exists es, err = joinError es.
Proof.
  unfold runner.joinAll.
  induction chan as [|x chan IH] using rev_ind; [discriminate|].
  rewrite foldl_app. cbn [foldl]. unfold errors_Join.
  destruct (omap id _) as [|e es]; [discriminate|].
  intros [= <-]. eexists. reflexivity.
Qed.

(** [multierror.Append] over the joined errors of the blocks. *)
Lemma appendAll_aggregated (perOn : list (option error)) :
  Forall (fun e => forall err, e = Some err -> exists es, err = joinError es) perOn ->
  aggregated perOn (appendAll None perOn).
Proof.
  intros Hj. unfold aggregated, appendAll.
  assert (H : forall pre,
             Forall (fun e => exists es, e = joinError es) pre ->
             let acc := match pre with [] => None | _ => Some (multiError pre) end in
             let res := foldl (fun acc err => match err with
                                              | Some err => Some (multierror_Append acc err)
                                              | None => acc
                                              end) acc perOn in
             match pre ++ omap id perOn with
             | [] => res = None
             | es => res = Some (multiError es)
             end).
  { induction Hj as [|x perOn Hx _ IH]; intros pre Hpre; cbv zeta; cbn [foldl omap list_omap].
    - rewrite app_nil_r. destruct pre; reflexivity.
    - destruct x as [e|]; cbn [id].
      + destruct (Hx e eq_refl) as (es & ->).
        change (pre ++ joinError es :: omap id perOn)
          with (pre ++ [joinError es] ++ omap id perOn).
        rewrite app_assoc.
        assert (Hpre' : Forall (fun e => exists es, e = joinError es) (pre ++ [joinError es])).
        { apply Forall_app. split; [exact Hpre|]. constructor; [eexists; reflexivity|constructor]. }
        specialize (IH (pre ++ [joinError es]) Hpre'). cbv zeta in IH.
        destruct pre as [|p pre]; cbn [app] in IH |- *; exact IH.
      + apply (IH pre Hpre). }
  apply (H []). constructor.
Qed.

(** The result [dispatchCall] returned for a call follows from the
    broker's answer to the request of the call. *)
Lemma dispatchedIn_answered (sequenceId : string) (tr tr' : Trace)
      (call : dsl.CallAST) (err : option error) :
  dispatchedIn r sequenceId tr tr' call err ->
  exists pt,
    tr `prefix_of` pt
    /\ pt `prefix_of` tr'
    /\ answered c sequenceId pt call err
    /\ forall subject inputs,
         requestOf acct sequenceId call = Some (subject, inputs) ->
         pt ++ [EvPublish subject inputs] `prefix_of` tr'.
Proof.
  intros (pt & Hpt & Hret & Hend). exists pt. split; [exact Hpt|].
  rewrite dispatchCall_run in Hret, Hend. unfold answered, requestOf. fold acct.
  destruct (strings_Cut _ _) as [[app handler] [|]].
  - cbv zeta in Hret, Hend.
    destruct (nats.js_Publish _ _ _ _) as [puback [e|]]; cbn [snd].
    + destruct (strings_Contains (Error e) fenceText);
        [|destruct (strings_Contains (Error e) "err_code=10077")];
        cbn [fst snd orb] in Hret, Hend |- *; injection Hret as <-;
        (split; [etrans; [|exact Hend]; apply prefix_app_r; reflexivity|]);
        (split; [reflexivity|]); intros subject inputs [= <- <-];
        (etrans; [|exact Hend]); apply prefix_app, prefix_cons, prefix_nil.
    + cbn [fst snd] in Hret, Hend. injection Hret as <-.
      split; [etrans; [|exact Hend]; apply prefix_app_r; reflexivity|].
      split; [reflexivity|]. intros subject inputs [= <- <-].
      etrans; [|exact Hend]. apply prefix_app, prefix_cons, prefix_nil.
  - cbn [fst snd] in Hret, Hend. injection Hret as <-.
    split; [exact Hend|]. split; [reflexivity|]. discriminate.
Qed.

Variable ParseHops : hcl_Body -> nats.MessageBundle -> result dsl.HopAST.

(** C6.  When the evaluator returns the matched [On] blocks [hop],
    [SequenceCallback] returns, and every call of every block has been
    dispatched: each has the result [dispatchCall] returned for it at a
    point of this run ([outs], block by block and call by call); a call
    whose task type has no ["_"] has its own error and nothing else; the
    requests published are exactly those of the calls with a well-formed
    task type, of all blocks, whatever the other calls and blocks
    returned; the results of one block are joined, in the order the
    channel delivered them ([perOn]): the join is nil when all of them are
    nil, and otherwise an error that lists their texts line by line and
    holds each of them; the non-nil joins are aggregated block after
    block, into the multierror that lists them in the order of the blocks;
    and the return value is nil exactly when every call of every block
    returned nil.  The result of a call is nil exactly when its task type
    is well formed and the broker, asked at a point of this run, took its
    request or refused it as a second message on the subject; it is the
    broker's error for any other answer. *)
Theorem SequenceCallback_aggregates (sequenceId : string)
        (msgBundle : nats.MessageBundle) (hop : dsl.HopAST) (tr : Trace) :
  ParseHops body msgBundle = Ok hop ->
  exists outs perOn res tr',
    runner.SequenceCallback scheduler ParseHops r sequenceId msgBundle tr = (Ret res, tr')
    /\ Forall2 (fun on o => Forall2 (dispatchedIn r sequenceId tr tr') (dsl.on_Calls on) o)
               (dsl.Ons hop) outs
    /\ Forall2 (fun on o =>
                  Forall2 (fun call err =>
                             strings_Contains (dsl.call_TaskType call) "_" = false ->
                             err = Some (DispatchParseError call))
                          (dsl.on_Calls on) o)
               (dsl.Ons hop) outs
    /\ published tr'
         ≡ₚ published tr
              ++ concat ((fun on => requestsOf acct sequenceId (dsl.on_Calls on))
                           <$> dsl.Ons hop)
    /\ Forall2 (fun o e => exists chan,
                             chan ≡ₚ o /\ e = runner.joinAll chan /\ joined chan e)
               outs perOn
    /\ res = appendAll None perOn
    /\ aggregated perOn res
    /\ (res = None <-> Forall (Forall (eq None)) outs)
    /\ Forall2 (fun on o =>
                  Forall2 (fun call err =>
                             exists pt,
                               tr `prefix_of` pt
                               /\ pt `prefix_of` tr'
                               /\ answered c sequenceId pt call err
                               /\ forall subject inputs,
                                    requestOf acct sequenceId call = Some (subject, inputs) ->
                                    pt ++ [EvPublish subject inputs] `prefix_of` tr')
                          (dsl.on_Calls on) o)
               (dsl.Ons hop) outs.
Proof.
  intros Hparse.
  set (tr0 := tr ++ [EvLog LDebug None "Successfully parsed hops file"]).
  destruct (dispatchOns_run sequenceId (dsl.Ons hop) None tr0)
    as (outs & perOn & tr' & Hrun & Houts & Hper & Hpub & Hpre).
  assert (Htr0 : tr `prefix_of` tr0) by (apply prefix_app_r; reflexivity).
  exists outs, perOn, (appendAll None perOn), tr'.
  split.
  { unfold runner.SequenceCallback, runner.sequenceHops.
    assert (Hb : runner.hops r = body) by reflexivity.
    destruct (msgBundle !! "hops"); rewrite Hb, Hparse; run_M; exact Hrun. }
  assert (Houts' : Forall2 (fun on o => Forall2 (dispatchedIn r sequenceId tr tr')
                                          (dsl.on_Calls on) o) (dsl.Ons hop) outs).
  { eapply Forall2_impl; [exact Houts|]. intros on o Hon.
    eapply Forall2_impl; [exact Hon|].
    intros call err. apply dispatchedIn_mono; [exact Htr0|reflexivity]. }
  split; [exact Houts'|].
  split.
  { eapply Forall2_impl; [exact Houts'|]. intros on o Hon.
    eapply Forall2_impl; [exact Hon|].
    intros call err (pt & _ & Hret & _) Hbad.
    rewrite (dispatchCall_malformed r call sequenceId pt Hbad) in Hret.
    cbn in Hret. congruence. }
  split.
  { rewrite Hpub. subst tr0. rewrite published_app. cbn. rewrite app_nil_r. reflexivity. }
  split.
  { eapply Forall2_impl; [exact Hper|]. intros o e (chan & Hchan & ->).
    exists chan. split; [exact Hchan|]. split; [reflexivity|apply joinAll_joined]. }
  split; [reflexivity|].
  split.
  { apply appendAll_aggregated. clear -Hper.
    induction Hper as [|o e outs perOn (chan & _ & ->) _ IH]; constructor; [|exact IH].
    intros err. apply joinAll_joinError. }
  split.
  { rewrite appendAll_None_iff.
    assert (Hiff : Forall (eq None) perOn <-> Forall (Forall (eq None)) outs).
    { clear -Hper. induction Hper as [|o e outs perOn (chan & Hchan & ->) _ IH].
      - split; constructor.
      - rewrite !Forall_cons, IH, <- Hchan, <- joinAll_None_iff. intuition. }
    rewrite Hiff. intuition. }
  eapply Forall2_impl; [exact Houts'|]. intros on o Hon.
  eapply Forall2_impl; [exact Hon|].
  intros call err. apply dispatchedIn_answered.
Qed.

(** C7.  A call whose task type holds a ["_"] is cut at the first ["_"]
    into app and handler (the task type is app, ["_"], handler, and app
    holds no ["_"]), and its inputs are published on
    [{account}.request.{sequence_id}.{call_slug}.{app}.{handler}]; that is
    the only publish of the call. *)
Theorem dispatchCall_publishes (call : dsl.CallAST) (sequenceId : string) (tr : Trace) :
  strings_Contains (dsl.call_TaskType call) "_" = true ->
  let '(app, handler, _) := strings_Cut (dsl.call_TaskType call) "_" in
  dsl.call_TaskType call = app +:+ "_" +:+ handler
  /\ strings_Contains app "_" = false
  /\ exists rest,
      (runner.dispatchCall r call sequenceId tr).2
        = tr ++ EvPublish (acct +:+ ".request." +:+ sequenceId +:+ "."
                             +:+ dsl.call_Slug call +:+ "." +:+ app +:+ "." +:+ handler)
                          (dsl.call_Inputs call) :: rest
      /\ published rest = [].
Proof.
  intros Hsep. rewrite dispatchCall_run.
  pose proof (strings_Cut_char (dsl.call_TaskType call) "_") as Hcut.
  destruct (strings_Cut _ _) as [[app handler] [|]].
  - destruct Hcut as (Heq & Hno & _).
    split; [exact Heq|]. split; [exact Hno|]. cbv zeta.
    destruct (nats.js_Publish _ _ _ _) as [puback [e|]].
    + destruct (strings_Contains (Error e) fenceText);
        [|destruct (strings_Contains (Error e) "err_code=10077")];
        eexists; split; reflexivity.
    + eexists; split; reflexivity.
  - destruct Hcut as (_ & _ & Hc). congruence.
Qed.

End RunnerProps.

(** The two matched blocks of the demo rules: the call without separator
    fails alone, and the three well-formed calls of both blocks are
    published, in the order the scheduler chose. *)
Lemma SequenceCallback_aggregates_witness :
  exists res tr',
    runner.SequenceCallback demo.scheduler demo.ParseHops demo.theRunner "SEQ" ∅ []
      = (Ret res, tr')
    /\ published tr'
         ≡ₚ [("acct.request.SEQ.push0-github_tag0.github.tag", list_byte_of_string "one");
             ("acct.request.SEQ.push0-slack2.slack.post_message",
              list_byte_of_string "three");
             ("acct.request.SEQ.push1-github_release0.github.release",
              list_byte_of_string "four")].
Proof.
  destruct (SequenceCallback_aggregates (demo.world None None demo.noAckError)
              demo.Parse (demo.client None None) demo.rules demo.scheduler
              demo.ParseHops "SEQ" ∅ demo.hop [] eq_refl)
    as (outs & perOn & res & tr' & Hrun & _ & _ & Hpub & _).
  exists res, tr'. split; [exact Hrun|exact Hpub].
Defined.

(** The call [github_tag] goes to the handler [tag] of the app [github]. *)
Lemma dispatchCall_publishes_witness :
  exists rest,
    (runner.dispatchCall demo.theRunner
       (demo.mkCall "github_tag" "github_tag0" "push0-github_tag0" "one") "SEQ" []).2
      = EvPublish "acct.request.SEQ.push0-github_tag0.github.tag"
                  (list_byte_of_string "one") :: rest.
Proof.
  destruct (dispatchCall_publishes (demo.world None None demo.noAckError)
              demo.Parse (demo.client None None) demo.rules
              (demo.mkCall "github_tag" "github_tag0" "push0-github_tag0" "one")
              "SEQ" [] eq_refl)
    as (_ & _ & rest & Hrun & _).
  exists rest. exact Hrun.
Defined.

(** ** The rule body *)

(** C5, as the code has it.  For every sequence callback the rule body
    that is evaluated is the runner's preloaded body, whether or not the
    bundle holds a key ["hops"]: [sequenceHops] returns it in both cases,
    and [SequenceCallback] hands it to the evaluator. *)
Theorem sequenceHops_default (r : runner.Runner) (msgBundle : nats.MessageBundle) :
  runner.sequenceHops r msgBundle = (runner.hops r, None)
  /\ forall scheduler ParseHops sequenceId tr,
      runner.SequenceCallback scheduler ParseHops r sequenceId msgBundle tr
        = match ParseHops (runner.hops r) msgBundle with
          | Err err => (Ret (Some err), tr)
          | Ok hop =>
              runner.dispatchOns scheduler r sequenceId (dsl.Ons hop) None
                (tr ++ [EvLog LDebug None "Successfully parsed hops file"])
          end.
Proof.
  assert (H : runner.sequenceHops r msgBundle = (runner.hops r, None)).
  { unfold runner.sequenceHops. destruct (msgBundle !! "hops"); reflexivity. }
  split; [exact H|].
  intros scheduler ParseHops sequenceId tr.
  unfold runner.SequenceCallback. rewrite H.
  destruct (ParseHops (runner.hops r) msgBundle); reflexivity.
Qed.

(** A bundle with an entry ["hops"]: the body selected is the runner's
    own, not that of the entry. *)
Lemma sequenceHops_ignores_bundle :
  let entry := list_byte_of_string "on pull {...}" in
  let msgBundle : nats.MessageBundle := {[ "hops" := entry ]} in
  msgBundle !! "hops" = Some entry
  /\ (runner.sequenceHops demo.theRunner msgBundle).1 <> bodyOf entry.
Proof.
  intros entry msgBundle. split; [reflexivity|].
  vm_compute. intros H. discriminate H.
Qed.

(** ** Scenarios *)

(** Publishing twice on one subject: the first publish is sent, the second
    is swallowed as a duplicate. *)
Example Publish_twice :
  let c := demo.client None None in
  let first := nats.Publish c (list_byte_of_string "a") ["notify"; "SEQ"; "M1"] [] in
  let second :=
    nats.Publish c (list_byte_of_string "b") ["notify"; "SEQ"; "M1"] first.2 in
  first.1 = Ret (Some {| ack_Stream := "acct"; ack_Sequence := 6 |}, None, true)
  /\ second.1 = Ret (None, None, false)
  /\ published second.2
     = [("acct.notify.SEQ.M1", list_byte_of_string "a");
        ("acct.notify.SEQ.M1", list_byte_of_string "b")].
Proof. repeat split. Qed.

(** The bundle for a delivery of [step2] has exactly the three entries
    [event], [step1] and [step2]. *)
Example bundle_of_step2 :
  bundleOf demo.Parse (upTo demo.Parse 4 demo.history)
    = {[ "event" := list_byte_of_string "{}";
         "step1" := list_byte_of_string "one";
         "step2" := list_byte_of_string "two" ]}.
Proof. vm_compute. reflexivity. Qed.

(** A handler fails and the publish of the failure fails too: the request
    is negatively acked. *)
Example callback_reply_failure :
  let m := demo.request "release" in
  let e := errorString "nats: timeout" in
  let out :=
    worker.callback (demo.world (Some e) None demo.noAckError) demo.Parse
      demo.ResponseSubject demo.json_Marshal demo.selectOrder
      (worker.NewWorker (demo.client (Some e) None) demo.github) Minute m [] in
  out.1 = Ret tt
  /\ msgOps m out.2 = [OpInProgress; OpInProgress; OpInProgress; OpNak].
Proof. repeat split. Qed.

(** A sequence message is parsed, its bundle fetched and handed to the
    handler, and the message is acked. *)
Example wrappedCB_acks :
  let m := demo.msg "acct.notify.SEQ.step2" "two" 4 in
  let out :=
    nats.wrappedCB (demo.world None None demo.noAckError) demo.Parse
      (demo.client None None) demo.sequenceHandler m [] in
  out.1 = Ret tt /\ msgOps m out.2 = [OpAck].
Proof. repeat split. Qed.

(** * Further properties of the code *)

Lemma msgOps_app (m : Msg) (tr1 tr2 : Trace) :
  msgOps m (tr1 ++ tr2) = msgOps m tr1 ++ msgOps m tr2.
Proof. unfold msgOps. apply omap_app. Qed.

Lemma msgOps_self (m : Msg) (op : MsgOp) : msgOps m [EvMsgOp m op] = [op].
Proof. unfold msgOps. cbn. rewrite String.eqb_refl, N.eqb_refl. reflexivity. Qed.

(** ** The aggregator only reads *)

Section AggregatorReads.

Variable Parse : Msg -> result nats.MsgMeta.

Lemma readBack_quiet (msgCtx : nats.MessagesContext) (newMsg : nats.MsgMeta)
      (b : nats.MessageBundle) (tr : Trace) :
  exists k, (nats.readBack Parse msgCtx newMsg b tr).2 = tr ++ replicate k EvNext
            /\ (k <= S (length msgCtx))%nat.
Proof.
  revert b tr. induction msgCtx as [|next msgCtx IH]; intros b tr; cbn [nats.readBack].
  - exists 1%nat. split; [reflexivity|cbn; lia].
  - run_M. cbv beta iota zeta.
    assert (Hone : exists k : nat,
               tr ++ [EvNext] = tr ++ replicate k EvNext /\ (k <= S (length (next :: msgCtx)))%nat)
      by (exists 1%nat; split; [reflexivity|cbn; lia]).
    destruct next as [m|err]; [|exact Hone].
    destruct (Parse m) as [msg|err]; [|exact Hone].
    destruct (_ <? _)%N; [exact Hone|].
    destruct (_ =? _)%N; [exact Hone|].
    destruct (IH (<[nats.MessageId msg:=Data m]> b) (tr ++ [EvNext])) as (k & Hk & Hle).
    exists (S k). split; [|cbn; lia].
    rewrite Hk, <- app_assoc. reflexivity.
Qed.

Lemma replicate_Next_quiet (k : nat) :
  published (replicate k EvNext) = [] /\ forall m, msgOps m (replicate k EvNext) = [].
Proof.
  induction k as [|k [IH1 IH2]]; split; try reflexivity; [exact IH1|].
  intros m. apply (IH2 m).
Qed.

(** What [FetchMessageBundle] adds to the trace holds no publish and no
    acknowledgement. *)
Lemma FetchMessageBundle_quiet (c : nats.Client) (newMsg : nats.MsgMeta) (tr : Trace) :
  exists rest,
    (nats.FetchMessageBundle Parse c newMsg tr).2 = tr ++ rest
    /\ published rest = []
    /\ forall m, msgOps m rest = [].
Proof.
  unfold nats.FetchMessageBundle. run_M. cbv beta zeta.
  destruct (nats.js_OrderedConsumer _ _ _ _) as [consumer|err];
    [|eexists; split; [reflexivity|split; reflexivity]].
  cbv beta iota zeta. destruct (nats.Messages consumer) as [msgCtx|err];
    [|eexists; split; [rewrite <- app_assoc; reflexivity|split; reflexivity]].
  match goal with
  | |- context [nats.readBack Parse msgCtx newMsg ∅ ?t] =>
      destruct (readBack_quiet msgCtx newMsg ∅ t) as (k & Hk & _)
  end.
  destruct (replicate_Next_quiet k) as [Hp Ho].
  eexists. split; [rewrite Hk, <- !app_assoc; reflexivity|].
  split; [rewrite !published_app, Hp; reflexivity|].
  intros m. rewrite !msgOps_app, Ho. reflexivity.
Qed.

(** X1.  [FetchMessageBundle] touches the broker only to read: whatever the
    broker answers and whatever the result, it publishes nothing and calls
    no acknowledgement method of any message; all it does is create the
    ordered consumer, ask for its messages, and call [Next] at most once
    more than messages are delivered. *)
Theorem FetchMessageBundle_reads_only (c : nats.Client) (newMsg : nats.MsgMeta)
        (tr : Trace) :
  exists rest,
    (nats.FetchMessageBundle Parse c newMsg tr).2 = tr ++ rest
    /\ published rest = []
    /\ (forall m, msgOps m rest = [])
    /\ (forall msgCtx consumer,
          nats.js_OrderedConsumer (nats.JetStream c) tr (nats.accountId c)
              {| oc_FilterSubjects := [nats.SequenceFilter newMsg];
                 oc_DeliverPolicy := DeliverAllPolicy |} = Ok consumer ->
          nats.Messages consumer = Ok msgCtx ->
          exists k, (k <= S (length msgCtx))%nat
                    /\ rest = [EvOrderedConsumer (nats.accountId c)
                                 {| oc_FilterSubjects := [nats.SequenceFilter newMsg];
                                    oc_DeliverPolicy := DeliverAllPolicy |};
                               EvMessages] ++ replicate k EvNext).
Proof.
  unfold nats.FetchMessageBundle. run_M. cbv beta zeta.
  set (cfg := {| oc_FilterSubjects := [nats.SequenceFilter newMsg];
                 oc_DeliverPolicy := DeliverAllPolicy |}).
  destruct (nats.js_OrderedConsumer _ _ _ _) as [consumer|err].
  - cbv beta iota zeta. destruct (nats.Messages consumer) as [msgCtx|err] eqn:Hm.
    + destruct (readBack_quiet msgCtx newMsg ∅ ((tr ++ [EvOrderedConsumer (nats.accountId c) cfg]) ++ [EvMessages]))
        as (k & Hk & Hle).
      exists ([EvOrderedConsumer (nats.accountId c) cfg; EvMessages] ++ replicate k EvNext).
      split; [rewrite Hk, <- !app_assoc; reflexivity|].
      destruct (replicate_Next_quiet k) as [Hp Ho].
      split; [rewrite published_app, Hp; reflexivity|].
      split; [intros m; rewrite msgOps_app, Ho; reflexivity|].
      intros msgCtx' consumer' [= <-] Hm'. rewrite Hm in Hm'. injection Hm' as <-.
      exists k. split; [exact Hle|reflexivity].
    + exists [EvOrderedConsumer (nats.accountId c) cfg; EvMessages].
      split; [cbn; rewrite <- app_assoc; reflexivity|].
      split; [reflexivity|]. split; [reflexivity|].
      intros msgCtx' consumer' [= <-] Hm'. congruence.
  - exists [EvOrderedConsumer (nats.accountId c) cfg].
    split; [reflexivity|]. split; [reflexivity|]. split; [reflexivity|].
    intros msgCtx consumer [=].
Qed.

End AggregatorReads.

(** Reading the history of [SEQ] up to [step2]: three calls of [Next]. *)
Lemma FetchMessageBundle_reads_only_witness :
  exists k,
    (k <= 5)%nat
    /\ (nats.FetchMessageBundle demo.Parse (demo.client None None)
          (demo.notifyMeta "SEQ" "step2" 4) []).2
       = [EvOrderedConsumer "acct"
            {| oc_FilterSubjects := ["acct.notify.SEQ.*"];
               oc_DeliverPolicy := DeliverAllPolicy |};
          EvMessages] ++ replicate k EvNext.
Proof.
  destruct (FetchMessageBundle_reads_only demo.Parse (demo.client None None)
              (demo.notifyMeta "SEQ" "step2" 4) [])
    as (rest & Hrest & _ & _ & H).
  destruct (H _ _ eq_refl eq_refl) as (k & Hle & ->).
  exists k. split; [exact Hle|exact Hrest].
Defined.

(** ** One disposition for each delivery *)

Section Dispositions.

Variable W : nats.World.
Variable Parse : Msg -> result nats.MsgMeta.

Lemma readBack_no_panic (msgCtx : nats.MessagesContext) (newMsg : nats.MsgMeta)
      (b : nats.MessageBundle) (tr : Trace) (e : error) :
  (nats.readBack Parse msgCtx newMsg b tr).1 <> Panic e.
Proof.
  revert b tr. induction msgCtx as [|next msgCtx IH]; intros b tr; cbn [nats.readBack].
  - discriminate.
  - run_M. cbv beta iota zeta.
    destruct next as [m|err]; [|discriminate].
    destruct (Parse m) as [msg|err]; [|discriminate].
    destruct (_ <? _)%N; [discriminate|].
    destruct (_ =? _)%N; [discriminate|]. apply IH.
Qed.

Lemma FetchMessageBundle_no_panic (c : nats.Client) (newMsg : nats.MsgMeta)
      (tr : Trace) (e : error) :
  (nats.FetchMessageBundle Parse c newMsg tr).1 <> Panic e.
Proof.
  unfold nats.FetchMessageBundle. run_M. cbv beta zeta.
  destruct (nats.js_OrderedConsumer _ _ _ _) as [consumer|err]; [|discriminate].
  cbv beta iota zeta. destruct (nats.Messages consumer) as [msgCtx|err]; [|discriminate].
  apply readBack_no_panic.
Qed.

(** X2.  Every delivery to the callback of [ConsumeSequences] gets exactly
    one answer, or none while the history is still being read, as long as
    the sequence handler returns and leaves the message alone.  The answer
    is [Term] when the message does not parse; a [Nak] delayed by 3 s when
    the bundle cannot be fetched (the callback then panics with the error
    of the fetch) and when the handler, called on the bundle that was
    fetched, returns an error; [Ack] exactly when the bundle was fetched
    and the handler returned nil on it.  In the last two cases the
    callback returns. *)
Theorem wrappedCB_one_disposition (c : nats.Client) (handler : nats.SequenceHandler)
        (msg : Msg) (tr : Trace) :
  (forall sequenceId b t,
      exists err rest, handler sequenceId b t = (Ret err, t ++ rest)
                       /\ msgOps msg rest = []) ->
  let out := nats.wrappedCB W Parse c handler msg tr in
  exists rest,
    out.2 = tr ++ rest
    /\ match Parse msg with
       | Err _ => out.1 = Ret tt /\ msgOps msg rest = [OpTerm]
       | Ok hopsMsg =>
           match nats.FetchMessageBundle Parse c hopsMsg tr with
           | (Blocked, _) => out.1 = Blocked /\ msgOps msg rest = []
           | (Panic _, _) => False
           | (Ret (Err e), _) =>
               out.1 = Panic e /\ msgOps msg rest = [OpNakWithDelay (3 * Second)%Z]
           | (Ret (Ok msgBundle), tr1) =>
               out.1 = Ret tt
               /\ match (handler (nats.SequenceId hopsMsg) msgBundle tr1).1 with
                  | Ret (Some _) => msgOps msg rest = [OpNakWithDelay (3 * Second)%Z]
                  | Ret None => msgOps msg rest = [OpAck]
                  | _ => False
                  end
           end
       end.
Proof.
  intros Hh out. subst out. unfold nats.wrappedCB, nats.msgOp.
  destruct (Parse msg) as [hopsMsg|e] eqn:HP.
  - run_M.
    destruct (FetchMessageBundle_quiet Parse c hopsMsg tr) as (rest1 & Ht1 & _ & Hq1).
    pose proof (FetchMessageBundle_no_panic c hopsMsg tr) as Hnp.
    destruct (nats.FetchMessageBundle Parse c hopsMsg tr) as [[[b|e]|pe|] t1];
      cbn [fst snd] in Ht1, Hnp; subst t1.
    + destruct (Hh (nats.SequenceId hopsMsg) b (tr ++ rest1)) as (err & rest2 & Hrun & Hq2).
      rewrite Hrun. destruct err as [err|]; cbn [fst snd].
      * eexists. split; [rewrite <- !app_assoc; reflexivity|].
        split; [reflexivity|].
        rewrite !msgOps_app, Hq1, Hq2, msgOps_self. reflexivity.
      * eexists. split; [rewrite <- !app_assoc; reflexivity|].
        split; [reflexivity|].
        rewrite !msgOps_app, Hq1, Hq2, msgOps_self. reflexivity.
    + cbn [fst snd]. eexists. split; [rewrite <- !app_assoc; reflexivity|].
      split; [reflexivity|].
      rewrite !msgOps_app, Hq1, msgOps_self. reflexivity.
    + exfalso. apply (Hnp pe). reflexivity.
    + cbn [fst snd]. exists rest1. split; [reflexivity|].
      split; [reflexivity|apply Hq1].
  - run_M. cbn [fst snd]. eexists. split; [rewrite <- app_assoc; reflexivity|].
    split; [reflexivity|].
    rewrite msgOps_app, msgOps_self. reflexivity.
Qed.

End Dispositions.

(** A delivery of [step2] to a handler that succeeds is acked, once. *)
Lemma wrappedCB_one_disposition_witness :
  let m := demo.msg "acct.notify.SEQ.step2" "two" 4 in
  let out := nats.wrappedCB (demo.world None None demo.noAckError) demo.Parse
               (demo.client None None) demo.sequenceHandler m [] in
  msgOps m out.2 = [OpAck] /\ out.1 = Ret tt.
Proof.
  intros m out.
  destruct (wrappedCB_one_disposition (demo.world None None demo.noAckError)
              demo.Parse (demo.client None None) demo.sequenceHandler m [])
    as (rest & Hrest & Hret & Hops).
  { intros sequenceId b t. exists None, [EvSequenceCallback sequenceId b].
    split; reflexivity. }
  subst out. cbn [app] in Hrest. rewrite Hrest.
  split; [exact Hops|exact Hret].
Defined.

(** ** The life of a supervised handler *)

Section Supervisor.

Variable W : nats.World.
Variable selectOrder : Trace -> list worker.SelectCase.

Lemma ticks_quiet (m : Msg) (k : nat) :
  published (ticks m k) = [] /\ msgOps m (ticks m k) = replicate k OpInProgress.
Proof.
  unfold ticks. induction k as [|k [IH1 IH2]]; [split; reflexivity|].
  split; [exact IH1|].
  change (replicate (S k) (EvMsgOp m OpInProgress))
    with ([EvMsgOp m OpInProgress] ++ replicate k (EvMsgOp m OpInProgress)).
  rewrite msgOps_app, msgOps_self, IH2. reflexivity.
Qed.

(** The loop adds in-progress signals only, one for each tick it served,
    and does not panic. *)
Lemma supervise_shape (msg : Msg) (res : option error)
      (cases : list worker.SelectCase) (tr : Trace) :
  exists k,
    (k <= length cases)%nat
    /\ (worker.supervise W msg res cases tr).2 = tr ++ ticks msg k
    /\ forall e, (worker.supervise W msg res cases tr).1 <> Panic e.
Proof.
  revert tr. induction cases as [|[|] cases IH]; intros tr; cbn [worker.supervise].
  - exists 0%nat. split; [lia|]. split; [cbn; rewrite app_nil_r; reflexivity|discriminate].
  - unfold nats.msgOp. run_M.
    destruct (nats.msg_reply W tr msg OpInProgress) as [e|].
    + exists 1%nat. split; [cbn; lia|]. split; [reflexivity|discriminate].
    + destruct (IH (tr ++ [EvMsgOp msg OpInProgress])) as (k & Hle & Htr & Hnp).
      exists (S k). split; [cbn; lia|]. split; [|exact Hnp].
      rewrite Htr, ticks_S. reflexivity.
  - exists 0%nat. split; [cbn; lia|]. split; [cbn; rewrite app_nil_r; reflexivity|discriminate].
Qed.

(** The trace of a run of [runHandler] for a positive ack-wait. *)
Lemma runHandler_shape (msg : Msg) (handler : worker.Handler)
      (d : Duration) (tr : Trace) :
  (0 < d)%Z ->
  let out := worker.runHandler W selectOrder msg handler d tr in
  let tr0 := tr ++ [EvNewTicker (d - d `quot` 3)%Z; EvGoHandler msg;
                    EvMsgOp msg OpInProgress] in
  exists k,
    (k <= length (selectOrder tr0))%nat
    /\ out.2 = tr0 ++ ticks msg k
               ++ match out.1 with Ret _ => [EvTickerStop] | _ => [] end
    /\ (forall e, out.1 <> Panic e)
    /\ published out.2 = published tr
    /\ msgOps msg out.2 = msgOps msg tr ++ replicate (S k) OpInProgress.
Proof.
  intros Hd out tr0. subst out. rewrite runHandler_run by assumption.
  cbv zeta. fold tr0.
  set (res := handler _ msg).
  destruct (supervise_shape msg res (selectOrder tr0) tr0) as (k & Hle & Htr & Hnp).
  destruct (ticks_quiet msg k) as [Hp Ho].
  assert (Hp0 : published tr0 = published tr)
    by (subst tr0; rewrite published_app; cbn; apply app_nil_r).
  assert (Ho0 : msgOps msg tr0 = msgOps msg tr ++ [OpInProgress]).
  { subst tr0. rewrite msgOps_app. f_equal.
    change [EvNewTicker (d - d `quot` 3)%Z; EvGoHandler msg; EvMsgOp msg OpInProgress]
      with ([EvNewTicker (d - d `quot` 3)%Z; EvGoHandler msg] ++ [EvMsgOp msg OpInProgress]).
    rewrite msgOps_app, msgOps_self. reflexivity. }
  assert (Hops : (msgOps msg tr ++ [OpInProgress]) ++ replicate k OpInProgress
                 = msgOps msg tr ++ replicate (S k) OpInProgress)
    by (rewrite <- app_assoc; reflexivity).
  exists k. split; [exact Hle|].
  destruct (worker.supervise W msg res (selectOrder tr0) tr0) as [[err|e|] tr'];
    cbn [fst snd] in *; subst tr'.
  - split; [rewrite <- app_assoc; reflexivity|]. split; [discriminate|].
    split.
    + rewrite !published_app, Hp, Hp0. cbn. rewrite !app_nil_r. reflexivity.
    + rewrite !msgOps_app, Ho, Ho0. cbn [msgOps omap list_omap].
      rewrite app_nil_r. exact Hops.
  - exfalso. apply (Hnp e). reflexivity.
  - split; [rewrite app_nil_r; reflexivity|]. split; [discriminate|].
    split.
    + rewrite !published_app, Hp, Hp0. apply app_nil_r.
    + rewrite !msgOps_app, Ho, Ho0. exact Hops.
Qed.

(** X3.  For a positive ack-wait, a run of [runHandler] creates one ticker,
    starts the handler once, signals in-progress once at the start and
    once for each tick served, and stops the ticker exactly when it
    returns; it never panics, and it publishes nothing. *)
Theorem runHandler_lifecycle (msg : Msg) (handler : worker.Handler)
        (d : Duration) (tr : Trace) :
  (0 < d)%Z ->
  let out := worker.runHandler W selectOrder msg handler d tr in
  let tr0 := tr ++ [EvNewTicker (d - d `quot` 3)%Z; EvGoHandler msg;
                    EvMsgOp msg OpInProgress] in
  exists k,
    (k <= length (selectOrder tr0))%nat
    /\ out.2 = tr0 ++ ticks msg k
               ++ match out.1 with Ret _ => [EvTickerStop] | _ => [] end
    /\ (forall e, out.1 <> Panic e)
    /\ published out.2 = published tr
    /\ msgOps msg out.2 = msgOps msg tr ++ replicate (S k) OpInProgress.
Proof. apply runHandler_shape. Qed.

Lemma runHandler_panics (msg : Msg) (handler : worker.Handler)
      (d : Duration) (tr : Trace) :
  (d <= 0)%Z ->
  worker.runHandler W selectOrder msg handler d tr
    = (Panic (errorString "non-positive interval for NewTicker"), tr).
Proof.
  intros Hd. unfold worker.runHandler, worker.time_NewTicker.
  assert (Hp : (d - d `quot` 3 <= 0)%Z)
    by (unfold Duration in *; Z.to_euclidean_division_equations; lia).
  destruct (Z.leb_spec (d - d `quot` 3) 0); [reflexivity|lia].
Qed.

(** X4.  With a non-positive ack-wait [runHandler] panics in [time.NewTicker]:
    the handler is not started and the broker is not told anything. *)
Theorem runHandler_nonpositive (msg : Msg) (handler : worker.Handler)
        (d : Duration) (tr : Trace) :
  (d <= 0)%Z ->
  worker.runHandler W selectOrder msg handler d tr
    = (Panic (errorString "non-positive interval for NewTicker"), tr).
Proof. apply runHandler_panics. Qed.

(** X5.  The supervisor does not give up on a handler: as long as the select
    takes ticks only and the broker accepts the extensions, it goes on
    extending and does not return. *)
Theorem runHandler_waits (msg : Msg) (handler : worker.Handler)
        (d : Duration) (tr : Trace) (n : nat) :
  (0 < d)%Z ->
  let tr0 := tr ++ [EvNewTicker (d - d `quot` 3)%Z; EvGoHandler msg;
                    EvMsgOp msg OpInProgress] in
  selectOrder tr0 = replicate n worker.CaseTicker ->
  (forall j, (j < n)%nat ->
             nats.msg_reply W (tr0 ++ ticks msg j) msg OpInProgress = None) ->
  worker.runHandler W selectOrder msg handler d tr = (Blocked, tr0 ++ ticks msg n).
Proof.
  intros Hd tr0 Hsel Hok. rewrite runHandler_run by assumption.
  cbv zeta. fold tr0. rewrite Hsel.
  set (res := handler _ msg).
  assert (H : forall n t,
             (forall j, (j < n)%nat ->
                        nats.msg_reply W (t ++ ticks msg j) msg OpInProgress = None) ->
             worker.supervise W msg res (replicate n worker.CaseTicker) t
               = (Blocked, t ++ ticks msg n)).
  { clear. intros n. induction n as [|n IH]; intros t H; cbn [replicate worker.supervise].
    - cbn. rewrite app_nil_r. reflexivity.
    - unfold nats.msgOp. run_M.
      pose proof (H 0%nat ltac:(lia)) as H0. unfold ticks in H0. cbn in H0.
      rewrite app_nil_r in H0. rewrite H0, ticks_S. apply IH.
      intros j Hj. rewrite <- ticks_S. apply H. lia. }
  rewrite (H n tr0 Hok). reflexivity.
Qed.

End Supervisor.

(** One minute of ack-wait, two ticks, then the report of the handler. *)
Lemma runHandler_lifecycle_witness :
  let m := demo.request "tag" in
  exists k,
    (k <= 3)%nat
    /\ msgOps m (worker.runHandler (demo.world None None demo.noAckError)
                   demo.selectOrder m (fun _ _ => None) Minute []).2
       = replicate (S k) OpInProgress.
Proof.
  intros m.
  destruct (runHandler_lifecycle (demo.world None None demo.noAckError)
              demo.selectOrder m (fun _ _ => None) Minute [])
    as (k & Hle & _ & _ & _ & Hops); [reflexivity|].
  exists k. split; [exact Hle|exact Hops].
Defined.

Lemma runHandler_nonpositive_witness :
  worker.runHandler (demo.world None None demo.noAckError) demo.selectOrder
      (demo.request "tag") (fun _ _ => None) 0%Z []
    = (Panic (errorString "non-positive interval for NewTicker"), []).
Proof.
  apply (runHandler_nonpositive (demo.world None None demo.noAckError)
           demo.selectOrder (demo.request "tag") (fun _ _ => None) 0%Z []).
  reflexivity.
Defined.

(** Three ticks and no report yet: three extensions, and the supervisor
    is still waiting. *)
Lemma runHandler_waits_witness :
  let m := demo.request "tag" in
  worker.runHandler (demo.world None None demo.noAckError)
      (fun _ => replicate 3 worker.CaseTicker) m (fun _ _ => None) Minute []
    = (Blocked,
       [EvNewTicker (40 * Second)%Z; EvGoHandler m;
        EvMsgOp m OpInProgress; EvMsgOp m OpInProgress; EvMsgOp m OpInProgress;
        EvMsgOp m OpInProgress]).
Proof.
  intros m.
  apply (runHandler_waits (demo.world None None demo.noAckError)
           (fun _ => replicate 3 worker.CaseTicker) m (fun _ _ => None) Minute [] 3%nat).
  - reflexivity.
  - reflexivity.
  - intros j Hj. reflexivity.
Defined.

(** ** What the worker tells the broker *)

Section WorkerAnswers.

Variable W : nats.World.
Variable Parse : Msg -> result nats.MsgMeta.
Variable ResponseSubject : nats.MsgMeta -> string.
Variable json_Marshal : nats.ResultMsg -> result bytes.
Variable selectOrder : Trace -> list worker.SelectCase.

(** The callback of the worker, case by case: the methods it calls on the
    message ([k] in-progress signals, then [fin]) and what it publishes
    ([pubs]). *)
Lemma callback_cases (w : worker.Worker) (d : Duration) (msg : Msg) (tr : Trace) :
  let out := worker.callback W Parse ResponseSubject json_Marshal selectOrder w d msg tr in
  exists rest k fin pubs,
    out.2 = tr ++ rest
    /\ msgOps msg rest = replicate k OpInProgress ++ fin
    /\ published rest = pubs
    /\ ((out.1 = Ret tt /\ k = 0%nat /\ fin = [OpNak] /\ pubs = []
         /\ exists e, Parse msg = Err e)
        \/ (out.1 = Ret tt /\ k = 0%nat /\ fin = [OpTerm] /\ pubs = []
            /\ exists p, Parse msg = Ok p
                         /\ worker.handlers w !! nats.HandlerName p = None)
        \/ (out.1 <> Ret tt /\ fin = [] /\ pubs = [])
        \/ (out.1 = Ret tt /\ (0 < k)%nat /\ fin = [OpDoubleAck] /\ pubs = [])
        \/ (out.1 = Ret tt /\ (0 < k)%nat /\ fin = [OpNak] /\ pubs = []
            /\ exists r e, json_Marshal r = Err e)
        \/ (out.1 = Ret tt /\ (0 < k)%nat /\ (fin = [OpNak] \/ fin = [OpDoubleAck])
            /\ exists p r e data,
                Parse msg = Ok p
                /\ json_Marshal r = Ok data
                /\ nats.Status r = "FAILURE"
                /\ nats.Error_ r = Some e
                /\ nats.StartedAt r <> ZeroTime
                /\ nats.FinishedAt r <> ZeroTime
                /\ pubs = [(nats.publishSubject (worker.natsClient w) [ResponseSubject p],
                            data)])).
Proof.
  intros out. subst out.
  unfold worker.callback, nats.PublishResult, nats.DoubleAck, nats.msgOp.
  destruct (Parse msg) as [p|e] eqn:HP.
  2:{ run_M. cbn [fst snd].
      eexists _, 0%nat, [OpNak], []. split; [rewrite <- !app_assoc; reflexivity|].
      split; [rewrite !msgOps_app, msgOps_self; reflexivity|].
      split; [reflexivity|]. left. repeat split. eexists; reflexivity. }
  run_M. cbv beta iota zeta.
  destruct (worker.handlers w !! nats.HandlerName p) as [h|] eqn:Hh.
  2:{ cbn [fst snd].
      eexists _, 0%nat, [OpTerm], []. split; [rewrite <- !app_assoc; reflexivity|].
      split; [rewrite !msgOps_app, msgOps_self; reflexivity|].
      split; [reflexivity|]. right. left. repeat split. exists p. split; [reflexivity|exact Hh]. }
  set (tr1 := (tr ++ [EvLog LInfo None ("Received request " +:+ Subject msg)]) ++ [EvNow]).
  assert (Htr1 : tr1 = tr ++ [EvLog LInfo None ("Received request " +:+ Subject msg); EvNow])
    by (subst tr1; rewrite <- app_assoc; reflexivity).
  destruct (Z.leb_spec d 0) as [Hd|Hd].
  { rewrite (runHandler_panics W selectOrder msg h d tr1 Hd). cbn [fst snd].
    eexists _, 0%nat, [], []. split; [exact Htr1|].
    split; [reflexivity|]. split; [reflexivity|].
    right. right. left. repeat split. discriminate. }
  destruct (runHandler_shape W selectOrder msg h d tr1 Hd)
    as (k & _ & Hrun & Hnp & Hpub & Hops).
  cbv zeta in Hrun, Hnp, Hpub, Hops.
  destruct (worker.runHandler W selectOrder msg h d tr1) as [o t2].
  cbn [fst snd] in Hrun, Hnp, Hpub, Hops.
  assert (Hext : exists rest2, t2 = tr ++ rest2
                               /\ published rest2 = []
                               /\ msgOps msg rest2 = replicate (S k) OpInProgress).
  { rewrite Hrun, Htr1. rewrite <- !app_assoc. eexists. split; [reflexivity|].
    destruct (ticks_quiet msg k) as [Hp Ho].
    split.
    - rewrite !published_app, Hp. destruct o; reflexivity.
    - change [EvNewTicker (d - d `quot` 3)%Z; EvGoHandler msg; EvMsgOp msg OpInProgress]
        with ([EvNewTicker (d - d `quot` 3)%Z; EvGoHandler msg]
                ++ [EvMsgOp msg OpInProgress]).
      rewrite !msgOps_app, Ho, msgOps_self.
      destruct o; cbn; rewrite ?app_nil_r; reflexivity. }
  clear Hrun Hpub Hops. destruct Hext as (rest2 & -> & Hp2 & Ho2).
  destruct o as [[e|]|pe|].
  - (* the handler failed *)
    cbv beta iota zeta. cbn [nats.StartedAt nats.Response].
    set (r := {| nats.StartedAt := _; nats.FinishedAt := _; nats.Status := "FAILURE";
                 nats.Error_ := Some e; nats.Response := None |}).
    destruct (json_Marshal r) as [data|me] eqn:Hjson.
    + rewrite Publish_run. cbv zeta.
      set (subject := nats.publishSubject (worker.natsClient w) [ResponseSubject p]).
      assert (Hdone : forall fin (t : Trace),
                 (fin = OpNak \/ fin = OpDoubleAck) ->
                 (exists rest3, t = (tr ++ rest2) ++ rest3
                                /\ msgOps msg rest3 = [fin]
                                /\ published rest3 = [(subject, data)]) ->
                 exists rest k0 fin0 pubs,
                   t = tr ++ rest
                   /\ msgOps msg rest = replicate k0 OpInProgress ++ fin0
                   /\ published rest = pubs
                   /\ ((@Ret unit tt = Ret tt /\ k0 = 0%nat /\ fin0 = [OpNak] /\ pubs = []
                        /\ exists e, Ok p = Err e)
                       \/ (@Ret unit tt = Ret tt /\ k0 = 0%nat /\ fin0 = [OpTerm] /\ pubs = []
                           /\ exists p0, Ok p = Ok p0
                                /\ worker.handlers w !! nats.HandlerName p0 = None)
                       \/ (@Ret unit tt <> Ret tt /\ fin0 = [] /\ pubs = [])
                       \/ (@Ret unit tt = Ret tt /\ (0 < k0)%nat /\ fin0 = [OpDoubleAck]
                           /\ pubs = [])
                       \/ (@Ret unit tt = Ret tt /\ (0 < k0)%nat /\ fin0 = [OpNak] /\ pubs = []
                           /\ exists r e, json_Marshal r = Err e)
                       \/ (@Ret unit tt = Ret tt /\ (0 < k0)%nat
                           /\ (fin0 = [OpNak] \/ fin0 = [OpDoubleAck])
                           /\ exists p0 r0 e0 data0,
                               Ok p = Ok p0
                               /\ json_Marshal r0 = Ok data0
                               /\ nats.Status r0 = "FAILURE"
                               /\ nats.Error_ r0 = Some e0
                               /\ nats.StartedAt r0 <> ZeroTime
                               /\ nats.FinishedAt r0 <> ZeroTime
                               /\ pubs = [(nats.publishSubject (worker.natsClient w)
                                             [ResponseSubject p0], data0)]))).
      { intros fin t Hfin (rest3 & -> & Ho3 & Hp3).
        exists (rest2 ++ rest3), (S k), [fin], [(subject, data)].
        split; [rewrite <- app_assoc; reflexivity|].
        split; [rewrite msgOps_app, Ho2, Ho3; reflexivity|].
        split; [rewrite published_app, Hp2, Hp3; reflexivity|].
        do 5 right. split; [reflexivity|]. split; [lia|].
        split; [destruct Hfin as [-> | ->]; [left|right]; reflexivity|].
        exists p, r, e, data. repeat split; (reflexivity || discriminate || assumption). }
      destruct (nats.js_Publish _ _ _ _) as [puback [e'|]];
        [destruct (strings_Contains (Error e') fenceText)|];
        cbv beta iota zeta; cbn [fst snd];
        try destruct (nats.msg_reply W _ msg OpDoubleAck);
        cbn [fst snd].
      all: first
        [ apply (Hdone OpDoubleAck); [right; reflexivity|];
          eexists; split; [rewrite <- !app_assoc; reflexivity|];
          split; [rewrite ?msgOps_app, ?msgOps_self; reflexivity|reflexivity]
        | apply (Hdone OpNak); [left; reflexivity|];
          eexists; split; [rewrite <- !app_assoc; reflexivity|];
          split; [rewrite ?msgOps_app, ?msgOps_self; reflexivity|reflexivity] ].
    + cbn [fst snd].
      eexists _, (S k), [OpNak], []. split; [rewrite <- !app_assoc; reflexivity|].
      split; [rewrite !msgOps_app, Ho2, msgOps_self; cbn [msgOps omap list_omap app];
              reflexivity|].
      split; [rewrite !published_app, Hp2; reflexivity|].
      do 4 right. left. split; [reflexivity|]. split; [lia|].
      split; [reflexivity|]. split; [reflexivity|]. exists r, me. exact Hjson.
  - (* the handler succeeded *)
    cbv beta iota zeta.
    destruct (nats.msg_reply W _ msg OpDoubleAck); cbn [fst snd];
      (eexists _, (S k), [OpDoubleAck], [];
       split; [rewrite <- !app_assoc; reflexivity|];
       split; [rewrite !msgOps_app, Ho2, msgOps_self; cbn [msgOps omap list_omap app];
               rewrite ?app_nil_r; reflexivity|];
       split; [rewrite !published_app, Hp2; reflexivity|];
       do 3 right; left; repeat split; lia).
  - exfalso. apply (Hnp pe). reflexivity.
  - cbn [fst snd]. eexists rest2, (S k), [], []. split; [reflexivity|].
    split; [rewrite app_nil_r; exact Ho2|]. split; [exact Hp2|].
    right. right. left. repeat split. discriminate.
Qed.

(** X6.  When the callback of the worker returns it has answered the
    request exactly once, as the last call on the message: with a negative
    ack, a termination or a double ack; before that it only extended the
    ack deadline.  It never plain-acks and never asks for a delayed
    redelivery. *)
Theorem callback_answers_once (w : worker.Worker) (d : Duration) (msg : Msg) (tr : Trace) :
  let out := worker.callback W Parse ResponseSubject json_Marshal selectOrder w d msg tr in
  out.1 = Ret tt ->
  exists rest k fin,
    out.2 = tr ++ rest
    /\ msgOps msg rest = replicate k OpInProgress ++ [fin]
    /\ (fin = OpNak \/ fin = OpTerm \/ fin = OpDoubleAck)
    /\ (fin = OpTerm ->
        exists p, Parse msg = Ok p /\ worker.handlers w !! nats.HandlerName p = None).
Proof.
  intros out Hret. subst out.
  destruct (callback_cases w d msg tr)
    as (rest & k & fin & pubs & Htr & Hops & _ & Hcase).
  exists rest, k.
  destruct Hcase as [(_ & _ & -> & _)|[(_ & _ & -> & _ & Hp)|[(Hn & _)|[(_ & _ & -> & _)|
                    [(_ & _ & -> & _)|(_ & _ & [-> | ->] & _)]]]]].
  - exists OpNak. repeat split; auto. discriminate.
  - exists OpTerm. repeat split; auto.
  - contradiction.
  - exists OpDoubleAck. repeat split; auto. discriminate.
  - exists OpNak. repeat split; auto. discriminate.
  - exists OpNak. repeat split; auto. discriminate.
  - exists OpDoubleAck. repeat split; auto. discriminate.
Qed.



End WorkerAnswers.

Lemma callback_answers_once_witness :
  let m := demo.request "release" in
  let e := errorString "nats: timeout" in
  let out :=
    worker.callback (demo.world (Some e) None demo.noAckError) demo.Parse
      demo.ResponseSubject demo.json_Marshal demo.selectOrder
      (worker.NewWorker (demo.client (Some e) None) demo.github) Minute m [] in
  exists rest k fin,
    out.2 = [] ++ rest
    /\ msgOps m rest = replicate k OpInProgress ++ [fin]
    /\ (fin = OpNak \/ fin = OpTerm \/ fin = OpDoubleAck)
    /\ (fin = OpTerm ->
        exists p, demo.Parse m = Ok p
                  /\ worker.handlers (worker.NewWorker (demo.client (Some e) None) demo.github)
                       !! nats.HandlerName p = None).
Proof.
  intros m e out.
  apply (callback_answers_once (demo.world (Some e) None demo.noAckError) demo.Parse
           demo.ResponseSubject demo.json_Marshal demo.selectOrder
           (worker.NewWorker (demo.client (Some e) None) demo.github) Minute m []).
  reflexivity.
Defined.

(** ** Every delivery is answered by its callback *)

Lemma msgOps_cons (m : Msg) (ev : Event) (tr : Trace) :
  msgOps m (ev :: tr)
  = match ev with
    | EvMsgOp m' op =>
        if String.eqb (Subject m') (Subject m) && (StreamSeq m' =? StreamSeq m)%N
        then [op] else []
    | _ => []
    end ++ msgOps m tr.
Proof.
  unfold msgOps. cbn [omap list_omap]. destruct ev; try reflexivity.
  destruct (_ && _); reflexivity.
Qed.

Lemma sameMsg_false (m m' : Msg) :
  (Subject m', StreamSeq m') <> (Subject m, StreamSeq m) ->
  String.eqb (Subject m') (Subject m) && (StreamSeq m' =? StreamSeq m)%N = false.
Proof.
  intros Hne. destruct (String.eqb_spec (Subject m') (Subject m)) as [Hs|]; [|reflexivity].
  destruct (N.eqb_spec (StreamSeq m') (StreamSeq m)) as [Hn|]; [|reflexivity].
  exfalso. apply Hne. congruence.
Qed.

Lemma ticks_other (m m' : Msg) (k : nat) :
  (Subject m', StreamSeq m') <> (Subject m, StreamSeq m) ->
  msgOps m (ticks m' k) = [].
Proof.
  intros Hne. induction k as [|k IH]; [reflexivity|].
  unfold ticks in *. cbn [replicate]. rewrite msgOps_cons, IH, (sameMsg_false _ _ Hne).
  reflexivity.
Qed.

(** What a callback has told the broker when it is cut short is the
    beginning of what it tells the broker in all. *)
Lemma msgOps_take (m : Msg) (n : nat) (tr : Trace) :
  msgOps m (take n tr) `prefix_of` msgOps m tr.
Proof.
  rewrite <- (take_drop n tr) at 2. rewrite msgOps_app. apply prefix_app_r. reflexivity.
Qed.

Lemma ownOnly_take (m : Msg) (n : nat) (tr : Trace) :
  ownOnly m tr -> ownOnly m (take n tr).
Proof.
  intros H m' Hne. pose proof (msgOps_take m' n tr) as Hp.
  rewrite (H m' Hne) in Hp. apply prefix_nil_inv in Hp. exact Hp.
Qed.

Lemma prefix_replicate_app {A} (x : A) (k : nat) (fin l : list A) :
  (length fin <= 1)%nat ->
  l `prefix_of` replicate k x ++ fin ->
  exists j fin', l = replicate j x ++ fin' /\ (fin' = [] \/ fin' = fin).
Proof.
  intros Hfin. revert l. induction k as [|k IH]; intros l Hl; cbn [replicate app] in Hl.
  - exists 0%nat. cbn [replicate app].
    destruct l as [|a l]; [exists []; split; [reflexivity|left; reflexivity]|].
    destruct fin as [|y [|z fin]]; cbn [length] in Hfin; [| |lia].
    + apply prefix_nil_inv in Hl. discriminate.
    + pose proof (prefix_cons_inv_1 _ _ _ _ Hl) as ->.
      pose proof (prefix_cons_inv_2 _ _ _ _ Hl) as Hl'.
      apply prefix_nil_inv in Hl'. subst l.
      exists [y]. split; [reflexivity|right; reflexivity].
  - destruct l as [|a l].
    + exists 0%nat, []. split; [reflexivity|left; reflexivity].
    + pose proof (prefix_cons_inv_1 _ _ _ _ Hl) as ->.
      pose proof (prefix_cons_inv_2 _ _ _ _ Hl) as Hl'.
      destruct (IH l Hl') as (j & fin' & -> & Hf).
      exists (S j), fin'. split; [reflexivity|exact Hf].
Qed.

(** The callbacks of a consumer run one after the other.  [P] is what a
    callback that returned has done, [B] what one that waits for ever has
    done, [T] what one has done at any moment of its run. *)
Lemma deliver_handled (P B T : Msg -> Trace -> Prop) (callback : Msg -> M unit)
      (deliveries : list Msg) (inflight : option (Msg * nat)) (tr tr' : Trace) (u : unit) :
  (forall m t, exists rest, (callback m t).2 = t ++ rest
                            /\ ((callback m t).1 = Ret tt -> P m rest)
                            /\ ((callback m t).1 = Blocked -> B m rest)
                            /\ forall n, T m (take n rest)) ->
  nats.deliver callback deliveries inflight tr = (Ret u, tr') ->
  exists blocks tail,
    tr' = tr ++ concat blocks ++ tail
    /\ Forall2 P (take (length blocks) deliveries) blocks
    /\ match deliveries !! length blocks with
       | Some m => (callback m (tr ++ concat blocks)).1 = Blocked /\ B m tail
       | None =>
           match inflight with
           | Some (m, _) => T m tail
           | None => tail = []
           end
       end.
Proof.
  intros Hcb. destruct u. revert tr.
  induction deliveries as [|m ds IH]; intros t; cbn [nats.deliver].
  - destruct inflight as [[m n]|].
    + destruct (Hcb m t) as (rest & Ht & _ & _ & HT).
      destruct (callback m t) as [o t1]. cbn [fst snd] in Ht. subst t1.
      rewrite take_app_add.
      assert (Hcut : (@Ret unit tt, t ++ take n rest) = (Ret tt, tr') ->
                     exists blocks tail,
                       tr' = t ++ concat blocks ++ tail
                       /\ Forall2 P (take (length blocks) []) blocks
                       /\ match @nil Msg !! length blocks with
                          | Some m0 => (callback m0 (t ++ concat blocks)).1 = Blocked
                                       /\ B m0 tail
                          | None => T m tail
                          end).
      { intros [= <-]. exists [], (take n rest). split; [reflexivity|].
        split; [constructor|]. apply HT. }
      destruct o as [[]|pe|].
      * exact Hcut.
      * destruct (_ <=? _)%nat; [discriminate|exact Hcut].
      * exact Hcut.
    + intros [= <-]. exists [], []. rewrite app_nil_r. split; [reflexivity|].
      split; [constructor|reflexivity].
  - destruct (Hcb m t) as (rest & Ht & HP & HB & _).
    destruct (callback m t) as [[[]|pe|] t1] eqn:Hrun; cbn [fst snd] in Ht, HP, HB; subst t1.
    + intros Hd. destruct (IH (t ++ rest) Hd) as (blocks & tail & -> & HF & Hlast).
      exists (rest :: blocks), tail. cbn [concat length take lookup].
      split; [rewrite <- !app_assoc; reflexivity|].
      split; [constructor; [apply HP; reflexivity|exact HF]|].
      change ((m :: ds) !! S (length blocks)) with (ds !! length blocks).
      rewrite app_assoc. exact Hlast.
    + discriminate.
    + intros [= <-]. exists [], rest. cbn [concat length take app].
      split; [reflexivity|]. split; [constructor|].
      change ((m :: ds) !! 0%nat) with (Some m). rewrite app_nil_r, Hrun.
      split; [reflexivity|apply HB; reflexivity].
Qed.

(** The goroutine of the callbacks only adds to the trace. *)
Lemma deliver_extends (callback : Msg -> M unit) (deliveries : list Msg)
      (inflight : option (Msg * nat)) (tr : Trace) :
  (forall m t, exists rest, (callback m t).2 = t ++ rest) ->
  exists rest, (nats.deliver callback deliveries inflight tr).2 = tr ++ rest.
Proof.
  intros Hcb. revert tr. induction deliveries as [|m ds IH]; intros t; cbn [nats.deliver].
  - destruct inflight as [[m n]|]; [|exists []; cbn; rewrite app_nil_r; reflexivity].
    destruct (Hcb m t) as (rest & Ht). destruct (callback m t) as [o t1].
    cbn [snd] in Ht. subst t1. rewrite take_app_add.
    destruct o as [[]|pe|]; [exists (take n rest); reflexivity| |exists (take n rest); reflexivity].
    destruct (_ <=? _)%nat; [exists rest|exists (take n rest)]; reflexivity.
  - destruct (Hcb m t) as (rest & Ht). destruct (callback m t) as [[[]|pe|] t1];
      cbn [snd] in Ht; subst t1; [|exists rest; reflexivity ..].
    destruct (IH (t ++ rest)) as (rest' & Hd). rewrite Hd.
    exists (rest ++ rest'). rewrite app_assoc. reflexivity.
Qed.

(** [Consume] returns nil when the context is cancelled: the deliveries
    whose callback returned, in order, then the delivery in the hands of
    the callback. *)
Lemma Consume_handled (P B T : Msg -> Trace -> Prop) (c : nats.Client)
      (callback : Msg -> M unit) (deliveries : list Msg)
      (inflight : option (Msg * nat)) (tr : Trace) :
  (forall m t, exists rest, (callback m t).2 = t ++ rest
                            /\ ((callback m t).1 = Ret tt -> P m rest)
                            /\ ((callback m t).1 = Blocked -> B m rest)
                            /\ forall n, T m (take n rest)) ->
  (nats.Consume c callback deliveries inflight tr).1 = Ret None ->
  exists blocks tail,
    (nats.Consume c callback deliveries inflight tr).2
      = tr ++ [EvConsume] ++ concat blocks ++ tail ++ [EvConsumeStop]
    /\ Forall2 P (take (length blocks) deliveries) blocks
    /\ match deliveries !! length blocks with
       | Some m => (callback m (tr ++ [EvConsume] ++ concat blocks)).1 = Blocked /\ B m tail
       | None =>
           match inflight with
           | Some (m, _) => T m tail
           | None => tail = []
           end
       end.
Proof.
  intros Hcb. unfold nats.Consume. destruct (nats.Consumer c) as [consumer|]; [|discriminate].
  run_M. destruct (nats.Consume_err consumer tr) as [e|]; [discriminate|].
  cbv beta iota zeta.
  pose proof (deliver_handled P B T callback deliveries inflight (tr ++ [EvConsume])) as Hd.
  destruct (nats.deliver callback deliveries inflight (tr ++ [EvConsume])) as [[u|pe|] t];
    cbn [fst snd]; try discriminate.
  intros _. destruct (Hd t u Hcb eq_refl) as (blocks & tail & -> & HF & Hlast).
  exists blocks, tail. split; [rewrite <- !app_assoc; reflexivity|].
  split; [exact HF|]. rewrite app_assoc. exact Hlast.
Qed.

(** Whatever the callbacks do, [Consume] does not wait for them: it
    returns, or a callback has taken the process down. *)
Lemma Consume_not_blocked (c : nats.Client) (callback : Msg -> M unit)
      (deliveries : list Msg) (inflight : option (Msg * nat)) (tr : Trace) :
  (nats.Consume c callback deliveries inflight tr).1 <> Blocked.
Proof.
  unfold nats.Consume. destruct (nats.Consumer c) as [consumer|]; [|discriminate].
  run_M. destruct (nats.Consume_err consumer tr) as [e|]; [discriminate|].
  cbv beta iota zeta.
  assert (H : forall t, (nats.deliver callback deliveries inflight t).1 <> Blocked).
  { induction deliveries as [|m ds IH]; intros t; cbn [nats.deliver].
    - destruct inflight as [[m n]|]; [|discriminate].
      destruct (callback m t) as [[[]|pe|] t1]; try discriminate.
      destruct (_ <=? _)%nat; discriminate.
    - destruct (callback m t) as [[[]|pe|] t1]; [apply IH|discriminate|discriminate]. }
  specialize (H (tr ++ [EvConsume])).
  destruct (nats.deliver callback deliveries inflight (tr ++ [EvConsume])) as [[u|pe|] t];
    cbn [fst] in *; [discriminate|discriminate|congruence].
Qed.

Section WorkerRun.

Variable W : nats.World.
Variable Parse : Msg -> result nats.MsgMeta.
Variable ResponseSubject : nats.MsgMeta -> string.
Variable json_Marshal : nats.ResultMsg -> result bytes.
Variable selectOrder : Trace -> list worker.SelectCase.

(** The callback of the worker speaks to the broker of its own message
    only. *)
Lemma callback_others (w : worker.Worker) (d : Duration) (msg m' : Msg) (tr : Trace) :
  (Subject msg, StreamSeq msg) <> (Subject m', StreamSeq m') ->
  exists rest,
    (worker.callback W Parse ResponseSubject json_Marshal selectOrder w d msg tr).2
      = tr ++ rest
    /\ msgOps m' rest = [].
Proof.
  intros Hne. pose proof (sameMsg_false m' msg Hne) as Hb.
  unfold worker.callback, nats.PublishResult, nats.DoubleAck, nats.msgOp.
  assert (Hleaf : forall (t : Trace) rest, msgOps m' rest = [] -> t = tr ++ rest ->
                    exists rest0, t = tr ++ rest0 /\ msgOps m' rest0 = [])
    by (intros t rest H ->; exists rest; split; [reflexivity|exact H]).
  destruct (Parse msg) as [p|e].
  2:{ run_M. cbn [fst snd]. eapply Hleaf; [|rewrite <- !app_assoc; reflexivity].
      rewrite ?msgOps_app, ?msgOps_cons. cbv beta iota. rewrite ?Hb. reflexivity. }
  run_M. cbv beta iota zeta.
  destruct (worker.handlers w !! nats.HandlerName p) as [h|].
  2:{ cbn [fst snd]. eapply Hleaf; [|rewrite <- !app_assoc; reflexivity].
      rewrite ?msgOps_app, ?msgOps_cons. cbv beta iota. rewrite ?Hb. reflexivity. }
  set (tr1 := (tr ++ [EvLog LInfo None ("Received request " +:+ Subject msg)]) ++ [EvNow]).
  assert (Htr1 : tr1 = tr ++ [EvLog LInfo None ("Received request " +:+ Subject msg); EvNow])
    by (subst tr1; rewrite <- app_assoc; reflexivity).
  destruct (Z.leb_spec d 0) as [Hd|Hd].
  { rewrite (runHandler_panics W selectOrder msg h d tr1 Hd). cbn [fst snd].
    eapply Hleaf; [|exact Htr1]. reflexivity. }
  destruct (runHandler_shape W selectOrder msg h d tr1 Hd) as (k & _ & Hrun & Hnp & _).
  cbv zeta in Hrun, Hnp.
  destruct (worker.runHandler W selectOrder msg h d tr1) as [o t2].
  cbn [fst snd] in Hrun, Hnp.
  assert (Hext : exists rest2, t2 = tr ++ rest2 /\ msgOps m' rest2 = []).
  { rewrite Hrun, Htr1. rewrite <- !app_assoc. eexists. split; [reflexivity|].
    rewrite !msgOps_app, (ticks_other m' msg k Hne), ?msgOps_cons. cbv beta iota.
    rewrite ?Hb. destruct o; reflexivity. }
  clear Hrun. destruct Hext as (rest2 & -> & Ho2).
  assert (Hleaf2 : forall (t : Trace) rest3, msgOps m' rest3 = [] ->
                     t = (tr ++ rest2) ++ rest3 ->
                     exists rest0, t = tr ++ rest0 /\ msgOps m' rest0 = []).
  { intros t rest3 H ->. exists (rest2 ++ rest3).
    split; [rewrite app_assoc; reflexivity|]. rewrite msgOps_app, Ho2, H. reflexivity. }
  destruct o as [[e|]|pe|].
  - cbv beta iota zeta. cbn [nats.StartedAt nats.Response].
    destruct (json_Marshal _) as [data|me].
    + rewrite Publish_run. cbv zeta.
      destruct (nats.js_Publish _ _ _ _) as [puback [e'|]];
        [destruct (strings_Contains (Error e') fenceText)|];
        cbv beta iota zeta; cbn [fst snd];
        try destruct (nats.msg_reply W _ msg OpDoubleAck);
        cbn [fst snd];
        (eapply Hleaf2; [|rewrite <- !app_assoc; reflexivity]);
        rewrite ?msgOps_app, ?msgOps_cons; cbv beta iota; rewrite ?Hb; reflexivity.
    + cbn [fst snd]. eapply Hleaf2; [|rewrite <- !app_assoc; reflexivity].
      rewrite ?msgOps_app, ?msgOps_cons. cbv beta iota. rewrite ?Hb. reflexivity.
  - cbv beta iota zeta.
    destruct (nats.msg_reply W _ msg OpDoubleAck); cbn [fst snd];
      (eapply Hleaf2; [|rewrite <- !app_assoc; reflexivity]);
      rewrite ?msgOps_app, ?msgOps_cons; cbv beta iota; rewrite ?Hb; reflexivity.
  - exfalso. apply (Hnp pe). reflexivity.
  - cbn [fst snd]. eapply Hleaf2; [|rewrite app_nil_r; reflexivity]. reflexivity.
Qed.

(** One run of the callback of the worker: what it adds to the trace
    speaks of its own message only, extends its deadline and answers it at
    most once; exactly once when the callback returns, not at all when it
    waits for ever. *)
Lemma callback_block (w : worker.Worker) (d : Duration) (msg : Msg) (tr : Trace) :
  let out := worker.callback W Parse ResponseSubject json_Marshal selectOrder w d msg tr in
  exists rest fin,
    out.2 = tr ++ rest
    /\ ownOnly msg rest
    /\ extendedThen msg rest fin
    /\ (fin = [] \/ fin = [OpNak] \/ fin = [OpTerm] \/ fin = [OpDoubleAck])
    /\ (out.1 = Ret tt -> fin <> [])
    /\ (out.1 = Blocked -> fin = []).
Proof.
  intros out. subst out.
  destruct (callback_cases W Parse ResponseSubject json_Marshal selectOrder w d msg tr)
    as (rest & k & fin & pubs & Htr & Hops & _ & Hcase).
  cbv zeta in Htr, Hcase.
  exists rest, fin. split; [exact Htr|]. split.
  { intros m' Hne. destruct (callback_others w d msg m' tr Hne) as (rest' & Htr' & Hq).
    rewrite Htr in Htr'. apply app_inv_head in Htr'. subst rest'. exact Hq. }
  split; [exists k; exact Hops|].
  destruct Hcase as [(Hr & _ & -> & _)|[(Hr & _ & -> & _)|[(Hn & -> & _)|[(Hr & _ & -> & _)|
                    [(Hr & _ & -> & _)|(Hr & _ & [-> | ->] & _)]]]]];
    (split; [auto|]); (split; [try discriminate; intros; contradiction
                              |try reflexivity; rewrite Hr; discriminate]).
Qed.

(** X8.  When the context is cancelled [Run] of the worker returns,
    whatever its callbacks are doing: short of a panic (which takes the
    process down) it does not wait.  When it returns nil the deliveries
    were handled one after the other, a message that is delivered again
    being handled again.  Every
    delivery whose callback returned was answered by it exactly once,
    after any number of deadline extensions, with a negative ack, a
    termination or a double ack, and that callback told the broker of no
    other message.  The deliveries after a callback that waits for ever
    are not handled, and that callback has extended the deadline of its
    message without answering it.  The delivery in the hands of the
    callback when the context is cancelled has at most one answer. *)
Theorem Run_answers_every_request (w : worker.Worker) (deliveries : list Msg)
        (inflight : option (Msg * nat)) (tr : Trace) :
  let out := worker.Run W Parse ResponseSubject json_Marshal selectOrder w
               deliveries inflight tr in
  out.1 <> Blocked
  /\ (out.1 = Ret None ->
      exists consumer blocks tail,
        nats.Consumer (worker.natsClient w) = Some consumer
        /\ out.2 = tr ++ [EvLog LInfo None "Listening for requests"; EvConsume]
                      ++ concat blocks ++ tail ++ [EvConsumeStop]
        /\ Forall2 (fun m block =>
                      (exists fin, extendedThen m block [fin]
                                   /\ (fin = OpNak \/ fin = OpTerm \/ fin = OpDoubleAck))
                      /\ ownOnly m block)
                   (take (length blocks) deliveries) blocks
        /\ match deliveries !! length blocks with
           | Some m =>
               (worker.callback W Parse ResponseSubject json_Marshal selectOrder w
                  (cc_AckWait (nats.CachedInfo_Config consumer)) m
                  (tr ++ [EvLog LInfo None "Listening for requests"; EvConsume]
                      ++ concat blocks)).1
                 = Blocked
               /\ extendedThen m tail [] /\ ownOnly m tail
           | None =>
               match inflight with
               | Some (m, _) =>
                   (exists fin, extendedThen m tail fin
                                /\ (fin = [] \/ fin = [OpNak] \/ fin = [OpTerm]
                                    \/ fin = [OpDoubleAck]))
                   /\ ownOnly m tail
               | None => tail = []
               end
           end).
Proof.
  intros out. subst out. unfold worker.Run.
  destruct (nats.Consumer (worker.natsClient w)) as [consumer|]; [|split; discriminate].
  set (d := cc_AckWait (nats.CachedInfo_Config consumer)).
  set (cb := worker.callback W Parse ResponseSubject json_Marshal selectOrder w d).
  run_M. cbv beta iota zeta.
  set (t0 := tr ++ [EvLog LInfo None "Listening for requests"]).
  split; [apply Consume_not_blocked|]. intros Hret.
  set (P := fun (m : Msg) (block : Trace) =>
              (exists fin, extendedThen m block [fin]
                           /\ (fin = OpNak \/ fin = OpTerm \/ fin = OpDoubleAck))
              /\ ownOnly m block).
  set (B := fun (m : Msg) (tail : Trace) => extendedThen m tail [] /\ ownOnly m tail).
  set (T := fun (m : Msg) (tail : Trace) =>
              (exists fin, extendedThen m tail fin
                           /\ (fin = [] \/ fin = [OpNak] \/ fin = [OpTerm]
                               \/ fin = [OpDoubleAck]))
              /\ ownOnly m tail).
  assert (Hcb : forall m t, exists rest, (cb m t).2 = t ++ rest
                                         /\ ((cb m t).1 = Ret tt -> P m rest)
                                         /\ ((cb m t).1 = Blocked -> B m rest)
                                         /\ forall n, T m (take n rest)).
  { intros m t. subst cb.
    destruct (callback_block w d m t)
      as (rest & fin & Htr & Hown & [k Hops] & Hfin & Hr & Hb).
    cbv zeta in Htr, Hr, Hb.
    exists rest. split; [exact Htr|]. split; [|split].
    - intros Hret'. specialize (Hr Hret'). split; [|exact Hown].
      destruct Hfin as [-> | [-> | [-> | ->]]]; [contradiction|exists OpNak|exists OpTerm
                                          |exists OpDoubleAck];
        (split; [exists k; exact Hops|auto]).
    - intros Hblk. rewrite (Hb Hblk) in Hops. split; [exists k; exact Hops|exact Hown].
    - intros n. split; [|apply ownOnly_take; exact Hown].
      pose proof (msgOps_take m n rest) as Hp. rewrite Hops in Hp.
      apply prefix_replicate_app in Hp as (j & fin' & Hj & Hf).
      + exists fin'. split; [exists j; exact Hj|].
        destruct Hf as [-> | ->]; [left; reflexivity|exact Hfin].
      + destruct Hfin as [-> | [-> | [-> | ->]]]; cbn; lia. }
  destruct (Consume_handled P B T (worker.natsClient w) cb deliveries inflight t0 Hcb Hret)
    as (blocks & tail & Htr & HF & Hlast).
  exists consumer, blocks, tail. split; [reflexivity|].
  split; [rewrite Htr; subst t0; rewrite <- !app_assoc; reflexivity|].
  split; [exact HF|].
  replace (tr ++ [EvLog LInfo None "Listening for requests"; EvConsume] ++ concat blocks)
    with (t0 ++ [EvConsume] ++ concat blocks)
    by (subst t0; rewrite <- !app_assoc; reflexivity).
  exact Hlast.
Qed.

End WorkerRun.

(** Two requests handled, and a third in the hands of the callback when
    the context is cancelled: [tag] succeeds and is double acked,
    [release] fails and, its failure published, is double acked too. *)
Lemma Run_answers_every_request_witness :
  let ds := [demo.request "tag"; demo.request "release"] in
  let out :=
    worker.Run (demo.world None None demo.noAckError) demo.Parse
      demo.ResponseSubject demo.json_Marshal demo.selectOrder
      (worker.NewWorker (demo.client None None) demo.github) ds
      (Some (demo.request "tag", 5%nat)) [] in
  exists blocks tail,
    out.2 = [EvLog LInfo None "Listening for requests"; EvConsume]
              ++ concat blocks ++ tail ++ [EvConsumeStop]
    /\ Forall2 (fun m block =>
                  (exists fin, extendedThen m block [fin]
                               /\ (fin = OpNak \/ fin = OpTerm \/ fin = OpDoubleAck))
                  /\ ownOnly m block)
               (take (length blocks) ds) blocks.
Proof.
  intros ds out.
  destruct (Run_answers_every_request (demo.world None None demo.noAckError) demo.Parse
              demo.ResponseSubject demo.json_Marshal demo.selectOrder
              (worker.NewWorker (demo.client None None) demo.github) ds
              (Some (demo.request "tag", 5%nat)) []) as [_ H].
  destruct (H eq_refl) as (consumer & blocks & tail & _ & Htr & HF & _).
  exists blocks, tail. split; [exact Htr|exact HF].
Defined.

(** ** Every delivered sequence message is answered *)

Section SequencesRun.

Variable W : nats.World.
Variable Parse : Msg -> result nats.MsgMeta.

(** The callback of [ConsumeSequences], for a sequence handler that
    returns and leaves the messages to the client: what it tells the
    broker about its own message and about the others. *)
Lemma wrappedCB_answers (c : nats.Client) (handler : nats.SequenceHandler)
      (msg : Msg) (tr : Trace) :
  (forall sequenceId b t,
      exists err rest, handler sequenceId b t = (Ret err, t ++ rest)
                       /\ forall m, msgOps m rest = []) ->
  let out := nats.wrappedCB W Parse c handler msg tr in
  exists rest,
    out.2 = tr ++ rest
    /\ (out.1 = Ret tt ->
        (msgOps msg rest = [OpTerm] /\ exists e, Parse msg = Err e)
        \/ ((msgOps msg rest = [OpNakWithDelay (3 * Second)%Z] \/ msgOps msg rest = [OpAck])
            /\ exists hopsMsg, Parse msg = Ok hopsMsg))
    /\ ownOnly msg rest
    /\ (out.1 = Blocked -> msgOps msg rest = [])
    /\ (msgOps msg rest = [] \/ msgOps msg rest = [OpTerm]
        \/ msgOps msg rest = [OpNakWithDelay (3 * Second)%Z] \/ msgOps msg rest = [OpAck]).
Proof.
  intros Hh out. subst out. unfold nats.wrappedCB, nats.msgOp, ownOnly.
  assert (Hother : forall m' op, (Subject msg, StreamSeq msg) <> (Subject m', StreamSeq m') ->
                                 msgOps m' [EvMsgOp msg op] = []).
  { intros m' op Hne. rewrite msgOps_cons, (sameMsg_false m' msg Hne). reflexivity. }
  destruct (Parse msg) as [hopsMsg|e] eqn:HP.
  - run_M.
    destruct (FetchMessageBundle_quiet Parse c hopsMsg tr) as (rest1 & Ht1 & _ & Hq1).
    destruct (nats.FetchMessageBundle Parse c hopsMsg tr) as [[[b|e]|pe|] t1];
      cbn [fst snd] in Ht1; subst t1.
    + destruct (Hh (nats.SequenceId hopsMsg) b (tr ++ rest1)) as (err & rest2 & Hrun & Hq2).
      rewrite Hrun. destruct err as [err|]; cbn [fst snd].
      * eexists. split; [rewrite <- !app_assoc; reflexivity|].
        assert (Hops : msgOps msg (rest1 ++ rest2
                                     ++ [EvLog LError (Some err) "Failed to process message"]
                                     ++ [EvMsgOp msg (OpNakWithDelay (3 * Second)%Z)])
                       = [OpNakWithDelay (3 * Second)%Z])
          by (rewrite !msgOps_app, Hq1, Hq2, msgOps_self; reflexivity).
        split; [intros _; right; split; [left; exact Hops|eexists; reflexivity]|].
        split; [intros m' Hne; rewrite !msgOps_app, Hq1, Hq2, (Hother _ _ Hne); reflexivity|].
        split; [discriminate|]. right. right. left. exact Hops.
      * eexists. split; [rewrite <- !app_assoc; reflexivity|].
        assert (Hops : msgOps msg (rest1 ++ rest2 ++ [EvMsgOp msg OpAck]) = [OpAck])
          by (rewrite !msgOps_app, Hq1, Hq2, msgOps_self; reflexivity).
        split; [intros _; right; split; [right; exact Hops|eexists; reflexivity]|].
        split; [intros m' Hne; rewrite !msgOps_app, Hq1, Hq2, (Hother _ _ Hne); reflexivity|].
        split; [discriminate|]. right. right. right. exact Hops.
    + cbn [fst snd]. eexists. split; [rewrite <- !app_assoc; reflexivity|].
      split; [discriminate|].
      split; [intros m' Hne; rewrite !msgOps_app, Hq1, (Hother _ _ Hne); reflexivity|].
      split; [discriminate|]. right. right. left.
      rewrite !msgOps_app, Hq1, msgOps_self. reflexivity.
    + cbn [fst snd]. exists rest1. split; [reflexivity|]. split; [discriminate|].
      split; [intros m' _; apply Hq1|]. split; [discriminate|]. left. apply Hq1.
    + cbn [fst snd]. exists rest1. split; [reflexivity|]. split; [discriminate|].
      split; [intros m' _; apply Hq1|]. split; [intros _; apply Hq1|]. left. apply Hq1.
  - run_M. cbn [fst snd]. eexists. split; [rewrite <- app_assoc; reflexivity|].
    assert (Hops : msgOps msg ([EvMsgOp msg OpTerm]
                                 ++ [EvLog LError (Some e) "Unable to parse message"])
                   = [OpTerm])
      by (rewrite msgOps_app, msgOps_self; reflexivity).
    split; [intros _; left; split; [exact Hops|eexists; reflexivity]|].
    split; [intros m' Hne; rewrite msgOps_app, (Hother _ _ Hne); reflexivity|].
    split; [discriminate|]. right. left. exact Hops.
Qed.

(** [ConsumeSequences] with a handler that returns and leaves the
    messages to the client. *)
Lemma ConsumeSequences_answers (c : nats.Client) (handler : nats.SequenceHandler)
      (deliveries : list Msg) (inflight : option (Msg * nat)) (tr : Trace) :
  (forall sequenceId b t,
      exists err rest, handler sequenceId b t = (Ret err, t ++ rest)
                       /\ forall m, msgOps m rest = []) ->
  let out := nats.ConsumeSequences W Parse c handler deliveries inflight tr in
  out.1 <> Blocked
  /\ (out.1 = Ret None ->
      exists blocks tail,
        out.2 = tr ++ [EvConsume] ++ concat blocks ++ tail ++ [EvConsumeStop]
        /\ Forall2 (fun m block =>
                      ((msgOps m block = [OpTerm] /\ exists e, Parse m = Err e)
                       \/ ((msgOps m block = [OpNakWithDelay (3 * Second)%Z]
                            \/ msgOps m block = [OpAck])
                           /\ exists hopsMsg, Parse m = Ok hopsMsg))
                      /\ ownOnly m block)
                   (take (length blocks) deliveries) blocks
        /\ match deliveries !! length blocks with
           | Some m =>
               (nats.wrappedCB W Parse c handler m
                  (tr ++ [EvConsume] ++ concat blocks)).1 = Blocked
               /\ msgOps m tail = [] /\ ownOnly m tail
           | None =>
               match inflight with
               | Some (m, _) =>
                   (msgOps m tail = [] \/ msgOps m tail = [OpTerm]
                    \/ msgOps m tail = [OpNakWithDelay (3 * Second)%Z]
                    \/ msgOps m tail = [OpAck])
                   /\ ownOnly m tail
               | None => tail = []
               end
           end).
Proof.
  intros Hh out. subst out. unfold nats.ConsumeSequences.
  split; [apply Consume_not_blocked|]. intros Hret.
  set (P := fun (m : Msg) (block : Trace) =>
              ((msgOps m block = [OpTerm] /\ exists e, Parse m = Err e)
               \/ ((msgOps m block = [OpNakWithDelay (3 * Second)%Z]
                    \/ msgOps m block = [OpAck])
                   /\ exists hopsMsg, Parse m = Ok hopsMsg))
              /\ ownOnly m block).
  set (B := fun (m : Msg) (tail : Trace) => msgOps m tail = [] /\ ownOnly m tail).
  set (T := fun (m : Msg) (tail : Trace) =>
              (msgOps m tail = [] \/ msgOps m tail = [OpTerm]
               \/ msgOps m tail = [OpNakWithDelay (3 * Second)%Z]
               \/ msgOps m tail = [OpAck])
              /\ ownOnly m tail).
  assert (Hcb : forall m t, exists rest,
               (nats.wrappedCB W Parse c handler m t).2 = t ++ rest
               /\ ((nats.wrappedCB W Parse c handler m t).1 = Ret tt -> P m rest)
               /\ ((nats.wrappedCB W Parse c handler m t).1 = Blocked -> B m rest)
               /\ forall n, T m (take n rest)).
  { intros m t.
    destruct (wrappedCB_answers c handler m t Hh) as (rest & Htr & Hown & Hoth & Hblk & Hall).
    exists rest. split; [exact Htr|]. split; [|split].
    - intros Hr. split; [apply Hown; exact Hr|exact Hoth].
    - intros Hb. split; [apply Hblk; exact Hb|exact Hoth].
    - intros n. split; [|apply ownOnly_take; exact Hoth].
      pose proof (msgOps_take m n rest) as Hp.
      assert (Hone : forall op, msgOps m rest = [op] ->
                                msgOps m (take n rest) = [] \/ msgOps m (take n rest) = [op]).
      { intros op Hop. rewrite Hop in Hp.
        destruct (msgOps m (take n rest)) as [|a l]; [left; reflexivity|right].
        pose proof (prefix_cons_inv_1 _ _ _ _ Hp) as ->.
        pose proof (prefix_cons_inv_2 _ _ _ _ Hp) as Hl.
        apply prefix_nil_inv in Hl. subst l. reflexivity. }
      destruct Hall as [H0|[H1|[H1|H1]]].
      + rewrite H0 in Hp. apply prefix_nil_inv in Hp. left. exact Hp.
      + destruct (Hone _ H1) as [-> | ->]; auto.
      + destruct (Hone _ H1) as [-> | ->]; auto.
      + destruct (Hone _ H1) as [-> | ->]; auto. }
  apply (Consume_handled P B T c _ deliveries inflight tr Hcb Hret).
Qed.

(** X9.  When the context is cancelled [ConsumeSequences] returns,
    whatever its callbacks are doing: short of a panic (which takes the
    process down) it does not wait.  When it returns nil the deliveries
    were handled one after the other, a message that is delivered again
    being handled again.  Every
    delivery whose callback returned was answered by it exactly once:
    terminated when it does not parse, and otherwise either negatively
    acked with a delay of 3 s or acked; and that callback told the broker
    of no other message.  The deliveries after a callback that waits for
    ever (for the history of its sequence) are not handled, and that
    callback has not answered its message.  The delivery in the hands of
    the callback when the context is cancelled has at most one answer.
    This holds for every sequence handler that returns and leaves the
    messages to the client. *)
Theorem ConsumeSequences_answers_every_message (c : nats.Client)
        (handler : nats.SequenceHandler) (deliveries : list Msg)
        (inflight : option (Msg * nat)) (tr : Trace) :
  (forall sequenceId b t,
      exists err rest, handler sequenceId b t = (Ret err, t ++ rest)
                       /\ forall m, msgOps m rest = []) ->
  let out := nats.ConsumeSequences W Parse c handler deliveries inflight tr in
  out.1 <> Blocked
  /\ (out.1 = Ret None ->
      exists blocks tail,
        out.2 = tr ++ [EvConsume] ++ concat blocks ++ tail ++ [EvConsumeStop]
        /\ Forall2 (fun m block =>
                      ((msgOps m block = [OpTerm] /\ exists e, Parse m = Err e)
                       \/ ((msgOps m block = [OpNakWithDelay (3 * Second)%Z]
                            \/ msgOps m block = [OpAck])
                           /\ exists hopsMsg, Parse m = Ok hopsMsg))
                      /\ ownOnly m block)
                   (take (length blocks) deliveries) blocks
        /\ match deliveries !! length blocks with
           | Some m =>
               (nats.wrappedCB W Parse c handler m
                  (tr ++ [EvConsume] ++ concat blocks)).1 = Blocked
               /\ msgOps m tail = [] /\ ownOnly m tail
           | None =>
               match inflight with
               | Some (m, _) =>
                   (msgOps m tail = [] \/ msgOps m tail = [OpTerm]
                    \/ msgOps m tail = [OpNakWithDelay (3 * Second)%Z]
                    \/ msgOps m tail = [OpAck])
                   /\ ownOnly m tail
               | None => tail = []
               end
           end).
Proof. apply ConsumeSequences_answers. Qed.

End SequencesRun.

(** Two deliveries of the sequence [SEQ], the second delivered twice, all
    acked; a fourth delivery is cut short by the cancellation. *)
Lemma ConsumeSequences_answers_every_message_witness :
  let step1 := demo.msg "acct.notify.SEQ.step1" "one" 2 in
  let step2 := demo.msg "acct.notify.SEQ.step2" "two" 4 in
  let ds := [step1; step2; step2] in
  let out := nats.ConsumeSequences (demo.world None None demo.noAckError) demo.Parse
               (demo.client None None) demo.sequenceHandler ds (Some (step1, 2%nat)) [] in
  exists blocks tail,
    out.2 = [EvConsume] ++ concat blocks ++ tail ++ [EvConsumeStop]
    /\ Forall2 (fun m block =>
                  ((msgOps m block = [OpTerm] /\ exists e, demo.Parse m = Err e)
                   \/ ((msgOps m block = [OpNakWithDelay (3 * Second)%Z]
                        \/ msgOps m block = [OpAck])
                       /\ exists hopsMsg, demo.Parse m = Ok hopsMsg))
                  /\ ownOnly m block)
               (take (length blocks) ds) blocks.
Proof.
  intros step1 step2 ds out.
  destruct (ConsumeSequences_answers_every_message (demo.world None None demo.noAckError)
              demo.Parse (demo.client None None) demo.sequenceHandler ds
              (Some (step1, 2%nat)) []) as [_ H].
  { intros sequenceId b t. exists None, [EvSequenceCallback sequenceId b].
    split; [reflexivity|]. intros m. reflexivity. }
  destruct (H eq_refl) as (blocks & tail & Htr & HF & _).
  exists blocks, tail. split; [exact Htr|exact HF].
Defined.

(** ** The runner as a sequence handler *)

Section RunnerRun.

Variable W : nats.World.
Variable Parse : Msg -> result nats.MsgMeta.
Variable c : nats.Client.
Variable body : hcl_Body.
Variable scheduler : Trace -> list nat.
Variable ParseHops : hcl_Body -> nats.MessageBundle -> result dsl.HopAST.

Let r : runner.Runner :=
  {| runner.hops := body;
     runner.natsClient := runner.Client_NatsClient W Parse c |}.

Lemma dispatchCall_quiet (call : dsl.CallAST) (sequenceId : string) (tr : Trace) :
  exists err rest,
    runner.dispatchCall r call sequenceId tr = (Ret err, tr ++ rest)
    /\ forall m, msgOps m rest = [].
Proof.
  subst r. rewrite dispatchCall_run.
  destruct (strings_Cut _ _) as [[app handler] [|]].
  - cbv zeta. destruct (nats.js_Publish _ _ _ _) as [puback [e|]].
    + destruct (strings_Contains (Error e) fenceText);
        [|destruct (strings_Contains (Error e) "err_code=10077")];
        eexists _, _; (split; [reflexivity|intros m; reflexivity]).
    + eexists _, _; split; [reflexivity|intros m; reflexivity].
  - exists (Some (DispatchParseError call)), []. rewrite app_nil_r.
    split; [reflexivity|intros m; reflexivity].
Qed.

Lemma step_quiet (sequenceId : string) (i : nat) (t : runner.tasks) (tr : Trace) :
  exists t' rest,
    runner.step r sequenceId i t tr = (Ret t', tr ++ rest)
    /\ forall m, msgOps m rest = [].
Proof.
  unfold runner.step.
  assert (Hnone : exists t' rest, (@Ret runner.tasks t, tr) = (Ret t', tr ++ rest)
                                  /\ forall m, msgOps m rest = [])
    by (exists t, []; rewrite app_nil_r; split; [reflexivity|intros m; reflexivity]).
  destruct (runner.goroutines t !! i) as [[call [|err|err]]|]; run_M.
  - destruct (dispatchCall_quiet call sequenceId tr) as (err & rest & Hrun & Hq).
    rewrite Hrun. eexists _, rest. split; [reflexivity|exact Hq].
  - eexists _, []. rewrite app_nil_r. split; [reflexivity|intros m; reflexivity].
  - exact Hnone.
  - exact Hnone.
Qed.

Lemma run_quiet (sequenceId : string) (sched : list nat) (t : runner.tasks) (tr : Trace) :
  exists t' rest,
    runner.run r sequenceId sched t tr = (Ret t', tr ++ rest)
    /\ forall m, msgOps m rest = [].
Proof.
  revert t tr. induction sched as [|i sched IH]; intros t tr.
  - exists t, []. rewrite app_nil_r. split; [reflexivity|intros m; reflexivity].
  - destruct (step_quiet sequenceId i t tr) as (t1 & rest1 & Hstep & Hq1).
    destruct (IH t1 (tr ++ rest1)) as (t2 & rest2 & Hrun & Hq2).
    exists t2, (rest1 ++ rest2). split.
    + cbn [runner.run]. run_M. rewrite Hstep, Hrun, app_assoc. reflexivity.
    + intros m. rewrite msgOps_app, Hq1, Hq2. reflexivity.
Qed.

Lemma dispatchCalls_quiet (sensor : dsl.OnAST) (sequenceId : string) (tr : Trace) :
  exists err rest,
    runner.dispatchCalls scheduler r sensor sequenceId tr = (Ret err, tr ++ rest)
    /\ forall m, msgOps m rest = [].
Proof.
  unfold runner.dispatchCalls. run_M.
  match goal with
  | |- context [runner.run r sequenceId ?s ?t ?tr0] =>
      destruct (run_quiet sequenceId s t tr0) as (t' & rest & Hrun & Hq); rewrite Hrun
  end.
  eexists _, _. split; [rewrite <- app_assoc; reflexivity|].
  intros m. rewrite msgOps_app, Hq. reflexivity.
Qed.

Lemma dispatchOns_quiet (sequenceId : string) (ons : list dsl.OnAST)
      (acc : option error) (tr : Trace) :
  exists err rest,
    runner.dispatchOns scheduler r sequenceId ons acc tr = (Ret err, tr ++ rest)
    /\ forall m, msgOps m rest = [].
Proof.
  revert acc tr. induction ons as [|sensor ons IH]; intros acc tr.
  - exists acc, []. rewrite app_nil_r. split; [reflexivity|intros m; reflexivity].
  - destruct (dispatchCalls_quiet sensor sequenceId tr) as (err & rest1 & Hrun & Hq1).
    cbn [runner.dispatchOns]. run_M. rewrite Hrun.
    destruct err as [err|];
      match goal with
      | |- context [runner.dispatchOns scheduler r sequenceId ons ?a ?t] =>
          destruct (IH a t) as (res & rest2 & Hons & Hq2); rewrite Hons
      end;
      (exists res, (rest1 ++ rest2); split; [rewrite app_assoc; reflexivity|];
       intros m; rewrite msgOps_app, Hq1, Hq2; reflexivity).
Qed.

(** [SequenceCallback] returns for every bundle, whether the evaluator
    returns a hop or an error, and leaves the delivered messages alone. *)
Lemma SequenceCallback_quiet (sequenceId : string) (msgBundle : nats.MessageBundle)
      (tr : Trace) :
  exists err rest,
    runner.SequenceCallback scheduler ParseHops r sequenceId msgBundle tr
      = (Ret err, tr ++ rest)
    /\ forall m, msgOps m rest = [].
Proof.
  unfold runner.SequenceCallback.
  assert (Hs : runner.sequenceHops r msgBundle = (body, None))
    by (unfold runner.sequenceHops; destruct (msgBundle !! "hops"); reflexivity).
  rewrite Hs. destruct (ParseHops body msgBundle) as [hop|e].
  - run_M.
    match goal with
    | |- context [runner.dispatchOns scheduler r sequenceId ?o ?a ?t] =>
        destruct (dispatchOns_quiet sequenceId o a t) as (res & rest & Hons & Hq);
          rewrite Hons
    end.
    eexists _, _. split; [rewrite <- app_assoc; reflexivity|].
    intros m. rewrite msgOps_app, Hq. reflexivity.
  - exists (Some e), []. rewrite app_nil_r. split; [reflexivity|intros m; reflexivity].
Qed.

(** X10.  The runner as the handler of [ConsumeSequences], for an
    evaluator that returns a hop or an error on every bundle (an
    evaluator that panics is outside this statement).  [SequenceCallback]
    returns on every bundle, whatever the rules evaluate to, whatever the
    broker answers to the dispatches and in whatever order the calls are
    scheduled, and it calls no method of any delivered message: the
    dispatching never answers a message.  So [Run] of the runner returns
    when the context is cancelled without waiting for its callbacks; and
    when it returns nil, every delivery whose
    callback returned was answered exactly once by the callback of the
    client -- terminated when it does not parse, otherwise negatively
    acked with a delay of 3 s or acked -- and that callback told the
    broker of no other message; the deliveries after a callback that waits
    for ever are not handled; the delivery in the hands of the callback
    when the context is cancelled has at most one answer. *)
Theorem Run_answers_every_message (deliveries : list Msg)
        (inflight : option (Msg * nat)) (tr : Trace) :
  (forall sequenceId msgBundle t,
      exists err rest,
        runner.SequenceCallback scheduler ParseHops r sequenceId msgBundle t
          = (Ret err, t ++ rest)
        /\ forall m, msgOps m rest = [])
  /\ let out := runner.Run scheduler ParseHops r deliveries inflight tr in
     out.1 <> Blocked
     /\ (out.1 = Ret None ->
         exists blocks tail,
           out.2 = tr ++ [EvConsume] ++ concat blocks ++ tail ++ [EvConsumeStop]
           /\ Forall2 (fun m block =>
                         ((msgOps m block = [OpTerm] /\ exists e, Parse m = Err e)
                          \/ ((msgOps m block = [OpNakWithDelay (3 * Second)%Z]
                               \/ msgOps m block = [OpAck])
                              /\ exists hopsMsg, Parse m = Ok hopsMsg))
                         /\ ownOnly m block)
                      (take (length blocks) deliveries) blocks
           /\ match deliveries !! length blocks with
              | Some m =>
                  (nats.wrappedCB W Parse c
                     (runner.SequenceCallback scheduler ParseHops r) m
                     (tr ++ [EvConsume] ++ concat blocks)).1 = Blocked
                  /\ msgOps m tail = [] /\ ownOnly m tail
              | None =>
                  match inflight with
                  | Some (m, _) =>
                      (msgOps m tail = [] \/ msgOps m tail = [OpTerm]
                       \/ msgOps m tail = [OpNakWithDelay (3 * Second)%Z]
                       \/ msgOps m tail = [OpAck])
                      /\ ownOnly m tail
                  | None => tail = []
                  end
              end).
Proof.
  split; [intros sequenceId msgBundle t; apply SequenceCallback_quiet|].
  unfold runner.Run.
  cbn [runner.natsClient r runner.ConsumeSequences runner.Client_NatsClient].
  apply ConsumeSequences_answers.
  intros sequenceId b t. apply SequenceCallback_quiet.
Qed.

End RunnerRun.

(** The runner of the example on a delivery of [step2]: three calls are
    dispatched and the message is acked. *)
Lemma Run_answers_every_message_witness :
  let ds := [demo.msg "acct.notify.SEQ.step2" "two" 4] in
  let out := runner.Run demo.scheduler demo.ParseHops demo.theRunner ds None [] in
  exists blocks,
    out.2 = [EvConsume] ++ concat blocks ++ [EvConsumeStop]
    /\ Forall2 (fun m block =>
                  ((msgOps m block = [OpTerm] /\ exists e, demo.Parse m = Err e)
                   \/ ((msgOps m block = [OpNakWithDelay (3 * Second)%Z]
                        \/ msgOps m block = [OpAck])
                       /\ exists hopsMsg, demo.Parse m = Ok hopsMsg))
                  /\ ownOnly m block)
               (take (length blocks) ds) blocks.
Proof.
  intros ds out.
  destruct (Run_answers_every_message (demo.world None None demo.noAckError) demo.Parse
              (demo.client None None) demo.rules demo.scheduler demo.ParseHops ds None [])
    as [_ [_ H]].
  destruct (H eq_refl) as (blocks & tail & Htr & HF & Hlast).
  exists blocks. split; [|exact HF].
  assert (Htail : tail = []).
  { destruct (ds !! length blocks) as [m|] eqn:Hm; [|exact Hlast].
    destruct Hlast as (Hblk & _). exfalso.
    destruct blocks as [|b0 blocks]; [|destruct blocks; discriminate Hm].
    injection Hm as <-. discriminate Hblk. }
  subst tail. exact Htr.
Defined.

(** ** Making a client *)

Section Construction.

Variable W : nats.World.
Variable js_Consumer :
  nats.jetstream_JetStream -> Trace -> string -> string -> result nats.jetstream_Consumer.
Variable js_CreateOrUpdateConsumer :
  nats.jetstream_JetStream -> Trace -> string -> ConsumerConfig
  -> result nats.jetstream_Consumer.

Lemma drains_app (tr1 tr2 : Trace) : drains (tr1 ++ tr2) = (drains tr1 + drains tr2)%nat.
Proof. unfold drains. rewrite List.filter_app, length_app. reflexivity. Qed.

(** [initReplayConsumer] returns; it does not drain the connection; when
    it fails the client is as before and nothing was published. *)
Lemma initReplayConsumer_resources (c : nats.Client) (sequenceId : string) (tr : Trace) :
  exists c' err rest,
    nats.initReplayConsumer W c (nats.accountId c) sequenceId tr = (Ret (c', err), tr ++ rest)
    /\ drains rest = 0%nat
    /\ match err with
       | Some _ => c' = c /\ published rest = []
       | None => nats.Consumer c' <> None /\ nats.accountId c' = nats.accountId c
       end.
Proof.
  rewrite initReplayConsumer_run. cbv zeta.
  destruct (nats.js_Stream _ _ _) as [stream|err].
  2:{ eexists _, _, _. split; [reflexivity|]. repeat split. }
  destruct (nats.GetLastMsgForSubject stream _ _) as [[rawMsg|] [err|]];
    try (eexists _, _, _; split; [rewrite <- !app_assoc; reflexivity|]; repeat split).
  destruct (nats.js_CreateConsumer _ _ _ _) as [consumer|err].
  2:{ eexists _, _, _. split; [rewrite <- !app_assoc; reflexivity|]. repeat split. }
  rewrite Publish_run. cbv zeta.
  destruct (nats.js_Publish _ _ _ _) as [puback [e|]];
    [destruct (strings_Contains (Error e) fenceText)|];
    (eexists _, _, _; split; [rewrite <- !app_assoc; reflexivity|]);
    (split; [reflexivity|]); (split; [discriminate|reflexivity]).
Qed.

(** X11.  Each of the three constructors ([NewClient], [NewReplayClient],
    [NewWorkerClient]) returns either a client or an error, never both and
    never neither.  A client that is returned has its consumer set and the
    account id it was asked for, and its connection has not been drained.
    When the construction fails, nothing has been published, and the
    connection is drained exactly when it had been opened; the drain is
    then the last thing the constructor does. *)
Theorem construct_cleanup (role : Role) (natsUrl accountId : string) (tr : Trace) :
  exists res rest,
    construct W js_Consumer js_CreateOrUpdateConsumer role natsUrl accountId tr
      = (Ret res, tr ++ rest)
    /\ ((exists cl, res = (Some cl, None)
                    /\ nats.Consumer cl <> None
                    /\ nats.accountId cl = accountId
                    /\ drains rest = 0%nat)
        \/ (exists e, res = (None, Some e)
                      /\ published rest = []
                      /\ match nats.nats_Connect W tr natsUrl nats.connectOptions with
                         | Ok _ => drains rest = 1%nat /\ last rest = Some EvDrain
                         | Err _ => drains rest = 0%nat
                         end)).
Proof.
  destruct role as [|sequenceId|appName]; unfold construct.
  - unfold client.NewClient, client.initConsumer, nats.Close. run_M.
    destruct (nats.nats_Connect W tr natsUrl nats.connectOptions) as [nc|err].
    2:{ eexists _, _. split; [reflexivity|]. right. eexists. repeat split. }
    cbv beta iota zeta. destruct (nats.jetstream_New nc _) as [js|err].
    2:{ eexists _, _. split; [rewrite <- !app_assoc; reflexivity|].
        right. eexists. repeat split. }
    cbv beta iota zeta. cbn [nats.JetStream].
    destruct (js_Consumer js _ accountId _) as [consumer|err].
    + eexists _, _. split; [rewrite <- !app_assoc; reflexivity|].
      left. eexists. split; [reflexivity|]. repeat split. discriminate.
    + eexists _, _. split; [rewrite <- !app_assoc; reflexivity|].
      right. eexists. repeat split.
  - unfold nats.NewReplayClient, nats.Close. run_M.
    destruct (nats.nats_Connect W tr natsUrl nats.connectOptions) as [nc|err].
    2:{ eexists _, _. split; [reflexivity|]. right. eexists. repeat split. }
    cbv beta iota zeta. destruct (nats.jetstream_New nc _) as [js|err].
    2:{ eexists _, _. split; [rewrite <- !app_assoc; reflexivity|].
        right. eexists. repeat split. }
    cbv beta iota zeta.
    set (c := {| nats.NatsConn := nc; nats.JetStream := js; nats.Consumer := None;
                 nats.accountId := accountId |}).
    match goal with
    | |- context [nats.initReplayConsumer W c accountId sequenceId ?t] =>
        destruct (initReplayConsumer_resources c sequenceId t)
          as (c' & err & rest & Hrun & Hd & Hres);
          cbn [nats.accountId c] in Hrun; rewrite Hrun
    end.
    destruct err as [e|].
    + destruct Hres as [-> Hp].
      eexists _, _. split; [rewrite <- !app_assoc; reflexivity|].
      right. exists e. split; [reflexivity|]. split.
      * rewrite !published_app, Hp. reflexivity.
      * split.
        -- rewrite !drains_app, Hd. reflexivity.
        -- rewrite !app_assoc. apply last_snoc.
    + destruct Hres as [Hc Ha].
      eexists _, _. split; [rewrite <- !app_assoc; reflexivity|].
      left. exists c'. split; [reflexivity|]. split; [exact Hc|]. split; [exact Ha|].
      rewrite !drains_app, Hd. reflexivity.
  - unfold client.NewWorkerClient, client.initWorkerConsumer, nats.Close. run_M.
    destruct (nats.nats_Connect W tr natsUrl nats.connectOptions) as [nc|err].
    2:{ eexists _, _. split; [reflexivity|]. right. eexists. repeat split. }
    cbv beta iota zeta. destruct (nats.jetstream_New nc _) as [js|err].
    2:{ eexists _, _. split; [rewrite <- !app_assoc; reflexivity|].
        right. eexists. repeat split. }
    cbv beta iota zeta. cbn [nats.JetStream].
    destruct (js_CreateOrUpdateConsumer js _ accountId _) as [consumer|err].
    + eexists _, _. split; [rewrite <- !app_assoc; reflexivity|].
      left. eexists. split; [reflexivity|]. repeat split. discriminate.
    + eexists _, _. split; [rewrite <- !app_assoc; reflexivity|].
      right. eexists. repeat split.
Qed.

End Construction.

(** ** The heartbeat of a worker *)

Section Heartbeat.

Variable W : nats.World.
Variable Parse : Msg -> result nats.MsgMeta.
Variable ResponseSubject : nats.MsgMeta -> string.
Variable json_Marshal : nats.ResultMsg -> result bytes.
Variable selectOrder : Trace -> list worker.SelectCase.
Variable js_CreateOrUpdateConsumer :
  nats.jetstream_JetStream -> Trace -> string -> ConsumerConfig
  -> result nats.jetstream_Consumer.

(** How the callback of the worker starts on a request with a known
    handler. *)
Lemma callback_starts (w : worker.Worker) (d : Duration) (msg : Msg) (tr : Trace)
      (p : nats.MsgMeta) (h : worker.Handler) :
  Parse msg = Ok p ->
  worker.handlers w !! nats.HandlerName p = Some h ->
  (0 < d)%Z ->
  exists rest,
    (worker.callback W Parse ResponseSubject json_Marshal selectOrder w d msg tr).2
      = tr ++ [EvLog LInfo None ("Received request " +:+ Subject msg); EvNow;
               EvNewTicker (d - d `quot` 3)%Z; EvGoHandler msg; EvMsgOp msg OpInProgress]
           ++ rest.
Proof.
  intros HP Hh Hd.
  unfold worker.callback, nats.PublishResult, nats.DoubleAck, nats.msgOp.
  rewrite HP. run_M. cbv beta iota zeta. rewrite Hh.
  set (tr1 := (tr ++ [EvLog LInfo None ("Received request " +:+ Subject msg)]) ++ [EvNow]).
  destruct (runHandler_shape W selectOrder msg h d tr1 Hd) as (k & _ & Hrun & Hnp & _).
  cbv zeta in Hrun, Hnp.
  destruct (worker.runHandler W selectOrder msg h d tr1) as [o t2].
  cbn [fst snd] in Hrun, Hnp.
  set (start := [EvLog LInfo None ("Received request " +:+ Subject msg); EvNow;
                 EvNewTicker (d - d `quot` 3)%Z; EvGoHandler msg; EvMsgOp msg OpInProgress]).
  assert (Hext : exists rest2, t2 = (tr ++ start) ++ rest2).
  { rewrite Hrun. subst tr1 start. eexists. rewrite <- !app_assoc. reflexivity. }
  clear Hrun. destruct Hext as (rest2 & ->).
  assert (Hleaf : forall (t : Trace) rest3, t = ((tr ++ start) ++ rest2) ++ rest3 ->
                    exists rest, t = tr ++ start ++ rest).
  { intros t rest3 ->. exists (rest2 ++ rest3). rewrite <- !app_assoc. reflexivity. }
  destruct o as [[e|]|pe|].
  - cbv beta iota zeta. cbn [nats.StartedAt nats.Response].
    destruct (json_Marshal _) as [data|me].
    + rewrite Publish_run. cbv zeta.
      destruct (nats.js_Publish _ _ _ _) as [puback [e'|]];
        [destruct (strings_Contains (Error e') fenceText)|];
        cbv beta iota zeta; cbn [fst snd];
        try destruct (nats.msg_reply W _ msg OpDoubleAck);
        cbn [fst snd];
        (eapply Hleaf; rewrite <- !app_assoc; reflexivity).
    + cbn [fst snd]. eapply Hleaf. rewrite <- !app_assoc. reflexivity.
  - cbv beta iota zeta.
    destruct (nats.msg_reply W _ msg OpDoubleAck); cbn [fst snd];
      (eapply Hleaf; rewrite <- !app_assoc; reflexivity).
  - exfalso. apply (Hnp pe). reflexivity.
  - cbn [fst snd]. eapply Hleaf. rewrite app_nil_r. reflexivity.
Qed.

(** X12.  A worker on a client made by [NewWorkerClient] keeps its
    requests alive every 40 s.  The consumer the client holds is the
    broker's answer to a request for a durable consumer named
    [{account}-request-{app}] (durable under the same name), filtered on
    [{account}.request.*.*.{app}.*], with an ack-wait of 60 s; and when
    the broker reports that ack-wait back, [Run] starts, for a request
    with a known handler, a ticker of 40 s before it starts the handler
    and signals in-progress. *)
Theorem NewWorkerClient_heartbeat (natsUrl accountId appName : string) (tr tr1 : Trace)
        (cl : nats.Client) (app : worker.App) (msg : Msg) (ds : list Msg)
        (inflight : option (Msg * nat)) (p : nats.MsgMeta) (h : worker.Handler) :
  client.NewWorkerClient W js_CreateOrUpdateConsumer natsUrl accountId appName tr
    = (Ret (Some cl, None), tr1) ->
  exists consumer cfg,
    nats.Consumer cl = Some consumer
    /\ js_CreateOrUpdateConsumer (nats.JetStream cl) tr1 accountId cfg = Ok consumer
    /\ cc_Name cfg = accountId +:+ "-request-" +:+ appName
    /\ cc_Durable cfg = cc_Name cfg
    /\ ephemeral cfg = false
    /\ cc_FilterSubject cfg = accountId +:+ ".request.*.*." +:+ appName +:+ ".*"
    /\ cc_AckWait cfg = (60 * Second)%Z
    /\ (cc_AckWait (nats.CachedInfo_Config consumer) = cc_AckWait cfg ->
        nats.Consume_err consumer (tr1 ++ [EvLog LInfo None "Listening for requests"]) = None ->
        Parse msg = Ok p ->
        worker.Handlers app !! nats.HandlerName p = Some h ->
        exists rest,
          (worker.Run W Parse ResponseSubject json_Marshal selectOrder
             (worker.NewWorker cl app) (msg :: ds) inflight tr1).2
            = tr1 ++ [EvLog LInfo None "Listening for requests"; EvConsume;
                      EvLog LInfo None ("Received request " +:+ Subject msg); EvNow;
                      EvNewTicker (40 * Second)%Z; EvGoHandler msg;
                      EvMsgOp msg OpInProgress]
                  ++ rest).
Proof.
  unfold client.NewWorkerClient, client.initWorkerConsumer, nats.Close. run_M.
  destruct (nats.nats_Connect W tr natsUrl nats.connectOptions) as [nc|err]; [|discriminate].
  cbv beta iota zeta. destruct (nats.jetstream_New nc _) as [js|err]; [|discriminate].
  cbv beta iota zeta. cbn [nats.JetStream].
  destruct (js_CreateOrUpdateConsumer js _ accountId _) as [consumer|err] eqn:Hcreate;
    [|discriminate].
  intros [= Hcl Htr1]. subst cl. rewrite Htr1 in Hcreate. cbn [nats.Consumer nats.JetStream].
  eexists consumer, _. split; [reflexivity|]. split; [exact Hcreate|].
  split; [reflexivity|]. split; [reflexivity|].
  split.
  { unfold ephemeral. cbn [cc_Durable]. apply bool_decide_eq_false.
    destruct accountId; discriminate. }
  split; [reflexivity|]. split; [reflexivity|].
  cbn [cc_AckWait]. intros Hack Hreg HP Hh.
  unfold worker.Run. cbn [worker.natsClient worker.NewWorker nats.Consumer].
  run_M. rewrite Hack.
  set (d := (1 * Minute)%Z).
  set (w := worker.NewWorker _ app).
  unfold nats.Consume. cbn [nats.Consumer]. run_M.
  match goal with
  | |- context [nats.Consume_err consumer ?t] =>
      replace (nats.Consume_err consumer t) with (@None error)
  end.
  cbv beta iota zeta. cbn [nats.deliver]. run_M.
  match goal with
  | |- context [worker.callback W Parse ResponseSubject json_Marshal selectOrder w d msg ?t] =>
      destruct (callback_starts w d msg t p h HP Hh eq_refl) as (rest1 & Hcb);
        destruct (worker.callback W Parse ResponseSubject json_Marshal selectOrder w d msg t)
        as [o t1]
  end.
  cbn [snd] in Hcb. subst t1.
  change (d - d `quot` 3)%Z with (40 * Second)%Z.
  assert (Hleaf : forall (t : Trace) rest2,
             t = (((tr1 ++ [EvLog LInfo None "Listening for requests"]) ++ [EvConsume])
                    ++ [EvLog LInfo None ("Received request " +:+ Subject msg); EvNow;
                        EvNewTicker (40 * Second)%Z; EvGoHandler msg;
                        EvMsgOp msg OpInProgress] ++ rest1) ++ rest2 ->
             exists rest,
               t = tr1 ++ [EvLog LInfo None "Listening for requests"; EvConsume;
                           EvLog LInfo None ("Received request " +:+ Subject msg); EvNow;
                           EvNewTicker (40 * Second)%Z; EvGoHandler msg;
                           EvMsgOp msg OpInProgress] ++ rest).
  { intros t rest2 ->. exists (rest1 ++ rest2). rewrite <- !app_assoc. reflexivity. }
  destruct o as [[]|pe|]; cbn [fst snd];
    [|eapply Hleaf; first [reflexivity|rewrite app_nil_r; reflexivity] ..].
  match goal with
  | |- context [nats.deliver ?cb ds inflight ?t] =>
      destruct (deliver_extends cb ds inflight t) as (rest2 & Hmap);
        [|destruct (nats.deliver cb ds inflight t) as [[l|pe|] t2]; cbn [fst snd] in Hmap;
          subst t2; cbn [fst snd]; (eapply Hleaf; rewrite <- ?app_assoc; reflexivity)]
  end.
  intros m t.
  destruct (callback_cases W Parse ResponseSubject json_Marshal selectOrder w d m t)
    as (rest & _ & _ & _ & Htr & _).
  exists rest. exact Htr.
Qed.

End Heartbeat.

(** A worker for [github] on the account [acct]: the first request starts
    a ticker of 40 s. *)
Lemma NewWorkerClient_heartbeat_witness :
  let W := demo.world None None demo.noAckError in
  let cl := {| nats.NatsConn := demo.conn None None;
               nats.JetStream := demo.js None None;
               nats.Consumer :=
                 Some {| nats.CachedInfo_Config := demo.workerConfig;
                         nats.Consume_err := fun _ => None |};
               nats.accountId := "acct" |} in
  let tr1 := [EvConnect "nats://localhost:4222" nats.connectOptions; EvJetStreamNew] in
  let m := demo.request "tag" in
  client.NewWorkerClient W demo_CreateOrUpdateConsumer "nats://localhost:4222" "acct"
      "github" []
    = (Ret (Some cl, None), tr1)
  /\ exists rest,
      (worker.Run W demo.Parse demo.ResponseSubject demo.json_Marshal demo.selectOrder
         (worker.NewWorker cl demo.github) [m] None tr1).2
        = tr1 ++ [EvLog LInfo None "Listening for requests"; EvConsume;
                  EvLog LInfo None ("Received request " +:+ Subject m); EvNow;
                  EvNewTicker (40 * Second)%Z; EvGoHandler m;
                  EvMsgOp m OpInProgress]
              ++ rest.
Proof.
  intros W cl tr1 m. split; [reflexivity|].
  destruct (NewWorkerClient_heartbeat W demo.Parse demo.ResponseSubject demo.json_Marshal
              demo.selectOrder demo_CreateOrUpdateConsumer
              "nats://localhost:4222" "acct" "github" [] tr1 cl demo.github m [] None
              {| nats.AccountId := "acct"; nats.Channel := "request";
                 nats.SequenceId := "SEQ"; nats.MessageId := "c1";
                 nats.AppName := "github"; nats.HandlerName := "tag";
                 nats.StreamSequence := 7 |}
              (fun _ _ => None) eq_refl)
    as (consumer & cfg & Hc & _ & _ & _ & _ & _ & Hack & Hrun).
  injection Hc as <-. apply Hrun.
  - rewrite Hack. reflexivity.
  - reflexivity.
  - reflexivity.
  - reflexivity.
Defined.

(** ** Decoding the rules *)

Lemma registered_register (hop : decode.HopAST) (s s' : string) :
  decode.registered (decode.register hop s) s'
  = (String.eqb s' s || decode.registered hop s').
Proof.
  unfold decode.registered, decode.register. cbn [decode.SlugRegister].
  destruct (String.eqb_spec s' s) as [->|Hne].
  - rewrite lookup_insert_eq. reflexivity.
  - rewrite lookup_insert_ne by congruence. reflexivity.
Qed.

Lemma slugsOf_snoc (ons : list dsl.OnAST) (on : dsl.OnAST) :
  slugsOf (ons ++ [on])
  = slugsOf ons ++ dsl.on_Slug on :: (dsl.call_Slug <$> dsl.on_Calls on).
Proof.
  unfold slugsOf. rewrite fmap_app, concat_app. cbn. rewrite app_nil_r. reflexivity.
Qed.

Section DecodeProps.

Variable cty_Value : Type.
Variable OnID CallID NameAttr IfAttr : string.
Variable gocty_string : cty_Value -> result string.
Variable gocty_bool : cty_Value -> result bool.
Variable ctyjson_Marshal : cty_Value -> result bytes.
Variable AsValueMap : cty_Value -> result (gmap string cty_Value).
Variable slug_Make : string -> string.
Variable ValidateLabels : list string -> option error.
Variable parseEventVar : gmap string cty_Value -> result (string * string).
Variable eventBundleToCty : gmap string bytes -> string -> result (gmap string cty_Value).

Local Abbreviation DecodeCallBlock :=
  (decode.DecodeCallBlock cty_Value NameAttr IfAttr gocty_string gocty_bool
     ctyjson_Marshal slug_Make ValidateLabels).
Local Abbreviation decodeCalls :=
  (decode.decodeCalls cty_Value NameAttr IfAttr gocty_string gocty_bool
     ctyjson_Marshal slug_Make ValidateLabels).
Local Abbreviation DecodeOnBlock :=
  (decode.DecodeOnBlock cty_Value CallID NameAttr IfAttr gocty_string gocty_bool
     ctyjson_Marshal AsValueMap slug_Make ValidateLabels parseEventVar).
Local Abbreviation decodeOns :=
  (decode.decodeOns cty_Value CallID NameAttr IfAttr gocty_string gocty_bool
     ctyjson_Marshal AsValueMap slug_Make ValidateLabels parseEventVar).
Local Abbreviation DecodeHopsBody :=
  (decode.DecodeHopsBody cty_Value OnID CallID NameAttr IfAttr gocty_string gocty_bool
     ctyjson_Marshal AsValueMap slug_Make ValidateLabels parseEventVar).
Local Abbreviation ParseHops :=
  (decode.ParseHops cty_Value OnID CallID NameAttr IfAttr gocty_string gocty_bool
     ctyjson_Marshal AsValueMap slug_Make ValidateLabels parseEventVar eventBundleToCty).
Local Abbreviation slugify := (decode.slugify slug_Make).

(** One [call] block: the hop keeps its [on] blocks and its registered
    slugs; the [on] block being decoded is as before, or has one more
    call, whose condition holds and whose slug was free. *)
Lemma DecodeCallBlock_spec (hop : decode.HopAST) (on : dsl.OnAST)
      (block : decode.Block cty_Value) (idx : nat) (evalctx : decode.EvalContext cty_Value)
      (tr : Trace) (hop' : decode.HopAST) (on' : dsl.OnAST) (err : option error)
      (tr' : Trace) :
  DecodeCallBlock hop on block idx evalctx tr = (Ret (hop', on', err), tr') ->
  decode.Ons hop' = decode.Ons hop
  /\ (forall s, decode.registered hop s = true -> decode.registered hop' s = true)
  /\ (on' = on
      \/ exists call,
          on' = {| dsl.on_EventType := dsl.on_EventType on;
                   dsl.on_Name := dsl.on_Name on;
                   dsl.on_Slug := dsl.on_Slug on;
                   dsl.on_IfClause := dsl.on_IfClause on;
                   dsl.on_Calls := dsl.on_Calls on ++ [call] |}
          /\ dsl.call_IfClause call = true
          /\ dsl.call_Slug call = slugify [dsl.on_Slug on; dsl.call_Name call]
          /\ decode.registered hop (dsl.call_Slug call) = false
          /\ decode.registered hop' (dsl.call_Slug call) = true).
Proof.
  unfold decode.DecodeCallBlock.
  destruct (decode.Content (decode.Body_ block)) as [[attrs blocks] d].
  assert (Hsame : forall (t : Trace) e,
             (@Ret (decode.HopAST * dsl.OnAST * option error) (hop, on, e), t)
               = (Ret (hop', on', err), tr') ->
             decode.Ons hop' = decode.Ons hop
             /\ (forall s, decode.registered hop s = true -> decode.registered hop' s = true)
             /\ (on' = on \/ exists call,
                    on' = {| dsl.on_EventType := dsl.on_EventType on;
                             dsl.on_Name := dsl.on_Name on;
                             dsl.on_Slug := dsl.on_Slug on;
                             dsl.on_IfClause := dsl.on_IfClause on;
                             dsl.on_Calls := dsl.on_Calls on ++ [call] |}
                    /\ dsl.call_IfClause call = true
                    /\ dsl.call_Slug call = slugify [dsl.on_Slug on; dsl.call_Name call]
                    /\ decode.registered hop (dsl.call_Slug call) = false
                    /\ decode.registered hop' (dsl.call_Slug call) = true)).
  { intros t e [= <- <- <- <-]. split; [reflexivity|]. split; [auto|]. left. reflexivity. }
  destruct (decode.HasErrors d); [apply Hsame|].
  unfold decode.index0. destruct (decode.Labels block) as [|taskType labels];
    [run_M; discriminate|].
  run_M. cbv beta iota zeta.
  destruct (decode.DecodeNameAttr cty_Value gocty_string (attrs !! NameAttr))
    as [name0|e]; [|apply Hsame].
  set (name := if String.eqb name0 "" then taskType +:+ pretty idx else name0).
  set (slug := slugify [dsl.on_Slug on; name]).
  destruct (ValidateLabels [taskType; name]); [apply Hsame|].
  destruct (decode.registered hop slug) eqn:Hfree; [apply Hsame|].
  assert (Hreg : forall (t : Trace) e,
             (@Ret (decode.HopAST * dsl.OnAST * option error)
                   (decode.register hop slug, on, e), t)
               = (Ret (hop', on', err), tr') ->
             decode.Ons hop' = decode.Ons hop
             /\ (forall s, decode.registered hop s = true -> decode.registered hop' s = true)
             /\ (on' = on \/ exists call,
                    on' = {| dsl.on_EventType := dsl.on_EventType on;
                             dsl.on_Name := dsl.on_Name on;
                             dsl.on_Slug := dsl.on_Slug on;
                             dsl.on_IfClause := dsl.on_IfClause on;
                             dsl.on_Calls := dsl.on_Calls on ++ [call] |}
                    /\ dsl.call_IfClause call = true
                    /\ dsl.call_Slug call = slugify [dsl.on_Slug on; dsl.call_Name call]
                    /\ decode.registered hop (dsl.call_Slug call) = false
                    /\ decode.registered hop' (dsl.call_Slug call) = true)).
  { intros t e [= <- <- <- <-]. split; [reflexivity|]. split.
    - intros s Hs. rewrite registered_register, Hs. apply orb_true_r.
    - left. reflexivity. }
  assert (Hadd : forall (t : Trace) inputs,
             (@Ret (decode.HopAST * dsl.OnAST * option error)
                   (decode.register hop slug,
                    {| dsl.on_EventType := dsl.on_EventType on;
                       dsl.on_Name := dsl.on_Name on;
                       dsl.on_Slug := dsl.on_Slug on;
                       dsl.on_IfClause := dsl.on_IfClause on;
                       dsl.on_Calls :=
                         dsl.on_Calls on
                           ++ [{| dsl.call_TaskType := taskType; dsl.call_Name := name;
                                  dsl.call_Slug := slug; dsl.call_IfClause := true;
                                  dsl.call_Inputs := inputs |}] |},
                    None), t)
               = (Ret (hop', on', err), tr') ->
             decode.Ons hop' = decode.Ons hop
             /\ (forall s, decode.registered hop s = true -> decode.registered hop' s = true)
             /\ (on' = on \/ exists call,
                    on' = {| dsl.on_EventType := dsl.on_EventType on;
                             dsl.on_Name := dsl.on_Name on;
                             dsl.on_Slug := dsl.on_Slug on;
                             dsl.on_IfClause := dsl.on_IfClause on;
                             dsl.on_Calls := dsl.on_Calls on ++ [call] |}
                    /\ dsl.call_IfClause call = true
                    /\ dsl.call_Slug call = slugify [dsl.on_Slug on; dsl.call_Name call]
                    /\ decode.registered hop (dsl.call_Slug call) = false
                    /\ decode.registered hop' (dsl.call_Slug call) = true)).
  { intros t inputs [= <- <- <- <-]. split; [reflexivity|]. split.
    - intros s Hs. rewrite registered_register, Hs. apply orb_true_r.
    - right. eexists. split; [reflexivity|]. cbn [dsl.call_IfClause dsl.call_Slug dsl.call_Name].
      split; [reflexivity|]. split; [reflexivity|]. split; [exact Hfree|].
      rewrite registered_register, String.eqb_refl. reflexivity. }
  destruct (attrs !! IfAttr) as [ifClause|].
  2:{ destruct (attrs !! "inputs") as [inputs|]; [|apply Hadd].
      destruct (decode.Expr_Value inputs (Some evalctx)) as [tval d0].
      destruct (decode.HasErrors d0); [apply Hreg|].
      destruct (ctyjson_Marshal tval); [apply Hadd|apply Hreg]. }
  destruct (decode.DecodeConditionalAttr cty_Value gocty_bool (Some ifClause) evalctx)
    as [val [e|]]; cbv beta iota zeta; destruct val; cbn [negb]; try apply Hreg;
    (destruct (attrs !! "inputs") as [inputs|]; [|apply Hadd];
     destruct (decode.Expr_Value inputs (Some evalctx)) as [tval d0];
     destruct (decode.HasErrors d0); [apply Hreg|];
     destruct (ctyjson_Marshal tval); [apply Hadd|apply Hreg]).
Qed.

(** The slugs of a list are all different and all registered. *)
Let wfSlugs (hop : decode.HopAST) (slugs : list string) : Prop :=
  NoDup slugs /\ Forall (fun s => decode.registered hop s = true) slugs.

(** A call whose condition holds and whose slug is made of the slug of
    its [on] block and its own name. *)
Let goodCall (onSlug : string) (call : dsl.CallAST) : Prop :=
  dsl.call_IfClause call = true
  /\ dsl.call_Slug call = slugify [onSlug; dsl.call_Name call].

(** An [on] block that matches the event of the variables, whose
    condition holds, and whose calls are good. *)
Let goodOn (vars : gmap string cty_Value) (on : dsl.OnAST) : Prop :=
  exists eventType eventAction,
    parseEventVar vars = Ok (eventType, eventAction)
    /\ matchesEvent eventType eventAction (dsl.on_EventType on)
    /\ dsl.on_IfClause on = true
    /\ dsl.on_Slug on = slugify [dsl.on_Name on]
    /\ Forall (goodCall (dsl.on_Slug on)) (dsl.on_Calls on).

Lemma wfSlugs_snoc (hop : decode.HopAST) (slugs : list string) (s : string) :
  wfSlugs hop slugs ->
  decode.registered hop s = false ->
  forall hop',
    (forall s', decode.registered hop s' = true -> decode.registered hop' s' = true) ->
    decode.registered hop' s = true ->
    wfSlugs hop' (slugs ++ [s]).
Proof.
  intros [Hnd Hreg] Hfree hop' Hmono Hs. split.
  - apply NoDup_app. split; [exact Hnd|]. split; [|apply NoDup_singleton].
    intros x Hx Hx'. apply list_elem_of_singleton in Hx' as ->.
    rewrite Forall_forall in Hreg. rewrite (Hreg _ Hx) in Hfree. discriminate.
  - apply Forall_app. split.
    + eapply Forall_impl; [exact Hreg|]. intros x Hx. apply Hmono, Hx.
    + constructor; [exact Hs|constructor].
Qed.

Lemma wfSlugs_mono (hop hop' : decode.HopAST) (slugs : list string) :
  wfSlugs hop slugs ->
  (forall s', decode.registered hop s' = true -> decode.registered hop' s' = true) ->
  wfSlugs hop' slugs.
Proof.
  intros [Hnd Hreg] Hmono. split; [exact Hnd|].
  eapply Forall_impl; [exact Hreg|]. intros x Hx. apply Hmono, Hx.
Qed.

(** The loop over the [call] blocks of one [on] block. *)
Lemma decodeCalls_spec (callBlocks : list (decode.Block cty_Value))
      (hop : decode.HopAST) (on : dsl.OnAST) (idx : nat)
      (evalctx : decode.EvalContext cty_Value) (tr : Trace)
      (hop' : decode.HopAST) (on' : dsl.OnAST) (err : option error) (tr' : Trace) :
  decodeCalls hop on callBlocks idx evalctx tr = (Ret (hop', on', err), tr') ->
  decode.Ons hop' = decode.Ons hop
  /\ (forall s, decode.registered hop s = true -> decode.registered hop' s = true)
  /\ dsl.on_EventType on' = dsl.on_EventType on
  /\ dsl.on_Name on' = dsl.on_Name on
  /\ dsl.on_Slug on' = dsl.on_Slug on
  /\ dsl.on_IfClause on' = dsl.on_IfClause on
  /\ (wfSlugs hop (slugsOf (decode.Ons hop ++ [on])) ->
      wfSlugs hop' (slugsOf (decode.Ons hop' ++ [on'])))
  /\ (Forall (goodCall (dsl.on_Slug on)) (dsl.on_Calls on) ->
      Forall (goodCall (dsl.on_Slug on')) (dsl.on_Calls on')).
Proof.
  revert hop on idx tr. induction callBlocks as [|b bs IH]; intros hop on idx tr.
  - cbn. intros [= <- <- <- <-]. split; [reflexivity|]. split; [auto|].
    do 4 (split; [reflexivity|]). split; auto.
  - cbn [decode.decodeCalls]. run_M.
    destruct (DecodeCallBlock hop on b idx evalctx tr) as [[[[hop1 on1] err1]|e|] tr1] eqn:Hb;
      [|discriminate ..].
    destruct (DecodeCallBlock_spec _ _ _ _ _ _ _ _ _ _ Hb) as (Hons1 & Hmono1 & Hon1).
    assert (Hstep : dsl.on_EventType on1 = dsl.on_EventType on
                    /\ dsl.on_Name on1 = dsl.on_Name on
                    /\ dsl.on_Slug on1 = dsl.on_Slug on
                    /\ dsl.on_IfClause on1 = dsl.on_IfClause on
                    /\ (wfSlugs hop (slugsOf (decode.Ons hop ++ [on])) ->
                        wfSlugs hop1 (slugsOf (decode.Ons hop1 ++ [on1])))
                    /\ (Forall (goodCall (dsl.on_Slug on)) (dsl.on_Calls on) ->
                        Forall (goodCall (dsl.on_Slug on1)) (dsl.on_Calls on1))).
    { destruct Hon1 as [->|(call & -> & Hif & Hslug & Hfree & Hreg)].
      - do 4 (split; [reflexivity|]). split; [|auto].
        intros Hwf. rewrite Hons1. eapply wfSlugs_mono; eauto.
      - cbn [dsl.on_EventType dsl.on_Name dsl.on_Slug dsl.on_IfClause dsl.on_Calls].
        do 4 (split; [reflexivity|]). split.
        + intros Hwf. rewrite Hons1, slugsOf_snoc.
          cbn [dsl.on_Slug dsl.on_Calls]. rewrite fmap_app. cbn [fmap list_fmap].
          rewrite slugsOf_snoc in Hwf.
          change (slugsOf (decode.Ons hop)
                    ++ dsl.on_Slug on
                       :: (dsl.call_Slug <$> dsl.on_Calls on) ++ [dsl.call_Slug call])
            with (slugsOf (decode.Ons hop)
                    ++ (dsl.on_Slug on :: (dsl.call_Slug <$> dsl.on_Calls on))
                    ++ [dsl.call_Slug call]).
          rewrite app_assoc. eapply wfSlugs_snoc; eauto.
        + intros Hgood. apply Forall_app. split; [exact Hgood|].
          constructor; [split; assumption|constructor]. }
    destruct Hstep as (He1 & Hn1 & Hs1 & Hi1 & Hwf1 & Hg1).
    destruct err1 as [e1|].
    + intros [= <- <- <- <-]. split; [exact Hons1|]. split; [exact Hmono1|].
      do 4 (split; [assumption|]). split; assumption.
    + intros Hrest. destruct (IH _ _ _ _ Hrest) as (Hons & Hmono & He & Hn & Hs & Hi & Hwf & Hg).
      split; [congruence|]. split; [auto|].
      split; [congruence|]. split; [congruence|]. split; [congruence|].
      split; [congruence|]. split; [auto|].
      intros Hgood. apply Hg, Hg1, Hgood.
Qed.

(** What decoding one [on] block does to the hop. *)
Let onPost (hop : decode.HopAST) (block : decode.Block cty_Value) (idx : nat)
    (vars : gmap string cty_Value) (hop' : decode.HopAST) (err : option error) : Prop :=
  (forall s, decode.registered hop s = true -> decode.registered hop' s = true)
  /\ (wfSlugs hop (slugsOf (decode.Ons hop)) -> wfSlugs hop' (slugsOf (decode.Ons hop')))
  /\ (Forall (goodOn vars) (decode.Ons hop) -> Forall (goodOn vars) (decode.Ons hop'))
  /\ (err = None ->
      forall s, decode.declaredSlug cty_Value NameAttr gocty_string slug_Make block idx = Some s ->
                decode.registered hop s = false /\ decode.registered hop' s = true).

Lemma DecodeOnBlock_spec (hop : decode.HopAST) (block : decode.Block cty_Value)
      (idx : nat) (evalctx : decode.EvalContext cty_Value) (tr : Trace)
      (hop' : decode.HopAST) (err : option error) (tr' : Trace) :
  DecodeOnBlock hop block idx evalctx tr = (Ret (hop', err), tr') ->
  onPost hop block idx (decode.Variables evalctx) hop' err.
Proof.
  unfold decode.DecodeOnBlock.
  destruct (decode.Content (decode.Body_ block)) as [[attrs blocks] d] eqn:Hcontent.
  assert (Hsame : forall (t : Trace) e,
             (@Ret (decode.HopAST * option error) (hop, Some e), t) = (Ret (hop', err), tr') ->
             onPost hop block idx (decode.Variables evalctx) hop' err).
  { intros t e [= <- <- <-]. split; [auto|]. split; [auto|]. split; [auto|]. discriminate. }
  destruct (decode.HasErrors d); [apply Hsame|].
  unfold decode.index0. destruct (decode.Labels block) as [|eventType_ labels] eqn:Hlabels;
    [run_M; discriminate|].
  run_M. cbv beta iota zeta.
  destruct (decode.DecodeNameAttr cty_Value gocty_string (attrs !! NameAttr))
    as [name0|e] eqn:Hname; [|apply Hsame].
  set (name := if String.eqb name0 "" then eventType_ +:+ pretty idx else name0).
  set (slug := slugify [name]).
  assert (Hdecl : decode.declaredSlug cty_Value NameAttr gocty_string slug_Make block idx
                  = Some slug).
  { unfold decode.declaredSlug. rewrite Hcontent, Hlabels, Hname. reflexivity. }
  destruct (ValidateLabels [eventType_; name]); [apply Hsame|].
  destruct (decode.registered hop slug) eqn:Hfree; [apply Hsame|].
  assert (Hslug : decode.registered (decode.register hop slug) slug = true)
    by (rewrite registered_register, String.eqb_refl; reflexivity).
  assert (Hmono : forall s, decode.registered hop s = true ->
                            decode.registered (decode.register hop slug) s = true)
    by (intros s Hs; rewrite registered_register, Hs; apply orb_true_r).
  assert (Hreg : forall (t : Trace) e,
             (@Ret (decode.HopAST * option error) (decode.register hop slug, e), t)
               = (Ret (hop', err), tr') ->
             onPost hop block idx (decode.Variables evalctx) hop' err).
  { intros t e [= <- <- <-]. split; [exact Hmono|]. split.
    - intros Hwf. eapply wfSlugs_mono; [exact Hwf|exact Hmono].
    - split; [auto|]. intros _ s Hs. rewrite Hdecl in Hs. injection Hs as <-. auto. }
  destruct (parseEventVar (decode.Variables evalctx)) as [[eventType eventAction]|e]
    eqn:Hevent; [|apply Hreg].
  destruct (strings_Cut eventType_ "_") as [[blockEventType blockAction] hasAction] eqn:Hcut.
  destruct (String.eqb_spec blockEventType eventType) as [Htype|]; cbn [negb];
    [|apply Hreg].
  destruct (hasAction && negb (String.eqb blockAction eventAction)) eqn:Haction;
    [apply Hreg|].
  assert (Hmatch : matchesEvent eventType eventAction eventType_).
  { unfold matchesEvent. rewrite Hcut. split; [exact Htype|].
    intros ->. cbn in Haction. apply negb_false_iff in Haction.
    apply String.eqb_eq. exact Haction. }
  unfold decode.scopedEvalContext. run_M.
  destruct (decode.scopedVariables cty_Value AsValueMap (decode.Variables evalctx)
              [eventType_; name] tr) as [[scopedVars|e|] tr1]; [|discriminate ..].
  cbv beta iota zeta.
  assert (Hcalls : forall (t t2 : Trace) ctx hop2 on2 err2 ifClause,
             ifClause = true ->
             decodeCalls (decode.register hop slug)
               {| dsl.on_EventType := eventType_; dsl.on_Name := name; dsl.on_Slug := slug;
                  dsl.on_IfClause := ifClause; dsl.on_Calls := [] |}
               (decode.OfType blocks CallID) 0 ctx t = (Ret (hop2, on2, err2), t2) ->
             match err2 with
             | Some e => (@Ret (decode.HopAST * option error) (hop2, Some e), t2)
             | None => (Ret ({| decode.Ons := decode.Ons hop2 ++ [on2];
                                decode.SlugRegister := decode.SlugRegister hop2 |}, None), t2)
             end = (Ret (hop', err), tr') ->
             onPost hop block idx (decode.Variables evalctx) hop' err).
  { intros t t2 ctx hop2 on2 err2 ifClause -> Hrun Hres.
    destruct (decodeCalls_spec _ _ _ _ _ _ _ _ _ _ Hrun)
      as (Hons2 & Hmono2 & He2 & Hn2 & Hs2 & Hi2 & Hwf2 & Hg2).
    cbn [decode.Ons decode.register dsl.on_EventType dsl.on_Name dsl.on_Slug
         dsl.on_IfClause dsl.on_Calls] in *.
    assert (Hmono' : forall s, decode.registered hop s = true ->
                               decode.registered hop2 s = true) by auto.
    destruct err2 as [e2|]; injection Hres as <- <- <-.
    - split; [exact Hmono'|]. split.
      + rewrite Hons2. intros Hwf. eapply wfSlugs_mono; [exact Hwf|exact Hmono'].
      + split; [rewrite Hons2; auto|]. discriminate.
    - split; [exact Hmono'|]. cbn [decode.Ons]. split; [|split].
      + intros Hwf.
        assert (Hwf' : wfSlugs hop2 (slugsOf (decode.Ons hop2 ++ [on2]))).
        { apply Hwf2. rewrite slugsOf_snoc. cbn [dsl.on_Slug dsl.on_Calls fmap list_fmap].
          eapply wfSlugs_snoc; [exact Hwf|exact Hfree|exact Hmono|exact Hslug]. }
        destruct Hwf' as [Hnd Hall]. split; [exact Hnd|exact Hall].
      + intros Hgood. rewrite Hons2. apply Forall_app. split; [exact Hgood|].
        constructor; [|constructor].
        exists eventType, eventAction. split; [exact Hevent|].
        rewrite He2, Hi2, Hs2, Hn2. split; [exact Hmatch|]. split; [reflexivity|].
        split; [reflexivity|]. rewrite <- Hs2. apply Hg2. constructor.
      + intros _ s Hs. rewrite Hdecl in Hs. injection Hs as <-.
        split; [exact Hfree|]. apply Hmono2, Hslug. }
  destruct (attrs !! IfAttr) as [ifClause|].
  - destruct (decode.DecodeConditionalAttr cty_Value gocty_bool (Some ifClause) _)
      as [val [e|]]; cbv beta iota zeta; [apply Hreg|].
    destruct val; cbn [negb]; [|apply Hreg].
    match goal with
    | |- context [decode.decodeCalls _ _ _ _ _ _ _ _ ?h ?o ?bs ?i ?c ?t] =>
        destruct (decodeCalls h o bs i c t) as [[[[hop2 on2] err2]|e|] t2] eqn:Hrun;
          [|discriminate ..]
    end.
    intros Hres. eapply Hcalls; [reflexivity|exact Hrun|]. destruct err2; exact Hres.
  - match goal with
    | |- context [decode.decodeCalls _ _ _ _ _ _ _ _ ?h ?o ?bs ?i ?c ?t] =>
        destruct (decodeCalls h o bs i c t) as [[[[hop2 on2] err2]|e|] t2] eqn:Hrun;
          [|discriminate ..]
    end.
    intros Hres. eapply Hcalls; [reflexivity|exact Hrun|]. destruct err2; exact Hres.
Qed.

Local Abbreviation declaredSlug :=
  (decode.declaredSlug cty_Value NameAttr gocty_string slug_Make).

(** The loop over the [on] blocks. *)
Lemma decodeOns_spec (onBlocks : list (decode.Block cty_Value)) (hop : decode.HopAST)
      (idx : nat) (evalctx : decode.EvalContext cty_Value) (tr : Trace)
      (hop' : decode.HopAST) (err : option error) (tr' : Trace) :
  decodeOns hop onBlocks idx evalctx tr = (Ret (hop', err), tr') ->
  (forall s, decode.registered hop s = true -> decode.registered hop' s = true)
  /\ (wfSlugs hop (slugsOf (decode.Ons hop)) -> wfSlugs hop' (slugsOf (decode.Ons hop')))
  /\ (Forall (goodOn (decode.Variables evalctx)) (decode.Ons hop) ->
      Forall (goodOn (decode.Variables evalctx)) (decode.Ons hop'))
  /\ (err = None ->
      (forall i b s, onBlocks !! i = Some b -> declaredSlug b (idx + i) = Some s ->
                     decode.registered hop s = false)
      /\ (forall i j bi bj s,
            (i < j)%nat -> onBlocks !! i = Some bi -> onBlocks !! j = Some bj ->
            declaredSlug bi (idx + i) = Some s -> declaredSlug bj (idx + j) = Some s ->
            False)).
Proof.
  revert hop idx tr. induction onBlocks as [|b bs IH]; intros hop idx tr.
  - cbn. intros [= <- <- <-]. split; [auto|]. split; [auto|]. split; [auto|].
    intros _. split; intros; discriminate.
  - cbn [decode.decodeOns]. run_M.
    destruct (DecodeOnBlock hop b idx evalctx tr) as [[[hop1 err1]|e|] tr1] eqn:Hb;
      [|discriminate ..].
    destruct (DecodeOnBlock_spec _ _ _ _ _ _ _ _ Hb) as (Hmono1 & Hwf1 & Hg1 & Hd1).
    destruct err1 as [e1|].
    + intros [= <- <- <-]. split; [exact Hmono1|]. split; [exact Hwf1|].
      split; [exact Hg1|]. discriminate.
    + intros Hrest. destruct (IH _ _ _ Hrest) as (Hmono & Hwf & Hg & Hd).
      split; [auto|]. split; [auto|]. split; [auto|].
      intros ->. destruct (Hd eq_refl) as [Hfree Hdup]. split.
      * intros [|i] bi s Hi Hs.
        -- injection Hi as <-. rewrite Nat.add_0_r in Hs. apply (Hd1 eq_refl s Hs).
        -- cbn in Hi. replace (idx + S i)%nat with (S idx + i)%nat in Hs by lia.
           specialize (Hfree i bi s Hi Hs).
           destruct (decode.registered hop s) eqn:Hr; [|reflexivity].
           rewrite (Hmono1 s Hr) in Hfree. discriminate.
      * intros [|i] [|j] bi bj s Hlt Hi Hj Hsi Hsj; try lia.
        -- injection Hi as <-. rewrite Nat.add_0_r in Hsi. cbn in Hj.
           replace (idx + S j)%nat with (S idx + j)%nat in Hsj by lia.
           destruct (Hd1 eq_refl s Hsi) as [_ Hreg].
           rewrite (Hfree j bj s Hj Hsj) in Hreg. discriminate.
        -- cbn in Hi, Hj.
           replace (idx + S i)%nat with (S idx + i)%nat in Hsi by lia.
           replace (idx + S j)%nat with (S idx + j)%nat in Hsj by lia.
           apply (Hdup i j bi bj s); [lia|assumption ..].
Qed.

(** [ParseHops]: what holds of the hop it hands back, with or without an
    error. *)
Lemma ParseHops_spec (hopsBody : decode.Body cty_Value) (eventBundle : gmap string bytes)
      (tr : Trace) (hop : decode.HopAST) (err : option error) (tr' : Trace) :
  ParseHops hopsBody eventBundle tr = (Ret (Some hop, err), tr') ->
  exists vars,
    eventBundleToCty eventBundle "-" = Ok vars
    /\ wfSlugs hop (slugsOf (decode.Ons hop))
    /\ Forall (goodOn vars) (decode.Ons hop)
    /\ (err = None ->
        forall attrs blocks d, decode.Content hopsBody = (attrs, blocks, d) ->
          forall i j bi bj s,
            (i < j)%nat ->
            decode.OfType blocks OnID !! i = Some bi ->
            decode.OfType blocks OnID !! j = Some bj ->
            declaredSlug bi i = Some s -> declaredSlug bj j = Some s -> False).
Proof.
  unfold decode.ParseHops, decode.DecodeHopsBody.
  destruct (eventBundleToCty eventBundle "-") as [vars|e]; [|discriminate].
  run_M. destruct (decode.Content hopsBody) as [[attrs blocks] d].
  set (hop0 := {| decode.Ons := []; decode.SlugRegister := ∅ |}).
  assert (Hwf0 : wfSlugs hop0 (slugsOf (decode.Ons hop0))) by (split; constructor).
  assert (Hg0 : Forall (goodOn vars) (decode.Ons hop0)) by constructor.
  destruct d as [|err0 d].
  2:{ intros [= <- <- <-]. exists vars. split; [reflexivity|]. split; [exact Hwf0|].
      split; [exact Hg0|]. discriminate. }
  destruct (Nat.eqb (length blocks) 0).
  { intros [= <- <- <-]. exists vars. split; [reflexivity|]. split; [exact Hwf0|].
    split; [exact Hg0|]. discriminate. }
  destruct (decodeOns hop0 (decode.OfType blocks OnID) 0
              (decode.mkEvalContext vars None) tr) as [[[hop1 err1]|e|] tr1] eqn:Hons;
    [|discriminate ..].
  destruct (decodeOns_spec _ _ _ _ _ _ _ _ Hons) as (_ & Hwf & Hg & Hd).
  cbn [decode.Variables] in Hg.
  destruct err1 as [e1|]; intros [= <- <- <-]; exists vars;
    (split; [reflexivity|]); (split; [auto|]); (split; [auto|]); [discriminate|].
  intros _ attrs' blocks' d' [= <- <- <-]. destruct (Hd eq_refl) as [_ Hdup].
  intros i j bi bj s Hlt Hi Hj Hsi Hsj. apply (Hdup i j bi bj s Hlt Hi Hj); assumption.
Qed.

(** X13.  The slugs of a decoded hop are all different: no two [on]
    blocks, no two calls (of the same or of different blocks), and no
    [on] block and call that [ParseHops] hands back share a slug, whether
    it reports an error or not.  (The sequence runner addresses the
    request of a call by this slug.) *)
Theorem ParseHops_slugs_distinct (hopsBody : decode.Body cty_Value)
        (eventBundle : gmap string bytes) (tr : Trace)
        (hop : decode.HopAST) (err : option error) (tr' : Trace) :
  ParseHops hopsBody eventBundle tr = (Ret (Some hop, err), tr') ->
  NoDup (slugsOf (decode.Ons hop)).
Proof.
  intros H. destruct (ParseHops_spec _ _ _ _ _ _ H) as (vars & _ & [Hnd _] & _).
  exact Hnd.
Qed.

(** X14.  Every [on] block that [ParseHops] hands back matches the event
    of the bundle (the label up to its first ["_"] is the type of the
    event, and what follows, if anything, is its action), has a condition
    that holds, and has the slug of its name; each of its calls has a
    condition that holds and the slug made of the slug of the block and
    the name of the call. *)
Theorem ParseHops_matching (hopsBody : decode.Body cty_Value)
        (eventBundle : gmap string bytes) (tr : Trace)
        (hop : decode.HopAST) (err : option error) (tr' : Trace) :
  ParseHops hopsBody eventBundle tr = (Ret (Some hop, err), tr') ->
  exists vars,
    eventBundleToCty eventBundle "-" = Ok vars
    /\ forall on, on ∈ decode.Ons hop ->
         (exists eventType eventAction,
             parseEventVar vars = Ok (eventType, eventAction)
             /\ matchesEvent eventType eventAction (dsl.on_EventType on))
         /\ dsl.on_IfClause on = true
         /\ dsl.on_Slug on = slugify [dsl.on_Name on]
         /\ forall call, call ∈ dsl.on_Calls on ->
              dsl.call_IfClause call = true
              /\ dsl.call_Slug call = slugify [dsl.on_Slug on; dsl.call_Name call].
Proof.
  intros H. destruct (ParseHops_spec _ _ _ _ _ _ H) as (vars & Hvars & _ & Hg & _).
  exists vars. split; [exact Hvars|]. intros on Hon.
  rewrite Forall_forall in Hg.
  destruct (Hg on Hon) as (eventType & eventAction & Hev & Hm & Hif & Hslug & Hcalls).
  split; [exists eventType, eventAction; split; assumption|].
  split; [exact Hif|]. split; [exact Hslug|].
  intros call Hcall. rewrite Forall_forall in Hcalls. apply (Hcalls call Hcall).
Qed.

(** X15.  Rules in which two [on] blocks declare the same slug are
    rejected whatever the event: [ParseHops] never returns them without
    an error, also when neither of the two blocks matches the event. *)
Theorem ParseHops_rejects_duplicates (hopsBody : decode.Body cty_Value)
        (eventBundle : gmap string bytes) (tr : Trace)
        (attrs : gmap string (decode.Attribute cty_Value))
        (blocks : list (decode.Block cty_Value)) (d : decode.Diagnostics)
        (i j : nat) (bi bj : decode.Block cty_Value) (s : string) :
  decode.Content hopsBody = (attrs, blocks, d) ->
  (i < j)%nat ->
  decode.OfType blocks OnID !! i = Some bi ->
  decode.OfType blocks OnID !! j = Some bj ->
  declaredSlug bi i = Some s ->
  declaredSlug bj j = Some s ->
  forall res, (ParseHops hopsBody eventBundle tr).1 = Ret res -> res.2 <> None.
Proof.
  intros Hcontent Hlt Hi Hj Hsi Hsj [hop err] Hres. cbn [snd]. intros ->.
  destruct (ParseHops hopsBody eventBundle tr) as [o tr'] eqn:Hrun.
  cbn [fst] in Hres. subst o. destruct hop as [hop|].
  - destruct (ParseHops_spec _ _ _ _ _ _ Hrun) as (vars & _ & _ & _ & Hdup).
    apply (Hdup eq_refl attrs blocks d Hcontent i j bi bj s Hlt Hi Hj Hsi Hsj).
  - revert Hrun. unfold decode.ParseHops.
    destruct (eventBundleToCty eventBundle "-") as [vars|e]; [|discriminate].
    run_M.
    match goal with
    | |- context [decode.DecodeHopsBody _ _ _ _ _ _ _ _ _ _ _ _ ?h ?b ?c ?t] =>
        destruct (DecodeHopsBody h b c t) as [[[hop1 [e1|]]|e|] t1]; discriminate
    end.
Qed.

End DecodeProps.

(** The example rules on a push: the two [push] blocks and three slugs
    of calls and blocks, all different. *)
Lemma ParseHops_slugs_distinct_witness :
  exists hop tr',
    example.ParseHops example.body example.push [] = (Ret (Some hop, None), tr')
    /\ slugsOf (decode.Ons hop)
       = ["push0"; "push0-github_tag0"; "second"; "second-github_release0"]
    /\ NoDup (slugsOf (decode.Ons hop)).
Proof.
  destruct (example.ParseHops example.body example.push []) as [[[[hop|] [e|]]|e|] tr']
    eqn:Hrun; try (vm_compute in Hrun; discriminate).
  exists hop, tr'. split; [reflexivity|]. split.
  - vm_compute in Hrun. injection Hrun as <- <-. reflexivity.
  - apply (ParseHops_slugs_distinct example.value "on" "call" "name" "if"
             example.gocty_string example.gocty_bool example.ctyjson_Marshal
             example.AsValueMap example.slug_Make example.ValidateLabels
             example.parseEventVar example.eventBundleToCty
             example.body example.push [] hop None tr').
    exact Hrun.
Defined.

Lemma ParseHops_matching_witness :
  exists hop tr',
    example.ParseHops example.body example.push [] = (Ret (Some hop, None), tr')
    /\ exists vars,
        example.eventBundleToCty example.push "-" = Ok vars
        /\ forall on, on ∈ decode.Ons hop ->
             (exists eventType eventAction,
                 example.parseEventVar vars = Ok (eventType, eventAction)
                 /\ matchesEvent eventType eventAction (dsl.on_EventType on))
             /\ dsl.on_IfClause on = true
             /\ dsl.on_Slug on = decode.slugify example.slug_Make [dsl.on_Name on]
             /\ forall call, call ∈ dsl.on_Calls on ->
                  dsl.call_IfClause call = true
                  /\ dsl.call_Slug call
                     = decode.slugify example.slug_Make [dsl.on_Slug on; dsl.call_Name call].
Proof.
  destruct (example.ParseHops example.body example.push []) as [[[[hop|] [e|]]|e|] tr']
    eqn:Hrun; try (vm_compute in Hrun; discriminate).
  exists hop, tr'. split; [reflexivity|].
  apply (ParseHops_matching example.value "on" "call" "name" "if"
           example.gocty_string example.gocty_bool example.ctyjson_Marshal
           example.AsValueMap example.slug_Make example.ValidateLabels
           example.parseEventVar example.eventBundleToCty
           example.body example.push [] hop None tr').
  exact Hrun.
Defined.

(** The rules [clash]: the third block is named as the first is by
    default, and neither the second nor the third matches a push. *)
Lemma ParseHops_rejects_duplicates_witness :
  exists res,
    (example.ParseHops example.clash example.push []).1 = Ret res
    /\ res.2 = Some (errorString "Duplicate 'on' block found: push0")
    /\ res.2 <> None.
Proof.
  destruct (example.ParseHops example.clash example.push []) as [[res|e|] tr'] eqn:Hrun;
    try (vm_compute in Hrun; discriminate).
  exists res. split; [reflexivity|]. split.
  - vm_compute in Hrun. injection Hrun as <- _. reflexivity.
  - apply (ParseHops_rejects_duplicates example.value "on" "call" "name" "if"
             example.gocty_string example.gocty_bool example.ctyjson_Marshal
             example.AsValueMap example.slug_Make example.ValidateLabels
             example.parseEventVar example.eventBundleToCty
             example.clash example.push [] _ _ _ 0%nat 2%nat _ _ "push0"
             eq_refl ltac:(lia) eq_refl eq_refl eq_refl eq_refl res).
    unfold example.ParseHops in Hrun. rewrite Hrun. reflexivity.
Defined.

(** ** Reading the rule files of a directory *)

Lemma string_compare_Lt_trans (s1 s2 s3 : string) :
  String.compare s1 s2 = Lt -> String.compare s2 s3 = Lt -> String.compare s1 s3 = Lt.
Proof.
  revert s2 s3. induction s1 as [|a s1 IH]; intros [|b s2] [|c s3]; cbn; try congruence.
  unfold Ascii.compare.
  destruct (N.compare_spec (N_of_ascii a) (N_of_ascii b)) as [Hab|Hab|Hab]; try discriminate;
    destruct (N.compare_spec (N_of_ascii b) (N_of_ascii c)) as [Hbc|Hbc|Hbc];
    try discriminate; intros H1 H2.
  - rewrite Hab, Hbc, N.compare_refl. eauto.
  - rewrite Hab. apply N.compare_lt_iff in Hbc. rewrite Hbc. reflexivity.
  - rewrite <- Hbc. apply N.compare_lt_iff in Hab. rewrite Hab. reflexivity.
  - assert (N_of_ascii a < N_of_ascii c)%N as H by lia.
    apply N.compare_lt_iff in H. rewrite H. reflexivity.
Qed.

Lemma string_compare_refl (s : string) : String.compare s s = Eq.
Proof.
  induction s; cbn; [reflexivity|]. unfold Ascii.compare. rewrite N.compare_refl. assumption.
Qed.

Lemma string_le_trans : Transitive hopsdir.string_le.
Proof.
  intros s1 s2 s3. unfold hopsdir.string_le, String.leb.
  destruct (String.compare s1 s2) eqn:H12; try discriminate;
    destruct (String.compare s2 s3) eqn:H23; try discriminate; intros _ _.
  - apply String.compare_eq_iff in H12. apply String.compare_eq_iff in H23.
    rewrite H12, H23, string_compare_refl. reflexivity.
  - apply String.compare_eq_iff in H12. rewrite H12, H23. reflexivity.
  - apply String.compare_eq_iff in H23. rewrite <- H23, H12. reflexivity.
  - rewrite (string_compare_Lt_trans _ _ _ H12 H23). reflexivity.
Qed.

Lemma string_le_total : Total hopsdir.string_le.
Proof. intros s1 s2. apply String.leb_total. Qed.

(** Induction on a file tree. *)
Lemma DirEntry_tree_ind (P : hopsdir.DirEntry -> Prop) :
  (forall name isDir ds rerr, Forall P ds -> P (hopsdir.mkEntry name isDir ds rerr)) ->
  forall d, P d.
Proof.
  intros H. fix IH 1. intros [name isDir ds rerr]. apply H.
  induction ds as [|d ds IHds]; constructor; [apply IH|exact IHds].
Qed.

Section HopsDirProps.

Variable filepath_Join : string -> string -> string.
Variable filepath_Ext : string -> string.
Variable os_ReadFile : string -> result bytes.

Local Abbreviation collect :=
  (fun path d err => hopsdir.collect filepath_Ext path (Some d) err).
Local Abbreviation listed := (hopsdir.listed filepath_Join filepath_Ext).

(** What the walk of one entry adds to the paths found so far. *)
Let walked (d : hopsdir.DirEntry) : Prop :=
  forall path s,
  exists found res,
    hopsdir.walkDir filepath_Join collect path d s = (s ++ found, res)
    /\ res <> Some hopsdir.SkipDir
    /\ (res = None -> forall p, p ∈ found <-> listed path d p).

Lemma walkEntries_collect (ds : list hopsdir.DirEntry) (path : string) (s : list string) :
  Forall walked ds ->
  exists found res,
    hopsdir.walkEntries filepath_Join (hopsdir.walkDir filepath_Join collect) path ds s
      = (s ++ found, res)
    /\ res <> Some hopsdir.SkipDir
    /\ (res = None ->
        forall p, p ∈ found
                  <-> exists d1, d1 ∈ ds
                                 /\ listed (filepath_Join path (hopsdir.Name d1)) d1 p).
Proof.
  intros Hds. revert s. induction Hds as [|d1 ds Hd1 Hds IH]; intros s.
  - exists [], None. cbn. rewrite app_nil_r. split; [reflexivity|]. split; [discriminate|].
    intros _ p. split; [intros Hp; inversion Hp|intros (d1 & Hd & _); inversion Hd].
  - cbn [hopsdir.walkEntries].
    destruct (Hd1 (filepath_Join path (hopsdir.Name d1)) s) as (found1 & res1 & Hrun1 & Hns1 & Hl1).
    rewrite Hrun1. destruct res1 as [[|e]|].
    + contradiction.
    + exists found1, (Some (hopsdir.walkError e)). split; [reflexivity|].
      split; [discriminate|discriminate].
    + destruct (IH (s ++ found1)) as (found2 & res2 & Hrun2 & Hns2 & Hl2).
      rewrite Hrun2. exists (found1 ++ found2), res2.
      split; [rewrite app_assoc; reflexivity|]. split; [exact Hns2|].
      intros Hres p. rewrite elem_of_app, (Hl1 eq_refl p), (Hl2 Hres p). split.
      * intros [H|(d & Hd & H)]; [exists d1|exists d]; split; auto;
          [apply list_elem_of_here|apply list_elem_of_further; exact Hd].
      * intros (d & Hd & H). apply elem_of_cons in Hd as [->|Hd]; [left|right]; eauto.
Qed.

Lemma walkDir_collect (d : hopsdir.DirEntry) : walked d.
Proof.
  induction d as [name isDir ds rerr IH] using DirEntry_tree_ind.
  intros path s. cbn [hopsdir.walkDir]. unfold hopsdir.collect at 1.
  cbn [hopsdir.IsDir hopsdir.Name].
  destruct isDir; cbn [andb negb].
  - destruct (hopsdir.strings_HasPrefix name "..") eqn:Hdots.
    + exists [], None. rewrite app_nil_r. split; [reflexivity|]. split; [discriminate|].
      intros _ p. split; [intros Hp; inversion Hp|].
      intros Hl. inversion Hl as [? ? Hdir|? ? ? ? _ Hpre]; subst;
        cbn [hopsdir.IsDir hopsdir.Name] in *; congruence.
    + destruct rerr as [e|].
      * cbn. exists [], (Some (hopsdir.walkError e)). rewrite app_nil_r.
        split; [reflexivity|]. split; discriminate.
      * destruct (walkEntries_collect ds path s IH) as (found & res & Hrun & Hns & Hl).
        rewrite Hrun. exists found, res. split; [reflexivity|]. split; [exact Hns|].
        intros Hres p. rewrite (Hl Hres p). split.
        -- intros (d1 & Hd1 & H). eapply hopsdir.listed_dir; eauto.
        -- intros H. inversion H as [? ? Hdir|? ? d1 ? _ _ Hd1 Hl1]; subst;
             [cbn in Hdir; discriminate|]. exists d1. split; assumption.
  - destruct (String.eqb_spec (filepath_Ext path) ".hops") as [Hext|Hext].
    + exists [path], None. split; [reflexivity|]. split; [discriminate|].
      intros _ p. rewrite list_elem_of_singleton. split.
      * intros ->. apply hopsdir.listed_file; [reflexivity|exact Hext].
      * intros H. inversion H as [|? ? ? ? Hdir]; subst; [reflexivity|].
        cbn in Hdir. discriminate.
    + exists [], None. rewrite app_nil_r. split; [reflexivity|]. split; [discriminate|].
      intros _ p. split; [intros Hp; inversion Hp|].
      intros H. inversion H as [? ? _ He|? ? ? ? Hdir]; subst;
        [contradiction|cbn in Hdir; discriminate].
Qed.

Lemma readFiles_spec (filePaths : list string) (acc files : list hopsdir.fileContent) :
  hopsdir.readFiles os_ReadFile filePaths acc = Ok files ->
  exists read,
    files = acc ++ read
    /\ hopsdir.file <$> read = filePaths
    /\ Forall (fun f => os_ReadFile (hopsdir.file f) = Ok (hopsdir.content f)) read.
Proof.
  revert acc. induction filePaths as [|p ps IH]; intros acc; cbn [hopsdir.readFiles].
  - intros [= <-]. exists []. rewrite app_nil_r. repeat split. constructor.
  - destruct (os_ReadFile p) as [c|e] eqn:Hread; [|discriminate].
    intros H. destruct (IH _ H) as (read & -> & Hfiles & Hall).
    exists ({| hopsdir.file := p; hopsdir.content := c |} :: read).
    split; [rewrite <- app_assoc; reflexivity|]. split; [cbn; rewrite Hfiles; reflexivity|].
    constructor; [exact Hread|exact Hall].
Qed.

(** X16.  When [readHopsDir] succeeds, the files it returns are exactly
    those the walk of the tree comes by: the entries that are not
    directories, whose path has the extension [.hops], and that lie under
    no directory whose name starts with [..] (the root included); they
    come in ascending order of their paths, each with the content read
    from its path. *)
Theorem readHopsDir_files (dirPath : string) (root : hopsdir.DirEntry)
        (files : list hopsdir.fileContent) :
  hopsdir.readHopsDir filepath_Join filepath_Ext os_ReadFile dirPath (Ok root) = Ok files ->
  (forall p, p ∈ hopsdir.file <$> files <-> listed dirPath root p)
  /\ StronglySorted hopsdir.string_le (hopsdir.file <$> files)
  /\ Forall (fun f => os_ReadFile (hopsdir.file f) = Ok (hopsdir.content f)) files.
Proof.
  unfold hopsdir.readHopsDir, hopsdir.WalkDir.
  destruct (walkDir_collect root dirPath []) as (found & res & Hrun & Hns & Hl).
  cbn [app] in Hrun. rewrite Hrun.
  destruct res as [[|e]|]; [contradiction|discriminate|].
  intros Hread. destruct (readFiles_spec _ _ _ Hread) as (read & -> & Hfiles & Hall).
  cbn [app]. rewrite Hfiles. split; [|split; [|exact Hall]].
  - intros p. rewrite <- (Hl eq_refl p). unfold hopsdir.sort_Strings.
    rewrite merge_sort_Permutation. reflexivity.
  - apply StronglySorted_merge_sort; [exact string_le_trans|exact string_le_total].
Qed.

(** X17.  A root directory whose own name starts with [..] is skipped as
    a whole: [readHopsDir] returns no files and no error, whatever the
    directory holds and even when it cannot be read. *)
Theorem readHopsDir_dotdot_root (dirPath name : string) (ds : list hopsdir.DirEntry)
        (rerr : option error) :
  hopsdir.strings_HasPrefix name ".." = true ->
  hopsdir.readHopsDir filepath_Join filepath_Ext os_ReadFile dirPath
    (Ok (hopsdir.mkEntry name true ds rerr)) = Ok [].
Proof.
  intros Hdots. unfold hopsdir.readHopsDir, hopsdir.WalkDir.
  cbn [hopsdir.walkDir]. unfold hopsdir.collect.
  cbn [hopsdir.IsDir hopsdir.Name andb]. rewrite Hdots. reflexivity.
Qed.

End HopsDirProps.

(** The rules of the config map: the three files outside the [..]
    directories, in the order of their paths. *)
Lemma readHopsDir_files_witness :
  exists files,
    hopsdir.readHopsDir exampledir.Join exampledir.Ext exampledir.ReadFile "/rules"
      (Ok exampledir.root) = Ok files
    /\ hopsdir.file <$> files
       = ["/rules/extra.hops"; "/rules/main.hops"; "/rules/team/alerts.hops"]
    /\ (forall p, p ∈ hopsdir.file <$> files
                  <-> hopsdir.listed exampledir.Join exampledir.Ext "/rules" exampledir.root p)
    /\ StronglySorted hopsdir.string_le (hopsdir.file <$> files)
    /\ Forall (fun f => exampledir.ReadFile (hopsdir.file f) = Ok (hopsdir.content f)) files.
Proof.
  destruct (hopsdir.readHopsDir exampledir.Join exampledir.Ext exampledir.ReadFile "/rules"
              (Ok exampledir.root)) as [files|e] eqn:Hrun;
    [|vm_compute in Hrun; discriminate].
  exists files. split; [reflexivity|]. split.
  - vm_compute in Hrun. injection Hrun as <-. reflexivity.
  - apply (readHopsDir_files exampledir.Join exampledir.Ext exampledir.ReadFile
             "/rules" exampledir.root files Hrun).
Defined.

(** Reading the directory [..data] itself finds nothing. *)
Lemma readHopsDir_dotdot_root_witness :
  hopsdir.readHopsDir exampledir.Join exampledir.Ext exampledir.ReadFile "/rules/..data"
    (Ok (exampledir.dirEntry "..data"
           [exampledir.fileEntry "main.hops"; exampledir.fileEntry "extra.hops"]))
  = Ok [].
Proof.
  apply (readHopsDir_dotdot_root exampledir.Join exampledir.Ext exampledir.ReadFile
           "/rules/..data" "..data").
  reflexivity.
Defined.

(** ** Redelivery *)

Lemma published_prefix (tr tr' : Trace) (subject : string) :
  tr `prefix_of` tr' -> subject ∈ (published tr).*1 -> subject ∈ (published tr').*1.
Proof.
  intros [rest ->] H. rewrite published_app, fmap_app. apply elem_of_app. left. exact H.
Qed.

(** The result of a call of a block, from the results of all blocks. *)
Lemma Forall2_calls {A} (R : dsl.CallAST -> A -> Prop) (Q : A -> Prop)
      (ons : list dsl.OnAST) (outs : list (list A)) (on : dsl.OnAST) (call : dsl.CallAST) :
  Forall2 (fun on o => Forall2 R (dsl.on_Calls on) o) ons outs ->
  Forall (Forall Q) outs ->
  on ∈ ons -> call ∈ dsl.on_Calls on ->
  exists a, R call a /\ Q a.
Proof.
  intros HF HQ Hon Hcall.
  induction HF as [|on' o ons outs Hon' _ IH]; [inversion Hon|].
  apply Forall_cons in HQ as [Ho HQ].
  apply elem_of_cons in Hon as [->|Hon]; [|apply IH; assumption].
  clear -Hon' Ho Hcall.
  induction Hon' as [|call' a calls errs HR _ IH']; [inversion Hcall|].
  apply Forall_cons in Ho as [Ha Ho].
  apply elem_of_cons in Hcall as [->|Hcall]; [|apply IH'; assumption].
  exists a. split; assumption.
Qed.

Section Redelivery.

Variable W : nats.World.
Variable Parse : Msg -> result nats.MsgMeta.
Variable c : nats.Client.
Variable body : hcl_Body.
Variable ParseHops : hcl_Body -> nats.MessageBundle -> result dsl.HopAST.

Let r : runner.Runner :=
  {| runner.hops := body;
     runner.natsClient := runner.Client_NatsClient W Parse c |}.

Let acct : string := nats.accountId c.

Lemma SequenceCallback_ons (scheduler : Trace -> list nat) (sequenceId : string)
      (msgBundle : nats.MessageBundle) (hop : dsl.HopAST) (tr : Trace) :
  ParseHops body msgBundle = Ok hop ->
  runner.SequenceCallback scheduler ParseHops r sequenceId msgBundle tr
  = runner.dispatchOns scheduler r sequenceId (dsl.Ons hop) None
      (tr ++ [EvLog LDebug None "Successfully parsed hops file"]).
Proof.
  intros Hparse. unfold runner.SequenceCallback, runner.sequenceHops.
  assert (Hb : runner.hops r = body) by reflexivity.
  destruct (msgBundle !! "hops"); rewrite Hb, Hparse; run_M; reflexivity.
Qed.

(** The results of the calls, when all of them are what [dispatchCall]
    returns at a point where it returns nil. *)
Lemma all_dispatched_nil (sequenceId : string) (tr tr' : Trace)
      (ons : list dsl.OnAST) (outs : list (list (option error))) :
  Forall2 (fun on o => Forall2 (dispatchedIn r sequenceId tr tr') (dsl.on_Calls on) o)
          ons outs ->
  (forall on call pt, on ∈ ons -> call ∈ dsl.on_Calls on -> tr `prefix_of` pt ->
                      (runner.dispatchCall r call sequenceId pt).1 = Ret None) ->
  Forall (Forall (eq None)) outs.
Proof.
  intros HF Hnil. induction HF as [|on o ons outs Hon _ IH]; [constructor|].
  constructor.
  - assert (Hcalls : forall call, call ∈ dsl.on_Calls on ->
                       forall pt, tr `prefix_of` pt ->
                                  (runner.dispatchCall r call sequenceId pt).1 = Ret None)
      by (intros call Hc pt Hpt; apply (Hnil on call pt); [apply list_elem_of_here|exact Hc|exact Hpt]).
    clear -Hon Hcalls. induction Hon as [|call err calls errs (pt & Hpt & Hret & _) _ IH'];
      [constructor|].
    constructor.
    + rewrite (Hcalls call (list_elem_of_here _ _) pt Hpt) in Hret. congruence.
    + apply IH'. intros call' Hc. apply Hcalls. apply list_elem_of_further. exact Hc.
  - apply IH. intros on' call pt Hon' Hc Hpt. apply (Hnil on' call pt); [|exact Hc|exact Hpt].
    apply list_elem_of_further. exact Hon'.
Qed.

Lemma perOn_nil (outs : list (list (option error))) (perOn : list (option error)) :
  Forall2 (fun o e => exists chan, chan ≡ₚ o /\ e = runner.joinAll chan) outs perOn ->
  Forall (eq None) perOn <-> Forall (Forall (eq None)) outs.
Proof.
  intros Hper. induction Hper as [|o e outs perOn (chan & Hchan & ->) _ IH].
  - split; constructor.
  - rewrite !Forall_cons, IH, <- Hchan, <- joinAll_None_iff. intuition.
Qed.

(** X18.  Dispatch is idempotent under redelivery, for a broker that
    keeps a fence on its subjects.  [holds t subject] says that the
    subject holds a message at trace [t], and the broker is such that: it
    keeps the messages it holds; a publish it answers without an error
    leaves a message on the subject; a publish on a subject that holds a
    message is refused as a duplicate (by the text or by the code of the
    refusal); and a publish is refused as a duplicate only on a subject
    that holds a message.  Then, when [SequenceCallback] has returned nil
    for a bundle once, it returns nil again whenever the same bundle is
    handed to it later, under any scheduling of the calls; it asks for the
    same requests again. *)
Theorem redelivery_idempotent (holds : Trace -> string -> Prop)
        (scheduler1 scheduler2 : Trace -> list nat)
        (sequenceId : string) (msgBundle : nats.MessageBundle) (hop : dsl.HopAST)
        (tr tr1 tr2 : Trace) :
  ParseHops body msgBundle = Ok hop ->
  (forall t t' subject, t `prefix_of` t' -> holds t subject -> holds t' subject) ->
  (forall t subject data,
      (nats.js_Publish (nats.JetStream c) t subject data).2 = None ->
      holds (t ++ [EvPublish subject data]) subject) ->
  (forall t subject data,
      holds t subject ->
      exists e,
        (nats.js_Publish (nats.JetStream c) t subject data).2 = Some e
        /\ (strings_Contains (Error e) fenceText = true
            \/ strings_Contains (Error e) "err_code=10077" = true)) ->
  (forall t subject data e,
      (nats.js_Publish (nats.JetStream c) t subject data).2 = Some e ->
      strings_Contains (Error e) fenceText = true
      \/ strings_Contains (Error e) "err_code=10077" = true ->
      holds t subject) ->
  runner.SequenceCallback scheduler1 ParseHops r sequenceId msgBundle tr = (Ret None, tr1) ->
  tr1 `prefix_of` tr2 ->
  exists tr3,
    runner.SequenceCallback scheduler2 ParseHops r sequenceId msgBundle tr2 = (Ret None, tr3)
    /\ published tr3
         ≡ₚ published tr2
              ++ concat ((fun on => requestsOf acct sequenceId (dsl.on_Calls on))
                           <$> dsl.Ons hop).
Proof.
  intros Hparse Hkeeps Htakes Hfence Honly Hfirst Hlater.
  rewrite (SequenceCallback_ons _ _ _ _ _ Hparse) in Hfirst.
  set (tr0 := tr ++ [EvLog LDebug None "Successfully parsed hops file"]) in *.
  destruct (dispatchOns_run W Parse c body scheduler1 sequenceId (dsl.Ons hop) None tr0)
    as (outs1 & perOn1 & tr1' & Hrun1 & Houts1 & Hper1 & Hpub1 & _).
  fold r in Hrun1, Houts1. fold acct in Hpub1.
  rewrite Hrun1 in Hfirst. injection Hfirst as Hres1 ->.
  apply appendAll_None_iff in Hres1 as [_ Hnil1].
  apply (perOn_nil _ _ Hper1) in Hnil1.
  (* every call is well formed, and the subject of its request holds a
     message after the first run *)
  assert (Hasked : forall on call,
             on ∈ dsl.Ons hop -> call ∈ dsl.on_Calls on ->
             exists subject,
               requestOf acct sequenceId call = Some (subject, dsl.call_Inputs call)
               /\ holds tr1 subject).
  { intros on call Hon Hcall.
    destruct (Forall2_calls _ (eq None) _ _ on call Houts1 Hnil1 Hon Hcall)
      as (err & Hdisp & <-).
    pose proof Hdisp as (pt0 & _ & Hret & _).
    apply (dispatchCall_ok_iff W Parse c body) in Hret as (subject & Hreq & _).
    apply (dispatchedIn_answered W Parse c body) in Hdisp
      as (pt & _ & Hpt & Hans & Hpub).
    unfold answered in Hans. rewrite Hreq in Hans.
    exists subject. split; [exact Hreq|].
    destruct (nats.js_Publish (nats.JetStream c) pt subject (dsl.call_Inputs call)).2
      as [e|] eqn:Hanswer.
    - apply (Hkeeps pt); [exact Hpt|].
      apply (Honly pt subject (dsl.call_Inputs call) e Hanswer).
      destruct (strings_Contains (Error e) fenceText); [left; reflexivity|].
      destruct (strings_Contains (Error e) "err_code=10077"); [right; reflexivity|].
      discriminate Hans.
    - apply (Hkeeps (pt ++ [EvPublish subject (dsl.call_Inputs call)]));
        [apply (Hpub _ _ Hreq)|].
      apply Htakes. exact Hanswer. }
  (* the second run *)
  rewrite (SequenceCallback_ons _ _ _ _ _ Hparse).
  set (tr2' := tr2 ++ [EvLog LDebug None "Successfully parsed hops file"]).
  destruct (dispatchOns_run W Parse c body scheduler2 sequenceId (dsl.Ons hop) None tr2')
    as (outs2 & perOn2 & tr3 & Hrun2 & Houts2 & Hper2 & Hpub2 & _).
  fold r in Hrun2, Houts2. fold acct in Hpub2.
  exists tr3. split.
  - rewrite Hrun2. f_equal. f_equal.
    apply appendAll_None_iff. split; [reflexivity|].
    apply (perOn_nil _ _ Hper2).
    apply (all_dispatched_nil sequenceId tr2' tr3 _ _ Houts2).
    intros on call pt Hon Hcall Hpt.
    destruct (Hasked on call Hon Hcall) as (subject & Hreq & Hin).
    apply (dispatchCall_ok_iff W Parse c body). exists subject. split; [exact Hreq|].
    assert (Hholds : holds pt subject).
    { apply (Hkeeps tr1); [|exact Hin].
      etrans; [exact Hlater|]. etrans; [|exact Hpt]. apply prefix_app_r. reflexivity. }
    destruct (Hfence pt subject (dsl.call_Inputs call) Hholds) as (e & Hanswer & He).
    unfold accepted. rewrite Hanswer. exact He.
  - rewrite Hpub2. subst tr2'. rewrite published_app. cbn. rewrite app_nil_r. reflexivity.
Qed.

End Redelivery.

(** The example rules on a push, dispatched twice: the second time the
    broker refuses the two requests as duplicates, and the callback
    returns nil again. *)
Lemma redelivery_idempotent_witness :
  let first :=
    runner.SequenceCallback demo.scheduler example.evaluate demo.theRunner "SEQ"
      example.push [] in
  first.1 = Ret None
  /\ exists tr3,
      runner.SequenceCallback (fun _ => [1%nat]) example.evaluate demo.theRunner "SEQ"
        example.push first.2
        = (Ret None, tr3)
      /\ (published tr3).*1
           ≡ₚ ["acct.request.SEQ.push0-github_tag0.github.tag";
               "acct.request.SEQ.second-github_release0.github.release";
               "acct.request.SEQ.push0-github_tag0.github.tag";
               "acct.request.SEQ.second-github_release0.github.release"].
Proof.
  intros first. split; [reflexivity|].
  destruct (redelivery_idempotent (demo.world None None demo.noAckError) demo.Parse
              (demo.client None None) demo.rules example.evaluate
              (fun t subject => subject ∈ (Subject <$> demo.stored) ++ (published t).*1)
              demo.scheduler (fun _ => [1%nat]) "SEQ" example.push
              {| dsl.Ons :=
                   [ {| dsl.on_EventType := "push"; dsl.on_Name := "push0";
                        dsl.on_Slug := "push0"; dsl.on_IfClause := true;
                        dsl.on_Calls :=
                          [ {| dsl.call_TaskType := "github_tag";
                               dsl.call_Name := "github_tag0";
                               dsl.call_Slug := "push0-github_tag0";
                               dsl.call_IfClause := true;
                               dsl.call_Inputs := [] |} ] |};
                     {| dsl.on_EventType := "push"; dsl.on_Name := "second";
                        dsl.on_Slug := "second"; dsl.on_IfClause := true;
                        dsl.on_Calls :=
                          [ {| dsl.call_TaskType := "github_release";
                               dsl.call_Name := "github_release0";
                               dsl.call_Slug := "second-github_release0";
                               dsl.call_IfClause := true;
                               dsl.call_Inputs := [] |} ] |} ] |}
              [] first.2 first.2)
    as (tr3 & Hrun & Hpub).
  - reflexivity.
  - intros t t' subject Hpre Hin. apply elem_of_app in Hin as [Hin|Hin];
      apply elem_of_app; [left; exact Hin|right].
    apply (published_prefix t); assumption.
  - intros t subject data _. apply elem_of_app. right.
    rewrite published_app, fmap_app. apply elem_of_app. right. apply list_elem_of_here.
  - intros t subject data Hin.
    cbn [demo.client nats.JetStream demo.js nats.js_Publish].
    rewrite bool_decide_eq_true_2 by exact Hin.
    exists demo.fenceError. split; [reflexivity|left; reflexivity].
  - intros t subject data e.
    cbn [demo.client nats.JetStream demo.js nats.js_Publish].
    destruct (bool_decide_reflect
                (subject ∈ (Subject <$> demo.stored) ++ (published t).*1)) as [Hin|_];
      [intros _ _; exact Hin|discriminate].
  - reflexivity.
  - reflexivity.
  - exists tr3. split; [exact Hrun|]. rewrite Hpub. reflexivity.
Defined.

(** ** The replay sequence id as a subject token *)

Lemma hexdigit_hex (n : N) :
  nats.hexdigit n ∈ list_ascii_of_string "0123456789abcdef".
Proof.
  unfold nats.hexdigit.
  assert (H : (N.to_nat (n mod 16) < 16)%nat).
  { pose proof (N.mod_upper_bound n 16 ltac:(discriminate)). lia. }
  set (i := N.to_nat (n mod 16)) in *. clearbody i.
  do 16 (destruct i as [|i]; [cbn; repeat constructor|]). lia.
Qed.

Lemma no_separator (s : string) (sep : ascii) :
  Forall (fun ch => ch <> sep) (list_ascii_of_string s) ->
  strings_Contains s (String sep "") = false.
Proof.
  unfold strings_Contains.
  induction s as [|ch s IH]; intros H; cbn [strings_Index String.prefix].
  - reflexivity.
  - cbn [list_ascii_of_string] in H. apply Forall_cons in H as [Hch H].
    destruct (ascii_dec sep ch) as [->|_]; [contradiction|].
    specialize (IH H). destruct (strings_Index s (String sep "")); [discriminate|reflexivity].
Qed.

(** X19.  The replay sequence id that [initReplayConsumer] mints is one
    subject token: it is made of the letters of [replay], lower case
    hexadecimal digits and [-] only, so it holds neither a [.] that would
    split it nor a wildcard ([*], [>]) nor a space, whatever random bits
    the UUID is made from. *)
Theorem replayId_token (W : nats.World) (tr : Trace) :
  Forall (fun ch => ch ∈ list_ascii_of_string "replay-0123456789abcdef")
         (list_ascii_of_string (replayId W tr))
  /\ strings_Contains (replayId W tr) "." = false
  /\ strings_Contains (replayId W tr) "*" = false
  /\ strings_Contains (replayId W tr) ">" = false
  /\ strings_Contains (replayId W tr) " " = false.
Proof.
  assert (Hchars : Forall (fun ch => ch ∈ list_ascii_of_string "replay-0123456789abcdef")
                          (list_ascii_of_string (replayId W tr))).
  { unfold replayId, nats.uuid_String, nats.hexbyte.
    cbn [substring append list_ascii_of_string].
    assert (Hhex : forall n, nats.hexdigit n ∈ list_ascii_of_string "replay-0123456789abcdef").
    { intros n. pose proof (hexdigit_hex n) as H.
      change (list_ascii_of_string "replay-0123456789abcdef")
        with (list_ascii_of_string "replay-" ++ list_ascii_of_string "0123456789abcdef").
      apply elem_of_app. right. exact H. }
    repeat (apply Forall_cons; split; [first [apply Hhex | cbn; repeat constructor]|]).
    constructor. }
  split; [exact Hchars|].
  assert (Hsep : forall sep : ascii,
             sep ∉ list_ascii_of_string "replay-0123456789abcdef" ->
             strings_Contains (replayId W tr) (String sep "") = false).
  { intros sep Hsep. apply no_separator.
    eapply Forall_impl; [exact Hchars|]. intros ch Hch ->. contradiction. }
  assert (Hnot : forall sep : ascii,
             forallb (fun ch => negb (Ascii.eqb ch sep))
                     (list_ascii_of_string "replay-0123456789abcdef") = true ->
             sep ∉ list_ascii_of_string "replay-0123456789abcdef").
  { intros sep Hb Hin. rewrite forallb_forall in Hb.
    apply list_elem_of_In in Hin. specialize (Hb sep Hin).
    rewrite Ascii.eqb_refl in Hb. discriminate. }
  repeat split; apply Hsep, Hnot; reflexivity.
Qed.

(** ** Waiting for the history *)

Section Starvation.

Variable W : nats.World.
Variable Parse : Msg -> result nats.MsgMeta.

Lemma readBack_waits (newMsg : nats.MsgMeta) (ms : list Msg)
      (b : nats.MessageBundle) (tr : Trace) :
  Forall (parses Parse) ms ->
  Forall (fun m => (streamSeq Parse m < nats.StreamSequence newMsg)%N) ms ->
  nats.readBack Parse (Ok <$> ms) newMsg b tr
    = (Blocked, tr ++ replicate (S (length ms)) EvNext).
Proof.
  intros Hp Hlt. revert b tr.
  induction ms as [|x ms IH]; intros b tr; cbn [fmap list_fmap nats.readBack].
  - reflexivity.
  - apply Forall_cons in Hp as [[mx Hx] Hp]. apply Forall_cons in Hlt as [Hxlt Hlt].
    unfold streamSeq in Hxlt. rewrite Hx in Hxlt.
    run_M. cbn [fst snd]. rewrite Hx.
    destruct (N.ltb_spec (nats.StreamSequence newMsg) (nats.StreamSequence mx)); [lia|].
    destruct (N.eqb_spec (nats.StreamSequence mx) (nats.StreamSequence newMsg)); [lia|].
    specialize (IH Hp Hlt). run_M. rewrite IH.
    cbn [length replicate]. rewrite <- app_assoc. reflexivity.
Qed.

(** X20.  The aggregator has no deadline of its own.  When every message
    the ordered consumer delivers lies before the triggering message in
    the stream, the callback of [ConsumeSequences] waits in [Next] for a
    further message of the sequence: it does not return, the sequence
    handler is not called, and the triggering message gets no answer (no
    ack, no nak, no in-progress signal). *)
Theorem wrappedCB_waits_for_history (c : nats.Client) (handler : nats.SequenceHandler)
        (msg : Msg) (hopsMsg : nats.MsgMeta) (hist : list Msg) (tr : Trace) :
  Parse msg = Ok hopsMsg ->
  nats.js_OrderedConsumer (nats.JetStream c) tr (nats.accountId c)
      {| oc_FilterSubjects := [nats.SequenceFilter hopsMsg];
         oc_DeliverPolicy := DeliverAllPolicy |}
    = Ok {| nats.Messages := Ok (Ok <$> hist) |} ->
  Forall (parses Parse) hist ->
  Forall (fun m => (streamSeq Parse m < nats.StreamSequence hopsMsg)%N) hist ->
  nats.wrappedCB W Parse c handler msg tr
    = (Blocked,
       tr ++ [EvOrderedConsumer (nats.accountId c)
                {| oc_FilterSubjects := [nats.SequenceFilter hopsMsg];
                   oc_DeliverPolicy := DeliverAllPolicy |};
              EvMessages]
          ++ replicate (S (length hist)) EvNext).
Proof.
  intros HP Hcons Hparse Hbelow. unfold nats.wrappedCB. rewrite HP. run_M.
  rewrite (FetchMessageBundle_run Parse c hopsMsg (Ok <$> hist) tr Hcons).
  rewrite (readBack_waits hopsMsg hist ∅ _ Hparse Hbelow).
  rewrite <- app_assoc. reflexivity.
Qed.

End Starvation.

(** The delivery of a message of [SEQ] that the stream does not hold yet
    (stream sequence 9): the four stored messages are read, and the
    callback waits. *)
Lemma wrappedCB_waits_for_history_witness :
  let m := demo.msg "acct.notify.SEQ.step4" "four" 9 in
  nats.wrappedCB (demo.world None None demo.noAckError) demo.Parse (demo.client None None)
      demo.sequenceHandler m []
    = (Blocked,
       [EvOrderedConsumer "acct"
          {| oc_FilterSubjects := ["acct.notify.SEQ.*"];
             oc_DeliverPolicy := DeliverAllPolicy |};
        EvMessages; EvNext; EvNext; EvNext; EvNext; EvNext]).
Proof.
  intros m.
  apply (wrappedCB_waits_for_history (demo.world None None demo.noAckError) demo.Parse
           (demo.client None None) demo.sequenceHandler m
           (demo.notifyMeta "SEQ" "step4" 9) demo.history []).
  - reflexivity.
  - reflexivity.
  - repeat constructor; eexists; reflexivity.
  - repeat constructor.
Defined.
